(** * Weather prediction route: a shallow embedding of [predict/route.ts]

    The development follows the TypeScript source function by function:
    text normalisation and the regular expressions it uses, the calendar
    arithmetic behind [Date], the forecast and climatology fetchers, and the
    [POST] handler that sequences them.

    Conventions of the embedding:
    - a JavaScript string is the list of its UTF-16 code units ([list N]);
    - a JavaScript [number] is the rational value ([Q]) of an IEEE double;
      [+], [-], [*] and [/] round their exact result to the nearest double,
      a tie going to the even significand ([Double]); [NaN], the infinities
      and the sign of zero are not represented, and [Math.exp] is a parameter
      of the runtime;
    - [null] and [undefined] are both [None];
    - a [Date] is its time value in milliseconds ([Z]), or [None] when the
      date is invalid;
    - a promise that rejects, or a [throw], is the right injection of a sum;
    - the handler runs in a small monad that records, in order, every call it
      makes to an upstream collaborator. *)

From Stdlib Require Import ZArith NArith QArith Qround Qpower Qreduction Qabs.
From Stdlib Require Import List String Ascii Bool Lia Lqa.
Import ListNotations.

Set Implicit Arguments.

(* ------------------------------------------------------------------ *)
(** * JavaScript strings *)

Module JsString.

Definition jsstring := list N.

(** Source literals are written as Rocq strings (UTF-8 bytes) and decoded to
    code units; a code point above U+FFFF becomes a surrogate pair. *)
Fixpoint utf16_of_utf8 (bs : list N) : jsstring :=
  match bs with
  | [] => []
  | b :: t =>
    if (b <? 128)%N then b :: utf16_of_utf8 t
    else if (b <? 224)%N then
      match t with
      | c :: t' => ((b - 192) * 64 + (c - 128))%N :: utf16_of_utf8 t'
      | _ => []
      end
    else if (b <? 240)%N then
      match t with
      | c :: d :: t' =>
        ((b - 224) * 4096 + (c - 128) * 64 + (d - 128))%N :: utf16_of_utf8 t'
      | _ => []
      end
    else
      match t with
      | c :: d :: e :: t' =>
        let cp := ((b - 240) * 262144 + (c - 128) * 4096 + (d - 128) * 64 + (e - 128))%N in
        let v := (cp - 65536)%N in
        (55296 + v / 1024)%N :: (56320 + v mod 1024)%N :: utf16_of_utf8 t'
      | _ => []
      end
  end.

Definition js (s : string) : jsstring :=
  utf16_of_utf8 (map N_of_ascii (list_ascii_of_string s)).

Fixpoint str_eqb (a b : jsstring) : bool :=
  match a, b with
  | [], [] => true
  | x :: a', y :: b' => (x =? y)%N && str_eqb a' b'
  | _, _ => false
  end.

(** Truthiness of a string: only the empty string is falsy. *)
Definition truthy (s : jsstring) : bool :=
  match s with [] => false | _ => true end.

(** [WhiteSpace] and [LineTerminator] of ECMAScript: what [trim] strips and
    what [\s] matches. *)
Definition is_space (c : N) : bool :=
  ((9 <=? c) && (c <=? 13) || (c =? 32) || (c =? 160) || (c =? 5760)
   || (8192 <=? c) && (c <=? 8202) || (c =? 8232) || (c =? 8233)
   || (c =? 8239) || (c =? 8287) || (c =? 12288) || (c =? 65279))%N.

Definition is_digit (c : N) : bool := ((48 <=? c) && (c <=? 57))%N.

(** [\w] without the unicode flag: ASCII letters, digits and underscore. *)
Definition is_word (c : N) : bool :=
  ((65 <=? c) && (c <=? 90) || (97 <=? c) && (c <=? 122) || is_digit c || (c =? 95))%N.

Fixpoint trimStart (s : jsstring) : jsstring :=
  match s with
  | c :: t => if is_space c then trimStart t else s
  | [] => []
  end.

Definition trim (s : jsstring) : jsstring :=
  rev (trimStart (rev (trimStart s))).

(** [toLowerCase] and [toUpperCase] on one code unit.  Both are exact on
    U+0000..U+00FF, which contains every character the source lower-cases
    (the text matched by its letter classes); a unit above U+00FF is left as
    it is, U+0178 apart. *)
Definition lower_unit (c : N) : N :=
  if ((65 <=? c) && (c <=? 90))%N then (c + 32)%N
  else if ((192 <=? c) && (c <=? 222) && negb (c =? 215))%N then (c + 32)%N
  else if (c =? 376)%N then 255%N
  else c.

Definition upper_unit (c : N) : N :=
  if ((97 <=? c) && (c <=? 122))%N then (c - 32)%N
  else if ((224 <=? c) && (c <=? 254) && negb (c =? 247))%N then (c - 32)%N
  else if (c =? 255)%N then 376%N
  else if (c =? 181)%N then 924%N
  else c.

Definition toLowerCase (s : jsstring) : jsstring := map lower_unit s.

Definition slice (from to : nat) (s : jsstring) : jsstring :=
  firstn (to - from) (skipn from s).

(** Decimal digits of a natural number, and [padStart(n, '0')]. *)
Definition digit_unit (d : Z) : N := Z.to_N (48 + d).

Fixpoint digits_fuel (fuel : nat) (n : Z) (acc : jsstring) : jsstring :=
  match fuel with
  | O => acc
  | S f =>
    let acc' := digit_unit (n mod 10) :: acc in
    if (n <? 10)%Z then acc' else digits_fuel f (n / 10)%Z acc'
  end.

Definition decimal (n : Z) : jsstring :=
  digits_fuel (S (Z.to_nat (Z.log2_up (Z.max n 1)))) n [].

Definition padStart (width : nat) (fill : N) (s : jsstring) : jsstring :=
  repeat fill (width - List.length s) ++ s.

(** [parseInt(s, 10)] on a string of decimal digits. *)
Definition parseDigits (s : jsstring) : Z :=
  fold_left (fun acc c => (acc * 10 + (Z.of_N c - 48))%Z) s 0%Z.

End JsString.
Import JsString.

(* ------------------------------------------------------------------ *)
(** * Regular expressions

    The patterns of the source are kept as data and run by a backtracking
    matcher that follows the ECMAScript semantics (without the unicode
    flag): alternatives are tried left to right, a greedy quantifier tries
    one more iteration before the continuation and a lazy one the
    continuation first, and an iteration of a quantifier whose minimum is
    met may not match the empty string. *)

Module Regex.

Inductive item :=
| Lit (c : N)              (* one character *)
| Range (lo hi : N)        (* lo-hi inside a bracket class *)
| ClsDigit                 (* \d *)
| ClsSpace.                (* \s *)

Inductive regex :=
| Eps
| Chars (items : list item)                 (* a character or a class *)
| Cat (r1 r2 : regex)
| Or (r1 r2 : regex)
| Quant (greedy : bool) (min : nat) (max : option nat) (r : regex)
| Cap (n : nat) (r : regex)                 (* capturing group number n *)
| WordBoundary                              (* \b *)
| LineStart                                 (* ^ *)
| LineEnd.                                  (* $ *)

Definition chr (c : N) : regex := Chars [Lit c].

Fixpoint lit (s : jsstring) : regex :=
  match s with
  | [] => Eps
  | [c] => chr c
  | c :: t => Cat (chr c) (lit t)
  end.

Fixpoint cat (rs : list regex) : regex :=
  match rs with
  | [] => Eps
  | [r] => r
  | r :: t => Cat r (cat t)
  end.

Fixpoint alt (rs : list regex) : regex :=
  match rs with
  | [] => Eps
  | [r] => r
  | r :: t => Or r (alt t)
  end.

Definition star (r : regex) := Quant true 0 None r.
Definition plus (r : regex) := Quant true 1 None r.
Definition lazy_plus (r : regex) := Quant false 1 None r.
Definition opt (r : regex) := Quant true 0 (Some 1%nat) r.
Definition times (lo hi : nat) (r : regex) := Quant true lo (Some hi) r.
Definition at_least (lo : nat) (r : regex) := Quant true lo None r.

(** [Canonicalize] of the ignore-case flag: the upper-case unit, unless that
    would turn a non-ASCII unit into an ASCII one. *)
Definition canonicalize (c : N) : N :=
  let u := upper_unit c in
  if ((128 <=? c) && (u <? 128))%N then c else u.

Fixpoint N_range (lo : N) (len : nat) : list N :=
  match len with
  | O => []
  | S k => lo :: N_range (lo + 1) k
  end.

Definition item_match (ic : bool) (it : item) (c : N) : bool :=
  match it with
  | Lit p => if ic then (canonicalize p =? canonicalize c)%N else (p =? c)%N
  | Range lo hi =>
    if ic
    then existsb (fun a => (canonicalize a =? canonicalize c)%N)
                 (N_range lo (N.to_nat (hi + 1 - lo)))
    else ((lo <=? c) && (c <=? hi))%N
  | ClsDigit => is_digit c
  | ClsSpace => is_space c
  end.

Record mstate := MState {
  m_pos : nat;                        (* index of the next unit *)
  m_prev : option N;                  (* the unit before it *)
  m_rest : jsstring;                  (* the units from it on *)
  m_caps : list (nat * jsstring)      (* captures, the latest first *)
}.

Fixpoint groups_of (r : regex) : list nat :=
  match r with
  | Cat a b | Or a b => groups_of a ++ groups_of b
  | Quant _ _ _ a => groups_of a
  | Cap n a => n :: groups_of a
  | _ => []
  end.

Definition clear_caps (gs : list nat) (st : mstate) : mstate :=
  MState (m_pos st) (m_prev st) (m_rest st)
         (filter (fun p => negb (existsb (Nat.eqb (fst p)) gs)) (m_caps st)).

Definition word_at (o : option N) : bool :=
  match o with Some c => is_word c | None => false end.

Definition pred_max (mx : option nat) : option nat := option_map pred mx.

Definition max_is_zero (mx : option nat) : bool :=
  match mx with Some O => true | _ => false end.

Fixpoint run (ic : bool) (r : regex) (k : mstate -> option mstate) (st : mstate)
  {struct r} : option mstate :=
  match r with
  | Eps => k st
  | Chars items =>
    match m_rest st with
    | c :: t =>
      if existsb (fun it => item_match ic it c) items
      then k (MState (S (m_pos st)) (Some c) t (m_caps st))
      else None
    | [] => None
    end
  | Cat a b => run ic a (fun st' => run ic b k st') st
  | Or a b =>
    match run ic a k st with
    | Some st' => Some st'
    | None => run ic b k st
    end
  | Cap n a =>
    run ic a
        (fun st' =>
           k (MState (m_pos st') (m_prev st') (m_rest st')
                     ((n, firstn (m_pos st' - m_pos st) (m_rest st)) :: m_caps st')))
        st
  | WordBoundary =>
    if xorb (word_at (m_prev st)) (word_at (hd_error (m_rest st)))
    then k st else None
  | LineStart => match m_prev st with None => k st | Some _ => None end
  | LineEnd => match m_rest st with [] => k st | _ => None end
  | Quant greedy mn mx a =>
    (fix rep (fuel : nat) (mn : nat) (mx : option nat)
             (k : mstate -> option mstate) (st : mstate) {struct fuel}
       : option mstate :=
       match fuel with
       | O => None
       | S fuel' =>
         let more :=
           if max_is_zero mx then None
           else run ic a
                    (fun st' =>
                       if (mn =? 0)%nat && (m_pos st' =? m_pos st)%nat then None
                       else rep fuel' (pred mn) (pred_max mx) k st')
                    (clear_caps (groups_of a) st) in
         if (0 <? mn)%nat then more
         else if greedy
              then match more with Some r => Some r | None => k st end
              else match k st with Some r => Some r | None => more end
       end) (S (mn + List.length (m_rest st))) mn mx k st
  end.

(** One successful match: where it starts, the matched text, the captures,
    and the state after it. *)
Record rmatch := RMatch {
  index : nat;
  matched : jsstring;
  after : mstate
}.

Definition group (n : nat) (m : rmatch) : option jsstring :=
  match find (fun p => Nat.eqb (fst p) n) (m_caps (after m)) with
  | Some p => Some (snd p)
  | None => None
  end.

Definition match_at (ic : bool) (r : regex) (pos : nat) (prev : option N)
           (rest : jsstring) : option rmatch :=
  match run ic r Some (MState pos prev rest []) with
  | Some st' => Some (RMatch pos (firstn (m_pos st' - pos) rest) st')
  | None => None
  end.

(** The leftmost match, as [RegExp.prototype.exec] finds it. *)
Fixpoint search_from (ic : bool) (r : regex) (pos : nat) (prev : option N)
         (rest : jsstring) {struct rest} : option rmatch :=
  match match_at ic r pos prev rest with
  | Some m => Some m
  | None =>
    match rest with
    | [] => None
    | c :: t => search_from ic r (S pos) (Some c) t
    end
  end.

(** [str.match(re)] for a pattern without the global flag. *)
Definition search (ic : bool) (r : regex) (s : jsstring) : option rmatch :=
  search_from ic r 0 None s.

(** [re.test(str)]. *)
Definition test (ic : bool) (r : regex) (s : jsstring) : bool :=
  match search ic r s with Some _ => true | None => false end.

(** [str.replace(re, by)] with the global flag: every match, left to right,
    without overlap; after an empty match the scan moves one unit on. *)
Fixpoint replace_loop (fuel : nat) (ic : bool) (r : regex) (by_ : jsstring)
         (pos : nat) (prev : option N) (rest : jsstring) : jsstring :=
  match fuel with
  | O => rest
  | S fuel' =>
    match match_at ic r pos prev rest with
    | Some m =>
      let st := after m in
      if (m_pos st =? pos)%nat then
        match rest with
        | [] => by_
        | c :: t => by_ ++ c :: replace_loop fuel' ic r by_ (S pos) (Some c) t
        end
      else by_ ++ replace_loop fuel' ic r by_ (m_pos st) (m_prev st) (m_rest st)
    | None =>
      match rest with
      | [] => []
      | c :: t => c :: replace_loop fuel' ic r by_ (S pos) (Some c) t
      end
    end
  end.

Definition replace_all (ic : bool) (r : regex) (by_ : jsstring) (s : jsstring) : jsstring :=
  replace_loop (S (List.length s)) ic r by_ 0 None s.

(** [str.replace(re, by)] without the global flag: the first match only. *)
Definition replace_first (ic : bool) (r : regex) (by_ : jsstring) (s : jsstring) : jsstring :=
  match search ic r s with
  | Some m => firstn (index m) s ++ by_ ++ m_rest (after m)
  | None => s
  end.

(** [str.match(re)] with the global flag: the matched texts, in order. *)
Fixpoint match_loop (fuel : nat) (ic : bool) (r : regex)
         (pos : nat) (prev : option N) (rest : jsstring) : list jsstring :=
  match fuel with
  | O => []
  | S fuel' =>
    match match_at ic r pos prev rest with
    | Some m =>
      let st := after m in
      if (m_pos st =? pos)%nat then
        matched m ::
        match rest with
        | [] => []
        | c :: t => match_loop fuel' ic r (S pos) (Some c) t
        end
      else matched m :: match_loop fuel' ic r (m_pos st) (m_prev st) (m_rest st)
    | None =>
      match rest with
      | [] => []
      | c :: t => match_loop fuel' ic r (S pos) (Some c) t
      end
    end
  end.

Definition match_all (ic : bool) (r : regex) (s : jsstring) : list jsstring :=
  match_loop (S (List.length s)) ic r 0 None s.

End Regex.
Import Regex.

(* ------------------------------------------------------------------ *)
(** * Dates

    The time value of a [Date] counts milliseconds from 1970-01-01T00:00Z in
    the proleptic Gregorian calendar.  The calendar conversions are the
    usual era-based ones (an era is 400 years, 146097 days, and starts on a
    1st of March). *)

Module JsDate.

Open Scope Z_scope.

Definition msPerDay : Z := 86400000.

Definition Day (t : Z) : Z := t / msPerDay.
Definition TimeWithinDay (t : Z) : Z := t mod msPerDay.

(** Days from 1970-01-01 to the given day; [m] is 1..12. *)
Definition days_from_civil (y m d : Z) : Z :=
  let y' := if m <=? 2 then y - 1 else y in
  let era := y' / 400 in
  let yoe := y' - era * 400 in
  let mp := (m + 9) mod 12 in
  let doy := (153 * mp + 2) / 5 + d - 1 in
  let doe := yoe * 365 + yoe / 4 - yoe / 100 + doy in
  era * 146097 + doe - 719468.

(** Year, month (1..12) and day of the month of a day number. *)
Definition civil_from_days (z : Z) : Z * Z * Z :=
  let z' := z + 719468 in
  let era := z' / 146097 in
  let doe := z' - era * 146097 in
  let yoe := (doe - doe / 1460 + doe / 36524 - doe / 146096) / 365 in
  let doy := doe - (365 * yoe + yoe / 4 - yoe / 100) in
  let mp := (5 * doy + 2) / 153 in
  let d := doy - (153 * mp + 2) / 5 + 1 in
  let m := if mp <? 10 then mp + 3 else mp - 9 in
  let y := yoe + era * 400 in
  (if m <=? 2 then y + 1 else y, m, d).

Definition YearFromTime (t : Z) : Z := fst (fst (civil_from_days (Day t))).
(** [MonthFromTime] is 0..11, as in ECMAScript. *)
Definition MonthFromTime (t : Z) : Z := snd (fst (civil_from_days (Day t))) - 1.
Definition DateFromTime (t : Z) : Z := snd (civil_from_days (Day t)).

(** [MakeDay(year, month, date)]: the month is 0-based and may lie outside
    0..11, the date may lie outside the month. *)
Definition MakeDay (year month date : Z) : Z :=
  let ym := year + month / 12 in
  let mn := month mod 12 in
  days_from_civil ym (mn + 1) 1 + date - 1.

Definition TimeClip (t : Z) : option Z :=
  if Z.abs t <=? 8640000000000000 then Some t else None.

(** A [Date] object: its time value, [None] for an invalid date. *)
Definition Date := option Z.

(** [Date.UTC(year, month, date)]: a year 0..99 means 1900 + year. *)
Definition Date_UTC (year month date : Z) : Date :=
  let yr := if (0 <=? year) && (year <=? 99) then 1900 + year else year in
  TimeClip (MakeDay yr month date * msPerDay).

Definition getUTCFullYear (d : Date) : option Z := option_map YearFromTime d.
Definition getUTCMonth (d : Date) : option Z := option_map MonthFromTime d.
Definition getUTCDate (d : Date) : option Z := option_map DateFromTime d.

(** [d.setUTCFullYear(y)]: month, day of the month and time of day are kept;
    an invalid date stays invalid only when [y] is, which never happens
    here, but its fields are then those of time 0. *)
Definition setUTCFullYear (d : Date) (y : Z) : Date :=
  let t := match d with Some t => t | None => 0 end in
  TimeClip (MakeDay y (MonthFromTime t) (DateFromTime t) * msPerDay + TimeWithinDay t).

Definition pad (width : nat) (n : Z) : jsstring := padStart width 48%N (decimal n).

(** [d.toISOString()] of a valid date: four digits for the years 0..9999,
    a sign and six digits for the others. *)
Definition isoString (t : Z) : jsstring :=
  let '(y, m, d) := civil_from_days (Day t) in
  let w := TimeWithinDay t in
  let year := if (0 <=? y) && (y <=? 9999) then pad 4 y
              else (if y <? 0 then 45%N else 43%N) :: pad 6 (Z.abs y) in
  year ++ js "-" ++ pad 2 m ++ js "-" ++ pad 2 d ++ js "T"
       ++ pad 2 (w / 3600000) ++ js ":" ++ pad 2 (w / 60000 mod 60) ++ js ":"
       ++ pad 2 (w / 1000 mod 60) ++ js "." ++ pad 3 (w mod 1000) ++ js "Z".

End JsDate.
Import JsDate.

(* ------------------------------------------------------------------ *)
(** * Exceptions *)

(** A computation that may throw; the exception is its message. *)
Definition exn := jsstring.
Definition result (A : Type) : Type := (A + exn)%type.

Abbreviation ok := (@inl _ exn).
Definition throw {A} (msg : string) : result A := inr (js msg).

(** [toISOString] throws a [RangeError] on an invalid date. *)
Definition toISOString (d : Date) : result jsstring :=
  match d with
  | Some t => ok (isoString t)
  | None => throw "Invalid time value"
  end.

(** <<
function toISODate(d: Date) {
  return d.toISOString().slice(0, 10);
}
>> *)
Definition toISODate (d : Date) : result jsstring :=
  match toISOString d with
  | inl s => ok (slice 0 10 s)
  | inr e => inr e
  end.

(* ------------------------------------------------------------------ *)
(** * Text normalisation ([route.ts], lines 63 to 108) *)

Definition unit_of (s : string) : N := hd 0%N (js s).
Definition rng (a b : string) : item := Range (unit_of a) (unit_of b).
Definition lits (s : string) : list item := map Lit (js s).
Definition word (s : string) : regex := lit (js s).

Definition digit : regex := Chars [ClsDigit].
Definition space : regex := Chars [ClsSpace].

(** <<[a-zA-Zéèêëàâôûùîïç]>> *)
Definition month_letter : regex :=
  Chars ([rng "a" "z"; rng "A" "Z"] ++ lits "éèêëàâôûùîïç").

(** <<[A-Za-zÀ-ÖØ-öø-ÿ' -]>> *)
Definition place_letter : regex :=
  Chars ([rng "A" "Z"; rng "a" "z"; rng "À" "Ö"; rng "Ø" "ö"; rng "ø" "ÿ"] ++ lits "' -").

(** <</^\d{4}-\d{2}-\d{2}$/>> *)
Definition re_iso_date : regex :=
  cat [LineStart; times 4 4 digit; word "-"; times 2 2 digit; word "-"; times 2 2 digit; LineEnd].

Definition days_in_month (y m : Z) : Z :=
  (days_from_civil (if m =? 12 then y + 1 else y) (if m =? 12 then 1 else m + 1) 1
   - days_from_civil y m 1)%Z.

(** [new Date(s)].  ECMAScript fixes the reading of the date-only form
    YYYY-MM-DD (midnight UTC of a day that exists); every other string is
    read as the implementation sees fit, which is the parameter
    [parse_impl]. *)
Definition new_Date (parse_impl : jsstring -> Date) (s : jsstring) : Date :=
  let y := parseDigits (slice 0 4 s) in
  let m := parseDigits (slice 5 7 s) in
  let d := parseDigits (slice 8 10 s) in
  if test false re_iso_date s
     && (1 <=? m)%Z && (m <=? 12)%Z && (1 <=? d)%Z && (d <=? days_in_month y m)%Z
  then Some (days_from_civil y m d * msPerDay)%Z
  else parse_impl s.

(** <<
function normalizeDateISO(maybe: string | undefined): string | undefined {
  if (!maybe) return undefined;
  // already ISO
  if (/^\d{4}-\d{2}-\d{2}$/.test(maybe)) return maybe;
  const date = new Date(maybe);
  if (!isNaN(date.getTime())) return toISODate(date);
  return undefined;
}
>> *)
Definition normalizeDateISO (parse_impl : jsstring -> Date) (maybe : option jsstring)
  : option jsstring :=
  match maybe with
  | None => None
  | Some s =>
    if negb (truthy s) then None
    else if test false re_iso_date s then Some s
    else match new_Date parse_impl s with
         | Some t => Some (slice 0 10 (isoString t))
         | None => None
         end
  end.

(** <</\ble\s*\d{1,2}\s*[a-zA-Zéèêëàâôûùîïç]+(?:\s*\d{4})?/gi>> *)
Definition re_date_fragment_year : regex :=
  cat [WordBoundary; word "le"; star space; times 1 2 digit; star space;
       plus month_letter; opt (Cat (star space) (times 4 4 digit))].

(** <</(?:\bà|\ba)\s+([A-Za-zÀ-ÖØ-öø-ÿ' -]+)/i>> *)
Definition re_after_a : regex :=
  cat [Or (Cat WordBoundary (word "à")) (Cat WordBoundary (word "a"));
       plus space; Cap 1 (plus place_letter)].

(** <</^\s*(vacances|rando|plage|mariage|sport)\s+/i>> *)
Definition re_leading_activity : regex :=
  cat [LineStart; star space;
       Cap 1 (alt [word "vacances"; word "rando"; word "plage"; word "mariage"; word "sport"]);
       plus space].

(** <</\s{2,}/g>> and <</[,.]$/g>> *)
Definition re_spaces : regex := at_least 2 space.
Definition re_trailing_punct : regex := Cat (Chars (lits ",.")) LineEnd.

(** <<
function sanitizeLocationString(input?: string): string | undefined {
  if (!input) return undefined;
  let s = String(input).trim();
  s = s.replace(/\ble\s*\d{1,2}\s*[a-zA-Zéèêëàâôûùîïç]+(?:\s*\d{4})?/gi, '').trim();
  const m = s.match(/(?:\bà|\ba)\s+([A-Za-zÀ-ÖØ-öø-ÿ' -]+)/i);
  if (m) s = m[1].trim();
  s = s.replace(/^\s*(vacances|rando|plage|mariage|sport)\s+/i, '').trim();
  s = s.replace(/\s{2,}/g, ' ').replace(/[,.]$/g, '').trim();
  return s || undefined;
}
>> *)
Definition sanitizeLocationString (input : option jsstring) : option jsstring :=
  match input with
  | None => None
  | Some i =>
    if negb (truthy i) then None
    else
      let s := trim i in
      let s := trim (replace_all true re_date_fragment_year [] s) in
      let s := match search true re_after_a s with
               | Some m => match group 1 m with Some g => trim g | None => s end
               | None => s
               end in
      let s := trim (replace_first true re_leading_activity [] s) in
      let s := trim (replace_all false re_trailing_punct []
                                 (replace_all false re_spaces (js " ") s)) in
      if truthy s then Some s else None
  end.

(** <</[A-ZÀ-Ö][A-Za-zÀ-ÖØ-öø-ÿ' -]+/g>> and <</^20\d{2}$/>> *)
Definition re_capitalised : regex :=
  Cat (Chars [rng "A" "Z"; rng "À" "Ö"]) (plus place_letter).
Definition re_year_20xx : regex :=
  cat [LineStart; word "20"; times 2 2 digit; LineEnd].

Definition month_names : list jsstring :=
  map js ["janvier"; "février"; "fevrier"; "mars"; "avril"; "mai"; "juin"; "juillet";
          "août"; "aout"; "septembre"; "octobre"; "novembre"; "décembre"; "decembre"]%string.

Definition stop_words : list jsstring :=
  map js ["vacances"; "le"; "la"; "les"; "à"; "a"; "en"; "au"; "aux"; "de"; "du"; "des"]%string.

Definition has (set : list jsstring) (s : jsstring) : bool := existsb (str_eqb s) set.

(** <<
function extractCandidateLocation(query: string): string | undefined {
  const q = (query || '').trim();
  if (!q) return undefined;
  const tokens = q.match(/[A-ZÀ-Ö][A-Za-zÀ-ÖØ-öø-ÿ' -]+/g) || [];
  for (const t of tokens) {
    const norm = t.trim().toLowerCase();
    if (months.has(norm) || stops.has(norm)) continue;
    if (/^20\d{2}$/.test(norm)) continue;
    return t.trim();
  }
  return undefined;
}
>> *)
Definition extractCandidateLocation (query : jsstring) : option jsstring :=
  let q := trim query in
  if negb (truthy q) then None
  else
    let tokens := match_all false re_capitalised q in
    match
      find (fun t =>
              let norm := toLowerCase (trim t) in
              negb (has month_names norm || has stop_words norm
                    || test false re_year_20xx norm))
           tokens
    with
    | Some t => Some (trim t)
    | None => None
    end.

(* ------------------------------------------------------------------ *)
(** * Numbers and nullable values *)

Open Scope Q_scope.

(** ** Double-precision arithmetic

    A finite double is [m * 2^q] with [|m| < 2^53] and [q >= -1074]; the
    arithmetic of the language computes the exact result of an operation on
    two doubles and rounds it to the nearest double, a tie going to the even
    significand (IEEE 754, binary64, round to nearest even).  The numbers of
    the handler stay far from the largest double, so that overflow is left
    out. *)
Module Double.

(** The nearest integer, a tie going to the even one. *)
Definition rne (t : Q) : Z :=
  let k := Qfloor t in
  match Qcompare (t - inject_Z k) (1 # 2) with
  | Lt => k
  | Gt => (k + 1)%Z
  | Eq => if Z.even k then k else (k + 1)%Z
  end.

(** The binary order of magnitude of a positive number:
    [2 ^ ilog2 x <= x < 2 ^ (ilog2 x + 1)]. *)
Definition ilog2 (x : Q) : Z :=
  let e0 := (Z.log2 (Qnum x) - Z.log2 (Zpos (Qden x)))%Z in
  if Qle_bool (2 ^ e0) x then e0 else (e0 - 1)%Z.

(** The exponent of the spacing of the doubles around a positive number: 53
    significant bits, and the spacing [2^-1074] of the subnormal numbers
    below [2^-1022]. *)
Definition ulp_exp (x : Q) : Z := (Z.max (ilog2 x) (-1022) - 52)%Z.

(** The double nearest to a positive number. *)
Definition nearest (x : Q) : Q :=
  let q := ulp_exp x in
  inject_Z (rne (x / 2 ^ q)) * 2 ^ q.

Definition round (x : Q) : Q :=
  match Qcompare x 0 with
  | Eq => 0
  | Gt => nearest x
  | Lt => - nearest (- x)
  end.

(** The double nearest to [x], as a fraction in lowest terms. *)
Definition fl (x : Q) : Q := Qred (round x).

(** [a + b], [a - b], [a * b] and [a / b] on numbers: the operands are
    doubles (a decimal literal of the source stands for the double nearest to
    it), and the exact result is rounded. *)
Definition add (a b : Q) : Q := fl (fl a + fl b).
Definition sub (a b : Q) : Q := fl (fl a - fl b).
Definition mul (a b : Q) : Q := fl (fl a * fl b).
Definition div (a b : Q) : Q := fl (fl a / fl b).

End Double.

(** [Math.round]: the nearest integer, a half rounded up; the result of
    rounding a double is computed without error. *)
Definition Math_round (x : Q) : Q := inject_Z (Qfloor (x + (1 # 2))).

Definition Math_max (a b : Q) : Q := if Qle_bool a b then b else a.
Definition Math_min (a b : Q) : Q := if Qle_bool a b then a else b.

(** [a > b] and [a >= b] on numbers. *)
Definition gt (a b : Q) : bool := negb (Qle_bool a b).
Definition ge (a b : Q) : bool := Qle_bool b a.

(** [a ?? b]. *)
Definition nullish {A} (a b : option A) : option A :=
  match a with Some x => Some x | None => b end.

(** [a ?? v] with a default that is not nullable. *)
Definition nullish_or {A} (a : option A) (v : A) : A :=
  match a with Some x => x | None => v end.

(** [!s] and [a || b] on strings that may be absent: the empty string is
    falsy like [undefined]. *)
Definition falsy (s : option jsstring) : bool :=
  match s with Some x => negb (truthy x) | None => true end.

Definition or_else (a b : option jsstring) : option jsstring :=
  if falsy a then b else a.

(** [arr.reduce((a, b) => a + (b ?? 0), 0)] *)
Definition sum (l : list (option Q)) : Q :=
  fold_left (fun a b => Double.add a (nullish_or b 0)) l 0.

Definition count (n : nat) : Q := inject_Z (Z.of_nat n).

(** [String(x)] of an integer number, [NaN] when it is absent. *)
Definition String_int (x : option Z) : jsstring :=
  match x with
  | None => js "NaN"
  | Some z => if (z <? 0)%Z then js "-" ++ decimal (- z) else decimal z
  end.

(* ------------------------------------------------------------------ *)
(** * Wind label and precipitation risk ([route.ts], lines 110 to 123) *)

(** <<
function labelWind(ms: number | null) {
  if (ms == null) return 'inconnu';
  if (ms > 10) return 'fort';
  if (ms > 5) return 'modéré';
  return 'faible';
}
>> *)
Definition labelWind (ms : option Q) : jsstring :=
  match ms with
  | None => js "inconnu"
  | Some v =>
    if gt v 10 then js "fort"
    else if gt v 5 then js "modéré"
    else js "faible"
  end.

(** <<
function riskFromPrecipMm(mm: number | null) {
  if (mm == null) return 50;
  const x = Math.max(0, mm);
  const risk = Math.round(100 / (1 + Math.exp(-(x - 3))));
  return Math.min(100, Math.max(0, risk));
}
>> *)
Definition riskFromPrecipMm (Math_exp : Q -> Q) (mm : option Q) : Q :=
  match mm with
  | None => 50
  | Some mm =>
    let x := Math_max 0 mm in
    let risk := Math_round (Double.div 100 (Double.add 1 (Math_exp (- Double.sub x 3)))) in
    Math_min 100 (Math_max 0 risk)
  end.

(* ------------------------------------------------------------------ *)
(** * Upstream replies *)

(** What [fetch] gives: the promise rejects (no reply), or a response with
    its status and the outcome of [res.json()]. *)
Inductive reply (A : Type) :=
| Unreachable
| Response (status : Z) (json : result A).

Arguments Unreachable {A}.
Arguments Response {A} status json.

Definition res_ok (status : Z) : bool := ((200 <=? status) && (status <=? 299))%Z.

Definition fetch_failed {A} : result A := throw "fetch failed".

(* ------------------------------------------------------------------ *)
(** * Forecast source ([route.ts], lines 127 to 181) *)

Record Forecast := {
  tempC : option Q;
  windSpeed : option Q;
  cloud : option Q;
  precipMm : option Q;
  precipProb : option Q
}.

(** The [hourly] object of an Open-Meteo response; a variable the response
    does not carry is [None], an hour without a value is a [None] entry. *)
Record Hourly := {
  time : option (list jsstring);
  temperature_2m : option (list (option Q));
  wind_speed_10m : option (list (option Q));
  cloud_cover : option (list (option Q));
  precipitation : option (list (option Q));
  precipitation_probability : option (list (option Q))
}.

(** [data?.hourly?.x ?? []]. *)
Definition series {A} (h : option Hourly) (x : Hourly -> option (list A)) : list A :=
  match h with
  | Some h => nullish_or (x h) []
  | None => []
  end.

Fixpoint endsWith (suffix s : jsstring) : bool :=
  str_eqb s suffix || match s with [] => false | _ :: t => endsWith suffix t end.

(** [arr.findIndex(p)], [None] for -1. *)
Fixpoint findIndex {A} (p : A -> bool) (l : list A) : option nat :=
  match l with
  | [] => None
  | x :: t => if p x then Some O else option_map S (findIndex p t)
  end.

(** [arr[i] ?? null]. *)
Definition at_index (l : list (option Q)) (i : nat) : option Q :=
  match nth_error l i with
  | Some v => v
  | None => None
  end.

(** <<
  const res = await fetch(url.toString(), ...);
  if (!res.ok) throw new Error('Open-Meteo forecast failed');
  const data = await res.json();
  const time: string[] = data?.hourly?.time ?? [];
  ...
  const prp: number[] | undefined = data?.hourly?.precipitation_probability;
  const noonIdx = time.findIndex((t) => t.endsWith('T12:00'));
  const idx = noonIdx >= 0 ? noonIdx : Math.floor(time.length / 2);
  const precipDaySum = pr.reduce((a, b) => a + (b ?? 0), 0);
  const precipProbAvg = prp && prp.length > 0
    ? Math.round(prp.reduce((a, b) => a + (b ?? 0), 0) / prp.length) : null;
  const cloudAvg = cc.length
    ? Math.round(cc.reduce((a, b) => a + (b ?? 0), 0) / cc.length) : null;
  return { tempC: t2m[idx] ?? null, windSpeed: ws10[idx] ?? null, cloud: cloudAvg,
           precipMm: precipDaySum ?? null, precipProb: precipProbAvg };
>> *)
Definition forecastOfHourly (hourly : option Hourly) : Forecast :=
  let time := series hourly time in
  let t2m := series hourly temperature_2m in
  let ws10 := series hourly wind_speed_10m in
  let cc := series hourly cloud_cover in
  let pr := series hourly precipitation in
  let prp := match hourly with Some h => precipitation_probability h | None => None end in
  let idx := match findIndex (endsWith (js "T12:00")) time with
             | Some noonIdx => noonIdx
             | None => Nat.div (List.length time) 2
             end in
  let precipDaySum := sum pr in
  let precipProbAvg :=
      match prp with
      | Some ((_ :: _) as prp) =>
        Some (Math_round (Double.div (sum prp) (count (List.length prp))))
      | _ => None
      end in
  let cloudAvg :=
      match cc with
      | _ :: _ => Some (Math_round (Double.div (sum cc) (count (List.length cc))))
      | [] => None
      end in
  {| tempC := at_index t2m idx;
     windSpeed := at_index ws10 idx;
     cloud := cloudAvg;
     precipMm := nullish (Some precipDaySum) None;
     precipProb := precipProbAvg |}.

Definition fetchGFSviaOpenMeteo
           (openmeteo : Q -> Q -> jsstring -> reply (option Hourly))
           (lat lon : Q) (dateISO : jsstring) : result Forecast :=
  match openmeteo lat lon dateISO with
  | Unreachable => fetch_failed
  | Response status json =>
    if negb (res_ok status) then throw "Open-Meteo forecast failed"
    else match json with
         | inl data => ok (forecastOfHourly data)
         | inr e => inr e
         end
  end.

(* ------------------------------------------------------------------ *)
(** * Historical climatology ([route.ts], lines 185 to 278) *)

(** What one year's request yields. *)
Record YearSample := {
  p : option Q;     (* precipitation of the day, mm *)
  t : option Q;     (* temperature, degrees Celsius *)
  w : option Q      (* wind speed, m/s *)
}.

Record Climatology := {
  histProb : option Q;
  meanTemp : option Q;
  meanWind : option Q
}.

(** [results.filter(r => r.status === 'fulfilled').map(r => r.value)] *)
Definition fulfilled {A} (results : list (result A)) : list A :=
  flat_map (fun r => match r with inl v => [v] | inr _ => [] end) results.

(** The aggregation both historical fetchers end with:
<<
  const results = await Promise.allSettled(years.map(fetchOne));
  const values = results.filter(...fulfilled...).map((r) => r.value);
  const precipThreshold = 1; // mm
  const rainOccurrences = values.filter((v) => (v.p ?? 0) >= precipThreshold).length;
  const histProb = values.length
    ? Math.round((rainOccurrences / values.length) * 100) : null;
  const meanTemp = values.length
    ? Math.round((values.reduce((a, b) => a + ((b.t ?? 0)), 0) / values.length) * 10) / 10 : null;
  const meanWind = values.length
    ? Math.round((values.reduce((a, b) => a + ((b.w ?? 0)), 0) / values.length) * 10) / 10 : null;
  return { histProb, meanTemp, meanWind };
>> *)
Definition aggregateYears (results : list (result YearSample)) : Climatology :=
  let values := fulfilled results in
  let precipThreshold := 1 in
  let rainOccurrences :=
      List.length (filter (fun v => ge (nullish_or (p v) 0) precipThreshold) values) in
  let n := count (List.length values) in
  match values with
  | [] => {| histProb := None; meanTemp := None; meanWind := None |}
  | _ :: _ =>
    {| histProb := Some (Math_round (Double.mul (Double.div (count rainOccurrences) n) 100));
       meanTemp :=
         Some (Double.div
                 (Math_round (Double.mul (Double.div (sum (map t values)) n) 10)) 10);
       meanWind :=
         Some (Double.div
                 (Math_round (Double.mul (Double.div (sum (map w values)) n) 10)) 10) |}
  end.

(** [Array.from({ length: yearsBack }, (_, i) => year - 1 - i)] *)
Definition yearsBefore (year : option Z) (yearsBack : nat) : list (option Z) :=
  map (fun i => option_map (fun y => (y - 1 - Z.of_nat i)%Z) year) (seq 0 yearsBack).

(** [String(n).padStart(2, '0')] *)
Definition two_digits (n : option Z) : jsstring := padStart 2 48%N (String_int n).

(** A value of a NASA POWER parameter table. *)
Inductive jsonval :=
| JAbsent                 (* undefined or null *)
| JEmpty                  (* the empty string *)
| JNumber (q : Q).

(** [const toNum = (v: any) => (v == null || v === '' ? null : Number(v));] *)
Definition toNum (v : jsonval) : option Q :=
  match v with
  | JAbsent | JEmpty => None
  | JNumber q => Some q
  end.

(** The values a POWER response holds for the requested day in its parameter
    table. *)
Record PowerDay := {
  PRECTOTCORR : jsonval;
  T2M : jsonval;
  WS10M : jsonval
}.

(** The request of one year to NASA POWER:
<<
  const fetchOne = async (y: number) => {
    const ymd = `${y}${month}${day}`; // YYYYMMDD
    ...
    const res = await fetch(url.toString(), ...);
    if (!res.ok) throw new Error(`POWER fetch failed (${res.status})`);
    const d = await res.json();
    ...
    return { p, t, w };
  };
>> *)
Definition fetchOnePOWER (power : Q -> Q -> jsstring -> reply PowerDay)
           (lat lon : Q) (month day : jsstring) (y : option Z) : result YearSample :=
  let ymd := String_int y ++ month ++ day in
  match power lat lon ymd with
  | Unreachable => fetch_failed
  | Response status json =>
    if negb (res_ok status)
    then inr (js "POWER fetch failed (" ++ String_int (Some status) ++ js ")")
    else match json with
         | inl d => ok {| p := toNum (PRECTOTCORR d);
                          t := toNum (T2M d);
                          w := toNum (WS10M d) |}
         | inr e => inr e
         end
  end.

(** The years asked for, with the month and the day of the requests:
<<
  const target = new Date(dateISO);
  const month = String(target.getUTCMonth() + 1).padStart(2, '0');
  const day = String(target.getUTCDate()).padStart(2, '0');
  const year = target.getUTCFullYear();
  const years = Array.from({ length: yearsBack }, (_, i) => year - 1 - i);
>> *)
Definition monthOf (target : Date) : jsstring :=
  two_digits (option_map (Z.add 1) (getUTCMonth target)).
Definition dayOf (target : Date) : jsstring := two_digits (getUTCDate target).
Definition yearsOf (target : Date) (yearsBack : nat) : list (option Z) :=
  yearsBefore (getUTCFullYear target) yearsBack.

Definition fetchHistoricalPOWERForDay
           (parse_impl : jsstring -> Date)
           (power : Q -> Q -> jsstring -> reply PowerDay)
           (lat lon : Q) (dateISO : jsstring) (yearsBack : nat) : result Climatology :=
  let target := new_Date parse_impl dateISO in
  let month := monthOf target in
  let day := dayOf target in
  let years := yearsOf target yearsBack in
  let fetchOne := fetchOnePOWER power lat lon month day in
  ok (aggregateYears (map fetchOne years)).

(** The first entries of the [daily] series of an ERA5 archive response. *)
Record Era5Day := {
  precipitation_sum : option Q;
  temperature_2m_mean : option Q;
  wind_speed_10m_max : option Q
}.

(** The request of one year to the ERA5 archive:
<<
  const fetchOne = async (y: number) => {
    const start = `${y}-${month}-${day}`;
    ...
    if (!res.ok) throw new Error('ERA5 fetch failed');
    const d = await res.json();
    const p = d?.daily?.precipitation_sum?.[0] ?? null;
    const t = d?.daily?.temperature_2m_mean?.[0] ?? null;
    const w = d?.daily?.wind_speed_10m_max?.[0] ?? null;
    return { p, t, w };
  };
>> *)
Definition fetchOneERA5 (era5 : Q -> Q -> jsstring -> reply Era5Day)
           (lat lon : Q) (month day : jsstring) (y : option Z) : result YearSample :=
  let start := String_int y ++ js "-" ++ month ++ js "-" ++ day in
  match era5 lat lon start with
  | Unreachable => fetch_failed
  | Response status json =>
    if negb (res_ok status) then throw "ERA5 fetch failed"
    else match json with
         | inl d => ok {| p := nullish (precipitation_sum d) None;
                          t := nullish (temperature_2m_mean d) None;
                          w := nullish (wind_speed_10m_max d) None |}
         | inr e => inr e
         end
  end.

Definition fetchHistoricalERA5ForDay
           (parse_impl : jsstring -> Date)
           (era5 : Q -> Q -> jsstring -> reply Era5Day)
           (lat lon : Q) (dateISO : jsstring) (yearsBack : nat) : result Climatology :=
  let target := new_Date parse_impl dateISO in
  let month := monthOf target in
  let day := dayOf target in
  let years := yearsOf target yearsBack in
  let fetchOne := fetchOneERA5 era5 lat lon month day in
  ok (aggregateYears (map fetchOne years)).

(* ------------------------------------------------------------------ *)
(** * Parsed intent, AI parser and geocoder ([route.ts], lines 280 to 366) *)

Record Intent := {
  location : option jsstring;
  dateISO : option jsstring;
  activity : option jsstring
}.

(** The object literal [{}]. *)
Definition no_intent : Intent :=
  {| location := None; dateISO := None; activity := None |}.

(** The keys [parseWithOpenRouter] reads of the object the model returned;
    a key is [None] when it is missing or not a string. *)
Record ModelObject := {
  m_location : option jsstring;
  m_lieu : option jsstring;
  m_ville : option jsstring;
  m_dateISO : option jsstring;
  m_date : option jsstring;
  m_activity : option jsstring;
  m_activite : option jsstring
}.

(** [data?.choices?.[0]?.message?.content] of a completion. *)
Inductive Completion :=
| NoContent                        (* the content is not a string *)
| BadContent                       (* [JSON.parse] throws, or the fields of its value cannot be read *)
| Content (obj : ModelObject).

(** [(typeof a === 'string' && a) || b]: the first non-empty string. *)
Definition first_string (a b : option jsstring) : option jsstring := or_else a b.

Definition today_line (query today : jsstring) : jsstring :=
  js "Texte: " ++ query ++ [10%N] ++ js "Date actuelle: " ++ today.

Definition parseWithOpenRouter
           (parse_impl : jsstring -> Date) (now : Z)
           (OPENROUTER_API_KEY : option jsstring)
           (openrouter : jsstring -> reply Completion)
           (query : jsstring) : result Intent :=
  if falsy OPENROUTER_API_KEY then ok no_intent
  else
    match openrouter (today_line query (slice 0 10 (isoString now))) with
    | Unreachable => fetch_failed
    | Response status json =>
      if negb (res_ok status) then throw "OpenRouter parse failed"
      else match json with
           | inr e => inr e
           | inl NoContent => ok no_intent
           | inl BadContent => ok no_intent
           | inl (Content obj) =>
             let rawLocation :=
                 first_string (m_location obj) (first_string (m_lieu obj) (first_string (m_ville obj) None)) in
             let rawDate := first_string (m_dateISO obj) (first_string (m_date obj) None) in
             let rawActivity := first_string (m_activity obj) (first_string (m_activite obj) None) in
             ok {| location := sanitizeLocationString rawLocation;
                   dateISO := normalizeDateISO parse_impl rawDate;
                   activity := nullish rawActivity None |}
           end
    end.

Record Coord := { c_lat : Q; c_lon : Q }.

(** The search results of Nominatim, [None] when the reply is not an array. *)
Definition geocodeNominatim
           (nominatim : jsstring -> reply (option (list Coord)))
           (place : jsstring) : result Coord :=
  match nominatim place with
  | Unreachable => fetch_failed
  | Response status json =>
    if negb (res_ok status) then throw "Geocoding failed"
    else match json with
         | inr e => inr e
         | inl (Some (first :: _)) => ok first
         | inl _ => throw "Lieu introuvable"
         end
  end.

(* ------------------------------------------------------------------ *)
(** * Heuristic parser ([route.ts], lines 368 to 399) *)

(** <</(vacances|rando|plage|mariage|sport|extérieur|exterieur)/i>> *)
Definition re_activity : regex :=
  Cap 1 (alt [word "vacances"; word "rando"; word "plage"; word "mariage"; word "sport";
              word "extérieur"; word "exterieur"]).

(** <</(?:\bà|\ba)\s+([A-Za-zÀ-ÖØ-öø-ÿ' -]+?)(?:\s+le\b|$)/i>> *)
Definition re_location : regex :=
  cat [Or (Cat WordBoundary (word "à")) (Cat WordBoundary (word "a"));
       plus space; Cap 1 (lazy_plus place_letter);
       Or (cat [plus space; word "le"; WordBoundary]) LineEnd].

(** <</\ble\s*(\d{1,2})\s*([a-zA-Zéèêëàâôûùîïç]+)\s*(\d{4})?/i>> *)
Definition re_date : regex :=
  cat [WordBoundary; word "le"; star space; Cap 1 (times 1 2 digit); star space;
       Cap 2 (plus month_letter); star space; opt (Cap 3 (times 4 4 digit))].

(** What reading a key of an object literal gives: its own value, a member
    inherited from [Object.prototype], or [undefined]. *)
Inductive property :=
| Own (n : Z)
| Inherited
| Undefined.

Definition months : list (jsstring * Z) :=
  [(js "janvier", 1); (js "fevrier", 2); (js "février", 2); (js "mars", 3); (js "avril", 4);
   (js "mai", 5); (js "juin", 6); (js "juillet", 7); (js "aout", 8); (js "août", 8);
   (js "septembre", 9); (js "octobre", 10); (js "novembre", 11); (js "decembre", 12);
   (js "décembre", 12)]%Z.

(** [months[monthName]] for a name made of lower-case letters: the only
    member of [Object.prototype] with such a name is [constructor]. *)
Definition months_get (name : jsstring) : property :=
  match find (fun kv => str_eqb (fst kv) name) months with
  | Some kv => Own (snd kv)
  | None => if str_eqb name (js "constructor") then Inherited else Undefined
  end.

(** The captures of the date pattern: day, month name and year. *)
Definition dateMatch (q : jsstring) : option (jsstring * jsstring * option jsstring) :=
  match search true re_date q with
  | Some m =>
    match group 1 m, group 2 m with
    | Some d, Some mo => Some (d, mo, group 3 m)
    | _, _ => None
    end
  | None => None
  end.

(** <<
    const today = new Date();
    const day = parseInt(dateMatch[1], 10);
    const monthName = dateMatch[2].toLowerCase();
    const month = months[monthName];
    const yearGiven = dateMatch[3] ? parseInt(dateMatch[3], 10) : undefined;
    if (month && !isNaN(day)) {
      const baseYear = yearGiven && yearGiven > 1900 ? yearGiven : today.getUTCFullYear();
      const target = new Date(Date.UTC(baseYear, month - 1, day));
      const todayStart = new Date(Date.UTC(today.getUTCFullYear(), today.getUTCMonth(), today.getUTCDate()));
      // N'incrémente l'année que si aucune année explicite n'a été fournie
      if (!yearGiven && target < todayStart) target.setUTCFullYear(target.getUTCFullYear() + 1);
      dateISO = toISODate(target);
    }
>> *)
Definition dateOfMatch (today : Z) (m : jsstring * jsstring * option jsstring)
  : result (option jsstring) :=
  let '(d, mo, yr) := m in
  let day := parseDigits d in
  let monthName := toLowerCase mo in
  let month := months_get monthName in
  let yearGiven := option_map parseDigits yr in
  (* [yearGiven] as a condition: a number is truthy unless it is 0 *)
  let year_truthy := match yearGiven with Some y => negb (y =? 0)%Z | None => false end in
  let baseYear := if year_truthy && (1900 <? nullish_or yearGiven 0)%Z
                  then nullish_or yearGiven 0%Z else YearFromTime today in
  let todayStart := Date_UTC (YearFromTime today) (MonthFromTime today) (DateFromTime today) in
  let roll (target : Date) : Date :=
      match target, todayStart with
      | Some tv, Some ts =>
        if negb year_truthy && (tv <? ts)%Z
        then setUTCFullYear target (YearFromTime tv + 1)
        else target
      | _, _ => target
      end in
  match month with
  | Undefined => ok None
  | Own mth =>
    match toISODate (roll (Date_UTC baseYear (mth - 1) day)) with
    | inl s => ok (Some s)
    | inr e => inr e
    end
  | Inherited =>
    (* [month - 1] is NaN and so is the date *)
    match toISODate None with
    | inl s => ok (Some s)
    | inr e => inr e
    end
  end.

(** <<
  return {
    location: locationMatch?.[1]?.trim(),
    dateISO,
    activity: activityMatch?.[1]?.toLowerCase(),
  };
>> *)
Definition parseFrenchFallback (today : Z) (query : jsstring) : result Intent :=
  let q := query in
  let activityMatch := search true re_activity q in
  let locationMatch := search true re_location q in
  let date :=
      match dateMatch q with
      | Some m => dateOfMatch today m
      | None => ok None
      end in
  match date with
  | inr e => inr e
  | inl dateISO =>
    ok {| location := match locationMatch with
                      | Some m => option_map trim (group 1 m)
                      | None => None
                      end;
          dateISO := dateISO;
          activity := match activityMatch with
                      | Some m => option_map toLowerCase (group 1 m)
                      | None => None
                      end |}
  end.

(* ------------------------------------------------------------------ *)
(** * The handler's effects *)

(** A call of the handler to one of its collaborators. *)
Inductive call :=
| CallParser (query : jsstring)                       (* the AI parser *)
| CallGeocoder (place : jsstring)
| CallForecast (lat lon : Q) (dateISO : jsstring)
| CallHistorical (lat lon : Q) (dateISO : jsstring).

(** A step of the handler: the calls it made, in order, and its value or the
    exception it threw. *)
Definition io (A : Type) : Type := (list call * result A)%type.

Definition ret {A} (a : A) : io A := ([], inl a).

Definition bind {A B} (m : io A) (f : A -> io B) : io B :=
  match m with
  | (l, inl a) => let (l', r) := f a in (l ++ l', r)
  | (l, inr e) => (l, inr e)
  end.

Notation "x <- m ;; k" := (bind m (fun x => k))
  (at level 61, m at next level, right associativity).

(** A computation without calls. *)
Definition lift {A} (r : result A) : io A := ([], r).

(** [await collaborator(...)]. *)
Definition invoke {A} (c : call) (r : result A) : io A := ([c], r).

(** [try { m } catch { h }]. *)
Definition catch {A} (m : io A) (h : exn -> io A) : io A :=
  match m with
  | (l, inl a) => (l, inl a)
  | (l, inr e) => let (l', r) := h e in (l ++ l', r)
  end.

(** One entry of [Promise.allSettled]: its outcome, never an exception. *)
Definition settled {A} (m : io A) : io (result A) := (fst m, inl (snd m)).

Definition calls {A} (m : io A) : list call := fst m.

(* ------------------------------------------------------------------ *)
(** * Request, response and configuration *)

Record Body := {
  body_query : option jsstring;
  body_lat : option Q;
  body_lon : option Q;
  body_date : option jsstring;
  body_activity : option jsstring
}.

Record Prediction := {
  rainRisk : Q;
  wind : jsstring;
  temp : option Q;
  source : jsstring;
  date : jsstring
}.

Inductive payload :=
| PredictionBody (r : Prediction)
| ErrorBody (error : jsstring)
| IncompleteBody (error : jsstring)
                 (has_location has_dateISO : bool) (details_activity : option jsstring).

(** [NextResponse.json(payload, { status })]. *)
Record HttpResponse := { status : Z; json : payload }.

(** What the handler reads of the process and of the JavaScript runtime. *)
Record Runtime := {
  Math_exp : Q -> Q;                       (* [Math.exp] *)
  Date_parse : jsstring -> Date;           (* [new Date(s)] outside the ISO date form *)
  clock : Z;                               (* the time of the request *)
  PARSING_STRICT : option jsstring         (* [process.env.PARSING_STRICT] *)
}.

(** The collaborators of the handler. *)
Record Services := {
  svc_parse : jsstring -> result Intent;
  svc_geocode : jsstring -> result Coord;
  svc_forecast : Q -> Q -> jsstring -> result Forecast;
  svc_historical : Q -> Q -> jsstring -> nat -> result Climatology
}.

(* ------------------------------------------------------------------ *)
(** * Aggregation ([route.ts], lines 517 to 551) *)

(** <</vacances|extérieur|rando|plage/i>> *)
Definition re_outdoor : regex :=
  alt [word "vacances"; word "extérieur"; word "rando"; word "plage"].

(** <<
    let rainRisk: number | null = null;
    if (forecast?.precipProb != null) {
      const fProb = forecast.precipProb;
      const hProb = hist?.histProb ?? fProb;
      rainRisk = Math.round(0.7 * fProb + 0.3 * hProb);
    } else if (forecast?.precipMm != null) {
      const fProb = riskFromPrecipMm(forecast.precipMm);
      const hProb = hist?.histProb ?? fProb;
      rainRisk = Math.round(0.7 * fProb + 0.3 * hProb);
    } else if (hist?.histProb != null) {
      rainRisk = hist.histProb;
    } else {
      rainRisk = 50;
    }
    if (activity && /vacances|extérieur|rando|plage/i.test(activity)) {
      rainRisk = Math.min(100, Math.round((rainRisk ?? 50) * 1.15));
    }
>> *)
Definition field {R A} (r : option R) (x : R -> option A) : option A :=
  match r with Some v => x v | None => None end.

Definition blendedRisk (exp : Q -> Q) (forecast : option Forecast) (hist : option Climatology)
  : option Q :=
  match field forecast precipProb with
  | Some fProb =>
    let hProb := nullish_or (field hist histProb) fProb in
    Some (Math_round (Double.add (Double.mul (7 # 10) fProb) (Double.mul (3 # 10) hProb)))
  | None =>
    match field forecast precipMm with
    | Some mm =>
      let fProb := riskFromPrecipMm exp (Some mm) in
      let hProb := nullish_or (field hist histProb) fProb in
      Some (Math_round (Double.add (Double.mul (7 # 10) fProb) (Double.mul (3 # 10) hProb)))
    | None =>
      match field hist histProb with
      | Some h => Some h
      | None => Some 50
      end
    end
  end.

Definition is_outdoor (activity : option jsstring) : bool :=
  negb (falsy activity) && test true re_outdoor (nullish_or activity []).

Definition rainRiskOf (exp : Q -> Q) (forecast : option Forecast) (hist : option Climatology)
           (activity : option jsstring) : option Q :=
  let rainRisk := blendedRisk exp forecast hist in
  if is_outdoor activity
  then Some (Math_min 100 (Math_round (Double.mul (nullish_or rainRisk 50) (115 # 100))))
  else rainRisk.

(** <<
    let tempC = forecast?.tempC ?? hist?.meanTemp ?? null;
    let windSpeed = forecast?.windSpeed ?? hist?.meanWind ?? null;
    ...
    const wind = labelWind(windSpeed);
    const response = {
      rainRisk: rainRisk ?? 50,
      wind,
      temp: tempC != null ? Math.round(tempC * 10) / 10 : null,
      source: isFuture && within16d ? 'GFS+ERA5' : 'ERA5',
      date: dateISO,
    };
>> *)
Definition resolvedWind (forecast : option Forecast) (hist : option Climatology) : option Q :=
  nullish (field forecast windSpeed) (nullish (field hist meanWind) None).

Definition resolvedTemp (forecast : option Forecast) (hist : option Climatology) : option Q :=
  nullish (field forecast tempC) (nullish (field hist meanTemp) None).

Definition combine (exp : Q -> Q) (forecast : option Forecast) (hist : option Climatology)
           (activity : option jsstring) (near : bool) (dateISO : jsstring) : Prediction :=
  let tempC := resolvedTemp forecast hist in
  let windSpeed := resolvedWind forecast hist in
  let rainRisk := rainRiskOf exp forecast hist activity in
  let wind := labelWind windSpeed in
  {| rainRisk := nullish_or rainRisk 50;
     wind := wind;
     temp := option_map (fun v => Double.div (Math_round (Double.mul v 10)) 10) tempC;
     source := if near then js "GFS+ERA5" else js "ERA5";
     date := dateISO |}.

(* ------------------------------------------------------------------ *)
(** * The handler ([route.ts], lines 401 to 557) *)

Definition respond (status : Z) (p : payload) : HttpResponse :=
  {| status := status; json := p |}.

(** A part of the handler either returns the response or goes on. *)
Inductive step (A : Type) :=
| Return (r : HttpResponse)
| Continue (a : A).

Arguments Return {A} r.
Arguments Continue {A} a.

(** The variables [location], [date] and [activity] of the handler. *)
Record Fields := {
  f_location : option jsstring;
  f_date : option jsstring;
  f_activity : option jsstring
}.

(** [query && typeof query === 'string' && query.trim().length > 0] *)
Definition has_text (query : option jsstring) : bool :=
  match query with
  | Some q => truthy q && (0 <? List.length (trim q))%nat
  | None => false
  end.

(** [process.env.PARSING_STRICT === 'true'] *)
Definition strict_mode (rt : Runtime) : bool :=
  match PARSING_STRICT rt with
  | Some v => str_eqb v (js "true")
  | None => false
  end.

(** Partie 1, lines 414 to 438:
<<
    let location: string | undefined;
    if (query && typeof query === 'string' && query.trim().length > 0) {
      const parsed = await parseWithOpenRouter(query).catch(() => ({}));
      location = (parsed as any).location ?? location;
      activity = (parsed as any).activity ?? activity;
      date = (parsed as any).dateISO ?? date;
      const strict = process.env.PARSING_STRICT === 'true';
      if (strict && (!location || !date)) {
        return NextResponse.json({
          error: "Extraction par le modèle incomplète: 'location' et/ou 'dateISO' manquent",
          details: { location: !!location, dateISO: !!date, activity: activity ?? null },
        }, { status: 422 });
      }
      if (!location || !date) {
        const fb = parseFrenchFallback(query);
        location = location || fb.location;
        date = date || fb.dateISO;
        activity = activity || fb.activity;
      }
    }
>> *)
Definition resolveIntent (rt : Runtime) (svc : Services) (body : Body) : io (step Fields) :=
  if has_text (body_query body) then
    let query := nullish_or (body_query body) [] in
    parsed <- catch (invoke (CallParser query) (svc_parse svc query))
                    (fun _ => ret no_intent) ;;
    let loc := nullish (location parsed) None in
    let act := nullish (activity parsed) (body_activity body) in
    let dat := nullish (dateISO parsed) (body_date body) in
    let strict := strict_mode rt in
    if strict && (falsy loc || falsy dat) then
      ret (Return (respond 422
             (IncompleteBody
                (js "Extraction par le modèle incomplète: 'location' et/ou 'dateISO' manquent")
                (negb (falsy loc)) (negb (falsy dat)) (nullish act None))))
    else if falsy loc || falsy dat then
      fb <- lift (parseFrenchFallback (clock rt) query) ;;
      ret (Continue {| f_location := or_else loc (location fb);
                       f_date := or_else dat (dateISO fb);
                       f_activity := or_else act (activity fb) |})
    else ret (Continue {| f_location := loc; f_date := dat; f_activity := act |})
  else
    ret (Continue {| f_location := None;
                     f_date := body_date body;
                     f_activity := body_activity body |}).

(** Lines 443 to 447:
<<
    if (!date) {
      const d = new Date(Date.now() + 7 * 24 * 60 * 60 * 1000);
      date = toISODate(d);
    }
>> *)
Definition defaultDate (rt : Runtime) (dat : option jsstring) : result jsstring :=
  if falsy dat
  then toISODate (TimeClip (clock rt + 7 * 24 * 60 * 60 * 1000)%Z)
  else ok (nullish_or dat []).

(** The patterns that strip the raw query, lines 468 to 474. *)
Definition re_date_fragment : regex :=
  cat [WordBoundary; word "le"; star space; times 1 2 digit; star space; plus month_letter].
Definition re_activity_word : regex :=
  cat [WordBoundary;
       Cap 1 (alt [word "vacances"; word "rando"; word "plage"; word "mariage"; word "sport";
                   word "extérieur"; word "exterieur"]);
       WordBoundary].
Definition re_a_grave : regex := cat [WordBoundary; word "à"; WordBoundary].
Definition re_year_word : regex := cat [WordBoundary; word "20"; times 2 2 digit; WordBoundary].
Definition re_number_word : regex := cat [WordBoundary; times 1 4 digit; WordBoundary].

Definition cleanedQuery (query : jsstring) : jsstring :=
  trim (replace_all false re_number_word []
       (replace_all false re_year_word []
       (replace_all true re_a_grave []
       (replace_all true re_activity_word []
       (replace_all true re_date_fragment [] query))))).

(** The variables [lat] and [lon]. *)
Definition coords := (option Q * option Q)%type.

(** [lat == null || lon == null] *)
Definition missing (c : coords) : bool :=
  match c with
  | (Some _, Some _) => false
  | _ => true
  end.

Definition set_coords (pt : Coord) : coords := (Some (c_lat pt), Some (c_lon pt)).

Definition geocode (svc : Services) (place : jsstring) : io Coord :=
  invoke (CallGeocoder place) (svc_geocode svc place).

(** [try { const pt = await geocodeNominatim(place); lat = pt.lat; lon = pt.lon; } catch {}] *)
Definition tryGeocode (svc : Services) (place : jsstring) (c : coords) : io coords :=
  catch (pt <- geocode svc place ;; ret (set_coords pt)) (fun _ => ret c).

(** Lines 449 to 483:
<<
    if ((lat == null || lon == null) && location) {
      const pt = await geocodeNominatim(location);
      lat = pt.lat;
      lon = pt.lon;
    }
    if ((lat == null || lon == null) && query) {
      const candidate = extractCandidateLocation(query);
      if (candidate) {
        try { ...geocodeNominatim(candidate)... } catch {}
      }
      const cleaned = query.replace(...)...trim();
      if (cleaned) {
        try { ...geocodeNominatim(cleaned)... } catch {}
      }
    }
>> *)
Definition resolveCoordinates (svc : Services) (body : Body) (loc : option jsstring)
  : io coords :=
  let c : coords := (body_lat body, body_lon body) in
  c <- (if missing c && negb (falsy loc)
        then pt <- geocode svc (nullish_or loc []) ;; ret (set_coords pt)
        else ret c) ;;
  if missing c && negb (falsy (body_query body)) then
    let query := nullish_or (body_query body) [] in
    let candidate := extractCandidateLocation query in
    c <- (if negb (falsy candidate)
          then tryGeocode svc (nullish_or candidate []) c
          else ret c) ;;
    let cleaned := cleanedQuery query in
    if truthy cleaned then tryGeocode svc cleaned c else ret c
  else ret c.

(** Partie 2 and 3, lines 489 to 515:
<<
    const now = new Date();
    const target = new Date(date);
    const dateISO = toISODate(target);
    const daysAhead = Math.floor((target.getTime() - now.getTime()) / (1000 * 60 * 60 * 24));
    const isFuture = target > now;
    const within16d = daysAhead <= 16; // Horizon de GFS
    ...
    if (isFuture && within16d) {
      const [f, h] = await Promise.allSettled([
        fetchGFSviaOpenMeteo(lat, lon, dateISO),
        fetchHistoricalPOWERForDay(lat, lon, dateISO, 10),
      ]);
      if (f.status === 'fulfilled') forecast = f.value; else forecast = null;
      if (h.status === 'fulfilled') hist = h.value; else hist = null;
    } else {
      hist = await fetchHistoricalPOWERForDay(lat, lon, dateISO, 10);
    }
>>
    The quotient of the two time values is taken in exact arithmetic: the
    double it stands for lies on the same side of 17 (proved below, with
    the properties of the horizon). *)
Definition daysAhead (target now : Z) : Z := ((target - now) / (1000 * 60 * 60 * 24))%Z.
Definition isFuture (target now : Z) : bool := (now <? target)%Z.
Definition within16d (target now : Z) : bool := (daysAhead target now <=? 16)%Z.

Definition of_result {A} (r : result A) : option A :=
  match r with inl v => Some v | inr _ => None end.

Definition dispatch (svc : Services) (near : bool) (lat lon : Q) (dateISO : jsstring)
  : io (option Forecast * option Climatology) :=
  if near then
    f <- settled (invoke (CallForecast lat lon dateISO) (svc_forecast svc lat lon dateISO)) ;;
    h <- settled (invoke (CallHistorical lat lon dateISO) (svc_historical svc lat lon dateISO 10)) ;;
    ret (of_result f, of_result h)
  else
    h <- invoke (CallHistorical lat lon dateISO) (svc_historical svc lat lon dateISO 10) ;;
    ret (None, Some h).

(** What the handler knows when it reaches Partie 2: the activity, the
    coordinates, the target date and its ISO rendering. *)
Record Resolved := {
  r_activity : option jsstring;
  r_lat : Q;
  r_lon : Q;
  r_target : Date;
  r_dateISO : jsstring
}.

(** Lines 403 to 492: intent, default date, coordinates, target date. *)
Definition prepare (rt : Runtime) (svc : Services) (body : Body) : io (step Resolved) :=
  s <- resolveIntent rt svc body ;;
  match s with
  | Return r => ret (Return r)
  | Continue fields =>
    dat <- lift (defaultDate rt (f_date fields)) ;;
    c <- resolveCoordinates svc body (f_location fields) ;;
    match c with
    | (Some lat, Some lon) =>
      let target := new_Date (Date_parse rt) dat in
      dateISO <- lift (toISODate target) ;;
      ret (Continue {| r_activity := f_activity fields;
                       r_lat := lat; r_lon := lon;
                       r_target := target; r_dateISO := dateISO |})
    | _ =>
      (* typeof lat !== 'number' || typeof lon !== 'number' *)
      ret (Return (respond 400 (ErrorBody (js "Missing coordinates or resolvable location"))))
    end
  end.

(** [isFuture && within16d] *)
Definition nearFuture (rt : Runtime) (target : Date) : bool :=
  match target with
  | Some tv => isFuture tv (clock rt) && within16d tv (clock rt)
  | None => false
  end.

(** The body of the [try] block. *)
Definition handle (rt : Runtime) (svc : Services) (body : Body) : io HttpResponse :=
  s <- prepare rt svc body ;;
  match s with
  | Return r => ret r
  | Continue r =>
    let near := nearFuture rt (r_target r) in
    fh <- dispatch svc near (r_lat r) (r_lon r) (r_dateISO r) ;;
    ret (respond 200
           (PredictionBody
              (combine (Math_exp rt) (fst fh) (snd fh) (r_activity r) near (r_dateISO r))))
  end.

(** <<
export async function POST(request: Request) {
  try { ... }
  catch (e: any) {
    return NextResponse.json({ error: e?.message ?? 'Internal error' }, { status: 500 });
  }
}
>>
    The handler over any collaborators: the calls it makes and its response. *)
Definition POST_with (rt : Runtime) (svc : Services) (body : Body) : list call * HttpResponse :=
  match handle rt svc body with
  | (l, inl r) => (l, r)
  | (l, inr e) => (l, respond 500 (ErrorBody e))
  end.

(** The upstream services the collaborators of the source talk to. *)
Record Upstream := {
  OPENROUTER_API_KEY : option jsstring;
  openrouter : jsstring -> reply Completion;
  nominatim : jsstring -> reply (option (list Coord));
  openmeteo : Q -> Q -> jsstring -> reply (option Hourly);
  power : Q -> Q -> jsstring -> reply PowerDay
}.

Definition services (rt : Runtime) (up : Upstream) : Services :=
  {| svc_parse := parseWithOpenRouter (Date_parse rt) (clock rt)
                                      (OPENROUTER_API_KEY up) (openrouter up);
     svc_geocode := geocodeNominatim (nominatim up);
     svc_forecast := fetchGFSviaOpenMeteo (openmeteo up);
     svc_historical := fetchHistoricalPOWERForDay (Date_parse rt) (power up) |}.

(** The handler of the source, with the collaborators it is written with. *)
Definition POST (rt : Runtime) (up : Upstream) (body : Body) : list call * HttpResponse :=
  POST_with rt (services rt up) body.

(* ------------------------------------------------------------------ *)
(** * Properties *)

(** ** The regular expressions *)

(** ["a12b".replace(/\d*/g, "-")] is ["-a--b-"]: empty matches count, and the
    scan moves on after each. *)
Example replace_empty_matches :
  replace_all false (star digit) (js "-") (js "a12b") = js "-a--b-".
Proof. vm_compute. reflexivity. Qed.

(** An alternation followed by more pattern, on ["abcd"]: the first
    alternative that lets the rest match wins, not the longest. *)
Example alternation_backtracks :
  option_map (fun m => (matched m, group 1 m, group 2 m, group 3 m))
             (search false (cat [Cap 1 (Or (word "a") (word "ab"));
                                 Cap 2 (Or (word "c") (word "bcd"));
                                 Cap 3 (star (word "d"))])
                     (js "abcd"))
  = Some (js "abcd", Some (js "a"), Some (js "bcd"), Some []).
Proof. vm_compute. reflexivity. Qed.

(** A repeated group with optional parts, on ["zaacbbbcac"] (the example of
    the ECMAScript specification): the captures of a repeated group are those
    of its last round. *)
Example captures_of_the_last_round :
  option_map (fun m => (matched m, group 1 m, group 2 m, group 3 m, group 4 m, group 5 m))
             (search false (cat [Cap 1 (word "z");
                                 star (Cap 2 (cat [opt (Cap 3 (plus (word "a")));
                                                   opt (Cap 4 (plus (word "b")));
                                                   Cap 5 (word "c")]))])
                     (js "zaacbbbcac"))
  = Some (js "zaacbbbcac", Some (js "z"), Some (js "ac"), Some (js "a"), None, Some (js "c")).
Proof. vm_compute. reflexivity. Qed.

(** A lazy quantifier stops at the first place where the rest matches. *)
Example lazy_stops_early :
  option_map (group 1)
             (search false (cat [Cap 1 (lazy_plus place_letter); Or (word " le") LineEnd])
                     (js "Paris le Nord le"))
  = Some (Some (js "Paris")).
Proof. vm_compute. reflexivity. Qed.

(** The ignore-case flag compares upper-case units, accents included, and
    [\b] knows ASCII word characters only. *)
Example ignore_case_and_boundaries :
  test true (word "été") (js "ÉTÉ") = true
  /\ test false (word "été") (js "ÉTÉ") = false
  /\ test true (Cat WordBoundary (word "à")) (js "va à Paris") = false
  /\ test true (Cat WordBoundary (word "a")) (js "va a Paris") = true
  /\ match_all false (plus digit) (js "le 10 octobre 2025") = [js "10"; js "2025"].
Proof. vm_compute. repeat split. Qed.

(** ** The handler's monad *)

Lemma bind_ret : forall A B (a : A) (f : A -> io B), bind (ret a) f = f a.
Proof.
  intros. unfold bind, ret. destruct (f a) as [l r]. reflexivity.
Qed.

Lemma bind_lift_ok : forall A B (a : A) (f : A -> io B), bind (lift (ok a)) f = f a.
Proof.
  intros. unfold bind, lift. destruct (f a) as [l r]. reflexivity.
Qed.

Lemma bind_lift_throw : forall A B (e : exn) (f : A -> io B),
    bind (lift (inr e)) f = ([], inr e).
Proof. reflexivity. Qed.

Lemma bind_invoke_ok : forall A B c (a : A) (f : A -> io B),
    bind (invoke c (inl a)) f = (c :: fst (f a), snd (f a)).
Proof.
  intros. unfold bind, invoke. destruct (f a) as [l r]. reflexivity.
Qed.

Lemma bind_invoke_throw : forall A B c (e : exn) (f : A -> io B),
    bind (invoke c (inr e)) f = ([c], inr e).
Proof. reflexivity. Qed.

(** The intent the handler goes on with after [parseWithOpenRouter(query).catch(() => ({}))]. *)
Definition absorbed (r : result Intent) : Intent :=
  match r with
  | inl i => i
  | inr _ => no_intent
  end.

Lemma catch_parser : forall svc query,
    catch (invoke (CallParser query) (svc_parse svc query)) (fun _ => ret no_intent)
    = ([CallParser query], inl (absorbed (svc_parse svc query))).
Proof.
  intros. unfold catch, invoke. destruct (svc_parse svc query); reflexivity.
Qed.

(** The variables [location], [date] and [activity] after lines 418 to 421:
    the parser's value, else the request's own. *)
Definition afterParser (svc : Services) (body : Body) : Fields :=
  let parsed := absorbed (svc_parse svc (nullish_or (body_query body) [])) in
  {| f_location := nullish (location parsed) None;
     f_date := nullish (dateISO parsed) (body_date body);
     f_activity := nullish (activity parsed) (body_activity body) |}.

Definition incomplete (f : Fields) : bool := falsy (f_location f) || falsy (f_date f).

(** What lines 432 to 437 make of the fields with the heuristic parser's answer. *)
Definition filled (f : Fields) (fb : Intent) : Fields :=
  {| f_location := or_else (f_location f) (location fb);
     f_date := or_else (f_date f) (dateISO fb);
     f_activity := or_else (f_activity f) (activity fb) |}.

Definition msg_incomplete : jsstring :=
  js "Extraction par le modèle incomplète: 'location' et/ou 'dateISO' manquent".

Lemma resolveIntent_text : forall rt svc body,
    has_text (body_query body) = true ->
    resolveIntent rt svc body =
    let query := nullish_or (body_query body) [] in
    let f := afterParser svc body in
    if strict_mode rt && incomplete f then
      ([CallParser query],
       inl (Return (respond 422 (IncompleteBody msg_incomplete
                                   (negb (falsy (f_location f))) (negb (falsy (f_date f)))
                                   (f_activity f)))))
    else if incomplete f then
      match parseFrenchFallback (clock rt) query with
      | inl fb => ([CallParser query], inl (Continue (filled f fb)))
      | inr e => ([CallParser query], inr e)
      end
    else ([CallParser query], inl (Continue f)).
Proof.
  intros rt svc body Htext. unfold resolveIntent. rewrite Htext.
  rewrite catch_parser. cbv zeta.
  unfold afterParser, incomplete; cbn [f_location f_date f_activity].
  set (parsed := absorbed _).
  unfold bind at 1.
  destruct (strict_mode rt && _) eqn:Hstrict.
  - unfold ret. cbn. destruct (activity parsed), (body_activity body); reflexivity.
  - destruct (falsy _ || falsy _) eqn:Hinc.
    + destruct (parseFrenchFallback (clock rt) _) as [fb | e]; reflexivity.
    + unfold ret. cbn. destruct (location parsed); reflexivity.
Qed.

Lemma resolveIntent_no_text : forall rt svc body,
    has_text (body_query body) = false ->
    resolveIntent rt svc body =
    ret (Continue {| f_location := None;
                     f_date := body_date body;
                     f_activity := body_activity body |}).
Proof.
  intros rt svc body Htext. unfold resolveIntent. rewrite Htext. reflexivity.
Qed.

(** ** C5: strict mode *)

(** C5.  A request with a non-blank query, in strict mode, whose location or
    date is still absent once the AI parser has answered (a date the request
    carries itself counts as present), is answered 422 with the details
    saying which of the two were obtained; the only call made is the one to
    the AI parser, so no geocoding and no weather fetch takes place, and the
    fields are those the parser left: the heuristic parser adds nothing. *)
Theorem strict_mode_halts : forall rt svc body,
    has_text (body_query body) = true ->
    strict_mode rt = true ->
    incomplete (afterParser svc body) = true ->
    POST_with rt svc body =
    ([CallParser (nullish_or (body_query body) [])],
     respond 422
       (IncompleteBody msg_incomplete
          (negb (falsy (f_location (afterParser svc body))))
          (negb (falsy (f_date (afterParser svc body))))
          (f_activity (afterParser svc body)))).
Proof.
  intros rt svc body Htext Hstrict Hinc.
  unfold POST_with, handle, prepare.
  rewrite (resolveIntent_text rt svc body Htext). cbv zeta.
  rewrite Hstrict, Hinc. reflexivity.
Qed.

(** ** C4: which sources are consulted *)

Lemma bind_ok : forall A B l (a : A) (f : A -> io B),
    bind (l, inl a) f = (l ++ fst (f a), snd (f a)).
Proof.
  intros. unfold bind. destruct (f a) as [l' r]. reflexivity.
Qed.

Lemma bind_throw : forall A B l (e : exn) (f : A -> io B),
    bind (l, @inr A exn e) f = (l, inr e).
Proof. reflexivity. Qed.

Lemma dispatch_near : forall svc lat lon d,
    dispatch svc true lat lon d =
    ([CallForecast lat lon d; CallHistorical lat lon d],
     inl (of_result (svc_forecast svc lat lon d), of_result (svc_historical svc lat lon d 10))).
Proof.
  intros. unfold dispatch, settled, invoke. cbn [fst snd].
  rewrite bind_ok. cbn [fst snd]. rewrite bind_ok. reflexivity.
Qed.

Lemma dispatch_far : forall svc lat lon d,
    dispatch svc false lat lon d =
    match svc_historical svc lat lon d 10 with
    | inl h => ([CallHistorical lat lon d], inl (None, Some h))
    | inr e => ([CallHistorical lat lon d], inr e)
    end.
Proof.
  intros. unfold dispatch, invoke.
  destruct (svc_historical svc lat lon d 10) as [h | e]; reflexivity.
Qed.

Lemma handle_dispatch : forall rt svc body l r,
    prepare rt svc body = (l, inl (Continue r)) ->
    handle rt svc body =
    bind (l, inl (Continue r))
         (fun _ =>
            let near := nearFuture rt (r_target r) in
            fh <- dispatch svc near (r_lat r) (r_lon r) (r_dateISO r) ;;
            ret (respond 200
                   (PredictionBody
                      (combine (Math_exp rt) (fst fh) (snd fh) (r_activity r) near (r_dateISO r))))).
Proof.
  intros rt svc body l r Hprep. unfold handle. rewrite Hprep.
  rewrite !bind_ok. reflexivity.
Qed.

(** The horizon test in the specification's terms: the target lies after
    now, and [floor((target - now) / 1 day)] is at most 16, which is to say
    that the target is less than 17 days away. *)
Lemma nearFuture_spec : forall rt target,
    nearFuture rt (Some target) = true
    <-> (clock rt < target /\ (target - clock rt) / 86400000 <= 16)%Z.
Proof.
  intros rt target. unfold nearFuture, isFuture, within16d, daysAhead.
  change (1000 * 60 * 60 * 24)%Z with 86400000%Z.
  rewrite andb_true_iff, Z.ltb_lt, Z.leb_le. reflexivity.
Qed.

(** C4, as the code has it.  A request that reaches the dispatch with
    coordinates and a valid target date.  When the target lies after now and
    [floor((target - now) / 1 day) <= 16], the forecast source and then the
    historical source are called, a failure of either becomes [null] in the
    aggregation, the answer is 200 and its source is "GFS+ERA5".  Otherwise
    the historical source alone is called; the handler would answer its
    exception with 500, and on success the source is "ERA5".  The historical
    source of the code never throws: with it the answer is always 200. *)
Theorem source_dispatch : forall rt svc body l r target,
    prepare rt svc body = (l, inl (Continue r)) ->
    r_target r = Some target ->
    let now := clock rt in
    let lat := r_lat r in
    let lon := r_lon r in
    let d := r_dateISO r in
    ((now < target)%Z /\ ((target - now) / 86400000 <= 16)%Z ->
     let p := combine (Math_exp rt)
                      (of_result (svc_forecast svc lat lon d))
                      (of_result (svc_historical svc lat lon d 10))
                      (r_activity r) true d in
     POST_with rt svc body =
     (l ++ [CallForecast lat lon d; CallHistorical lat lon d],
      respond 200 (PredictionBody p))
     /\ source p = js "GFS+ERA5")
    /\ (~ ((now < target)%Z /\ ((target - now) / 86400000 <= 16)%Z) ->
        match svc_historical svc lat lon d 10 with
        | inl h =>
          let p := combine (Math_exp rt) None (Some h) (r_activity r) false d in
          POST_with rt svc body =
          (l ++ [CallHistorical lat lon d], respond 200 (PredictionBody p))
          /\ source p = js "ERA5"
        | inr e =>
          POST_with rt svc body =
          (l ++ [CallHistorical lat lon d], respond 500 (ErrorBody e))
        end)
    /\ (forall up, svc = services rt up ->
                   exists h, svc_historical svc lat lon d 10 = inl h
                             /\ status (snd (POST_with rt svc body)) = 200%Z).
Proof.
  intros rt svc body l r target Hprep Htarget now lat lon d.
  assert (Hpost : POST_with rt svc body
                  = match bind (dispatch svc (nearFuture rt (Some target)) lat lon d)
                               (fun fh => ret (respond 200
                                  (PredictionBody
                                     (combine (Math_exp rt) (fst fh) (snd fh) (r_activity r)
                                              (nearFuture rt (Some target)) d))))
                    with
                    | (l', inl rsp) => (l ++ l', rsp)
                    | (l', inr e) => (l ++ l', respond 500 (ErrorBody e))
                    end).
  { unfold POST_with. rewrite (handle_dispatch rt svc body Hprep), bind_ok.
    cbv zeta. rewrite Htarget. fold lat lon d.
    destruct (bind (dispatch svc _ lat lon d) _) as [l' [rsp | e]]; reflexivity. }
  pose proof (nearFuture_spec rt target) as Hnear. fold now in Hnear.
  split; [| split].
  - intros Hcond. apply Hnear in Hcond. rewrite Hpost, Hcond.
    rewrite dispatch_near, bind_ok. cbn [fst snd ret app]. split; reflexivity.
  - intros Hcond.
    assert (Hfar : nearFuture rt (Some target) = false).
    { destruct (nearFuture rt (Some target)); [| reflexivity].
      exfalso. apply Hcond, Hnear. reflexivity. }
    rewrite Hpost, Hfar, dispatch_far.
    destruct (svc_historical svc lat lon d 10) as [h | e].
    + rewrite bind_ok. cbn [fst snd ret app]. split; reflexivity.
    + rewrite bind_throw. reflexivity.
  - intros up ->. cbn [services svc_historical].
    unfold fetchHistoricalPOWERForDay at 1. cbv zeta.
    eexists. split; [reflexivity |].
    rewrite Hpost. destruct (nearFuture rt (Some target)).
    + rewrite dispatch_near, bind_ok. reflexivity.
    + rewrite dispatch_far. cbn [services svc_historical].
      unfold fetchHistoricalPOWERForDay. cbv zeta. rewrite bind_ok. reflexivity.
Qed.

(* ------------------------------------------------------------------ *)
(** * Sample runs *)

(** [Math.exp] at the two arguments the samples reach, to six decimals. *)
Definition exp_sample (x : Q) : Q :=
  if Qeq_bool x 3 then 20085537 # 1000000
  else if Qeq_bool x 8 then 2980957987 # 1000000
  else 1.

Definition noon (y m d : Z) : Z := (days_from_civil y m d * msPerDay + 12 * 3600000)%Z.

(** A runtime whose clock shows 2025-10-01T12:00Z and whose [Date] reads
    nothing but ISO dates. *)
Definition rt_sample : Runtime :=
  {| Math_exp := exp_sample;
     Date_parse := fun _ => None;
     clock := noon 2025 10 1;
     PARSING_STRICT := None |}.

Definition rt_strict : Runtime :=
  {| Math_exp := exp_sample;
     Date_parse := fun _ => None;
     clock := noon 2025 10 1;
     PARSING_STRICT := Some (js "true") |}.

Definition paris : Coord := {| c_lat := 4885 # 100; c_lon := 235 # 100 |}.

Definition no_climatology : Climatology :=
  {| histProb := None; meanTemp := None; meanWind := None |}.

(** Collaborators that all fail, but for a historical source without data. *)
Definition svc_down : Services :=
  {| svc_parse := fun _ => throw "OpenRouter parse failed";
     svc_geocode := fun _ => throw "Lieu introuvable";
     svc_forecast := fun _ _ _ => throw "Open-Meteo forecast failed";
     svc_historical := fun _ _ _ _ => ok no_climatology |}.

Definition ask (q : string) : Body :=
  {| body_query := Some (js q); body_lat := None; body_lon := None;
     body_date := None; body_activity := None |}.

Definition at_paris (d : string) : Body :=
  {| body_query := None; body_lat := Some (c_lat paris); body_lon := Some (c_lon paris);
     body_date := Some (js d); body_activity := None |}.

Definition resolved_at (y m d : Z) (iso : string) : Resolved :=
  {| r_activity := None; r_lat := c_lat paris; r_lon := c_lon paris;
     r_target := Some (days_from_civil y m d * msPerDay)%Z; r_dateISO := js iso |}.

Definition prediction_of (r : list call * HttpResponse) : option Prediction :=
  match json (snd r) with
  | PredictionBody p => Some p
  | _ => None
  end.

(** In strict mode, with a parser that is down, the request is answered 422
    after the one call to the parser. *)
Lemma strict_mode_halts_witness :
  POST_with rt_strict svc_down (ask "Vacances a Paris le 10 octobre") =
  ([CallParser (js "Vacances a Paris le 10 octobre")],
   respond 422 (IncompleteBody msg_incomplete false false None)).
Proof.
  assert (H1 : has_text (body_query (ask "Vacances a Paris le 10 octobre")) = true)
    by (vm_compute; reflexivity).
  assert (H2 : strict_mode rt_strict = true) by (vm_compute; reflexivity).
  assert (H3 : incomplete (afterParser svc_down (ask "Vacances a Paris le 10 octobre")) = true)
    by (vm_compute; reflexivity).
  rewrite (strict_mode_halts rt_strict svc_down _ H1 H2 H3).
  vm_compute. reflexivity.
Defined.

(** Collaborators that all fail. *)
Definition svc_failing : Services :=
  {| svc_parse := fun _ => throw "OpenRouter parse failed";
     svc_geocode := fun _ => throw "Lieu introuvable";
     svc_forecast := fun _ _ _ => throw "Open-Meteo forecast failed";
     svc_historical := fun _ _ _ _ => throw "POWER failed" |}.

(** An upstream where the AI parser is not configured, the geocoder finds
    no place at all and the weather services are down. *)
Definition up_nowhere : Upstream :=
  {| OPENROUTER_API_KEY := None;
     openrouter := fun _ => Unreachable;
     nominatim := fun _ => Response 200 (inl (Some []));
     openmeteo := fun _ _ _ => Unreachable;
     power := fun _ _ _ => Unreachable |}.

(** Seen from 2025-10-01T12:00Z, the 18th begins 16 days and a half ahead
    and is served by both sources, though both fail; the 19th, 17 days and a
    half ahead, is served by the historical source alone, and so is the past
    30th of September; and an exception of that source is answered 500. *)
Lemma source_dispatch_witness :
  POST_with rt_sample svc_failing (at_paris "2025-10-18")
  = ([CallForecast (c_lat paris) (c_lon paris) (js "2025-10-18");
      CallHistorical (c_lat paris) (c_lon paris) (js "2025-10-18")],
     respond 200 (PredictionBody {| rainRisk := 50; wind := js "inconnu"; temp := None;
                                    source := js "GFS+ERA5"; date := js "2025-10-18" |}))
  /\ POST_with rt_sample svc_down (at_paris "2025-10-19")
     = ([CallHistorical (c_lat paris) (c_lon paris) (js "2025-10-19")],
        respond 200 (PredictionBody {| rainRisk := 50; wind := js "inconnu"; temp := None;
                                       source := js "ERA5"; date := js "2025-10-19" |}))
  /\ POST_with rt_sample svc_down (at_paris "2025-09-30")
     = ([CallHistorical (c_lat paris) (c_lon paris) (js "2025-09-30")],
        respond 200 (PredictionBody {| rainRisk := 50; wind := js "inconnu"; temp := None;
                                       source := js "ERA5"; date := js "2025-09-30" |}))
  /\ POST_with rt_sample svc_failing (at_paris "2025-10-19")
     = ([CallHistorical (c_lat paris) (c_lon paris) (js "2025-10-19")],
        respond 500 (ErrorBody (js "POWER failed"))).
Proof.
  split; [| split; [| split]].
  - assert (Hp : prepare rt_sample svc_failing (at_paris "2025-10-18")
                 = ([], inl (Continue (resolved_at 2025 10 18 "2025-10-18"))))
      by (vm_compute; reflexivity).
    destruct (source_dispatch rt_sample svc_failing (at_paris "2025-10-18") Hp eq_refl)
      as (H & _ & _).
    cbv zeta in H. destruct H as [H _]; [split; vm_compute; [reflexivity | discriminate] |].
    rewrite H. vm_compute. reflexivity.
  - assert (Hp : prepare rt_sample svc_down (at_paris "2025-10-19")
                 = ([], inl (Continue (resolved_at 2025 10 19 "2025-10-19"))))
      by (vm_compute; reflexivity).
    destruct (source_dispatch rt_sample svc_down (at_paris "2025-10-19") Hp eq_refl)
      as (_ & H & _).
    cbv zeta in H.
    change (svc_historical svc_down)
      with (fun (_ _ : Q) (_ : jsstring) (_ : nat) => ok no_climatology) in H.
    destruct H as [H _]; [intros [_ Hle]; vm_compute in Hle; apply Hle; reflexivity |].
    rewrite H. vm_compute. reflexivity.
  - assert (Hp : prepare rt_sample svc_down (at_paris "2025-09-30")
                 = ([], inl (Continue (resolved_at 2025 9 30 "2025-09-30"))))
      by (vm_compute; reflexivity).
    destruct (source_dispatch rt_sample svc_down (at_paris "2025-09-30") Hp eq_refl)
      as (_ & H & _).
    cbv zeta in H.
    change (svc_historical svc_down)
      with (fun (_ _ : Q) (_ : jsstring) (_ : nat) => ok no_climatology) in H.
    destruct H as [H _]; [intros [Hlt _]; vm_compute in Hlt; discriminate |].
    rewrite H. vm_compute. reflexivity.
  - assert (Hp : prepare rt_sample svc_failing (at_paris "2025-10-19")
                 = ([], inl (Continue (resolved_at 2025 10 19 "2025-10-19"))))
      by (vm_compute; reflexivity).
    destruct (source_dispatch rt_sample svc_failing (at_paris "2025-10-19") Hp eq_refl)
      as (_ & H & _).
    cbv zeta in H.
    change (svc_historical svc_failing)
      with (fun (_ _ : Q) (_ : jsstring) (_ : nat) => @throw Climatology "POWER failed") in H.
    cbv beta in H.
    rewrite H; [vm_compute; reflexivity |].
    intros [_ Hle]; vm_compute in Hle; apply Hle; reflexivity.
Defined.

(** With the historical source of the code, the failure of every one of its
    ten requests is not a failure of the request: for Christmas, 85 days
    ahead, with an upstream that is out of reach, none of the years
    succeeds and the answer is 200, with the default risk. *)
Lemma historical_outage_is_answered_200 :
  fulfilled (map (fetchOnePOWER (power up_nowhere) (c_lat paris) (c_lon paris)
                                (js "12") (js "25"))
                 (yearsOf (new_Date (Date_parse rt_sample) (js "2025-12-25")) 10)) = []
  /\ POST rt_sample up_nowhere (at_paris "2025-12-25")
     = ([CallHistorical (c_lat paris) (c_lon paris) (js "2025-12-25")],
        respond 200 (PredictionBody {| rainRisk := 50; wind := js "inconnu"; temp := None;
                                       source := js "ERA5"; date := js "2025-12-25" |}))
  /\ status (snd (POST rt_sample up_nowhere (at_paris "2025-12-25"))) <> 500%Z.
Proof.
  repeat split; try (vm_compute; reflexivity).
  vm_compute. discriminate.
Qed.

(* ------------------------------------------------------------------ *)
(** * C10: a date the runtime cannot read *)

Definition msg_missing_coordinates : jsstring :=
  js "Missing coordinates or resolvable location".

Lemma resolveCoordinates_supplied : forall svc body loc lat lon,
    body_lat body = Some lat ->
    body_lon body = Some lon ->
    resolveCoordinates svc body loc = ret (Some lat, Some lon).
Proof.
  intros svc body loc lat lon Hlat Hlon.
  unfold resolveCoordinates. rewrite Hlat, Hlon. reflexivity.
Qed.

Lemma defaultDate_given : forall rt d,
    truthy d = true -> defaultDate rt (Some d) = ok d.
Proof.
  intros rt d Hd. unfold defaultDate, falsy. rewrite Hd. reflexivity.
Qed.

(** C10, as the code has it.  A request without a query that carries both
    coordinates and a non-empty [date] which [new Date] cannot read is
    answered 500 with the message of the [RangeError] that [toISOString]
    throws; no collaborator is called, and neither [normalizeDateISO] nor the
    default of seven days from now takes part. *)
Theorem unreadable_date_is_500 : forall rt svc body lat lon d,
    body_query body = None ->
    body_lat body = Some lat ->
    body_lon body = Some lon ->
    body_date body = Some d ->
    truthy d = true ->
    new_Date (Date_parse rt) d = None ->
    POST_with rt svc body = ([], respond 500 (ErrorBody (js "Invalid time value"))).
Proof.
  intros rt svc body lat lon d Hq Hlat Hlon Hdate Hd Hparse.
  unfold POST_with, handle, prepare.
  rewrite resolveIntent_no_text by (rewrite Hq; reflexivity).
  rewrite bind_ret. cbn [f_date f_location f_activity].
  rewrite Hdate, (defaultDate_given rt d Hd), bind_lift_ok.
  rewrite (resolveCoordinates_supplied svc body None Hlat Hlon), bind_ret.
  rewrite Hparse. reflexivity.
Qed.

Lemma unreadable_date_is_500_witness :
  POST_with rt_sample svc_down (at_paris "demain")
  = ([], respond 500 (ErrorBody (js "Invalid time value"))).
Proof.
  apply (unreadable_date_is_500 rt_sample svc_down (at_paris "demain")
                                (lat := c_lat paris) (lon := c_lon paris)
                                (d := js "demain"));
    vm_compute; reflexivity.
Defined.

(** The same date without coordinates is answered 400: the coordinates are
    checked before the date is read. *)
Lemma unreadable_date_without_coordinates :
  let body := {| body_query := None; body_lat := None; body_lon := None;
                 body_date := Some (js "demain"); body_activity := None |} in
  new_Date (Date_parse rt_sample) (js "demain") = None
  /\ POST_with rt_sample svc_down body = ([], respond 400 (ErrorBody msg_missing_coordinates))
  /\ status (snd (POST_with rt_sample svc_down body)) <> 500%Z.
Proof.
  vm_compute. repeat split; discriminate.
Qed.

(** An empty [date] is falsy: the default of seven days from now replaces
    it and the request succeeds. *)
Lemma empty_date_is_defaulted :
  option_map date (prediction_of (POST_with rt_sample svc_down (at_paris "")))
  = Some (js "2025-10-08").
Proof.
  vm_compute. reflexivity.
Qed.

(* ------------------------------------------------------------------ *)
(** * C2: the chain of geocoding attempts *)

(** C2 at its failing input.  The heuristic parser reads the location
    "Atlantis"; the geocoder finds nothing for it and throws; the exception
    leaves the handler through the outer [catch]: the answer is 500, and
    neither the candidate location nor the stripped query is tried. *)
Theorem geocoding_failure_of_location_is_fatal :
  POST rt_sample up_nowhere (ask "Rando a Atlantis le 10 octobre")
  = ([CallParser (js "Rando a Atlantis le 10 octobre"); CallGeocoder (js "Atlantis")],
     respond 500 (ErrorBody (js "Lieu introuvable"))).
Proof.
  vm_compute. reflexivity.
Qed.

(** The same holds whatever the collaborators: once a location is resolved
    and coordinates are missing, an exception of its geocoding is the
    handler's. *)
Lemma resolveCoordinates_location_throws : forall svc body loc e,
    missing (body_lat body, body_lon body) = true ->
    truthy loc = true ->
    svc_geocode svc loc = inr e ->
    resolveCoordinates svc body (Some loc) = ([CallGeocoder loc], inr e).
Proof.
  intros svc body loc e Hmiss Hloc Hgeo.
  unfold resolveCoordinates, geocode, falsy. rewrite Hmiss, Hloc. cbn [negb andb nullish_or].
  rewrite Hgeo. reflexivity.
Qed.

(** With the same dead geocoder and no location to read, the two attempts of
    the fallback block are made, both are swallowed, and the answer is 400. *)
Lemma geocoding_exhausted_is_400 :
  POST rt_sample up_nowhere (ask "Nice le 10 octobre")
  = ([CallParser (js "Nice le 10 octobre"); CallGeocoder (js "Nice le"); CallGeocoder (js "Nice")],
     respond 400 (ErrorBody msg_missing_coordinates)).
Proof.
  vm_compute. reflexivity.
Qed.

(** A geocoder that knows two places. *)
Definition nice : Coord := {| c_lat := 437 # 10; c_lon := 727 # 100 |}.
Definition elsewhere : Coord := {| c_lat := 1; c_lon := 1 |}.

Definition up_two_places : Upstream :=
  {| OPENROUTER_API_KEY := None;
     openrouter := fun _ => Unreachable;
     nominatim := fun s =>
       if str_eqb s (js "Nice le") then Response 200 (inl (Some [elsewhere]))
       else if str_eqb s (js "Nice") then Response 200 (inl (Some [nice]))
       else Response 200 (inl (Some []));
     openmeteo := fun _ _ _ => Unreachable;
     power := fun _ _ _ => Unreachable |}.

(** When the candidate location is geocoded with success, the stripped query
    is geocoded all the same, and its coordinates replace the first ones:
    the weather is fetched for the second place. *)
Lemma later_geocoding_replaces_earlier :
  fst (POST rt_sample up_two_places (ask "Nice le 10 octobre"))
  = [CallParser (js "Nice le 10 octobre");
     CallGeocoder (js "Nice le"); CallGeocoder (js "Nice");
     CallForecast (c_lat nice) (c_lon nice) (js "2025-10-10");
     CallHistorical (c_lat nice) (c_lon nice) (js "2025-10-10")].
Proof.
  vm_compute. reflexivity.
Qed.

(* ------------------------------------------------------------------ *)
(** * C6: a forecast response without a precipitation series *)

Definition hourly_without_precipitation : Hourly :=
  {| time := Some [js "2025-10-10T11:00"; js "2025-10-10T12:00"];
     temperature_2m := Some [Some 14; Some 15];
     wind_speed_10m := None;
     cloud_cover := None;
     precipitation := None;
     precipitation_probability := None |}.

(** C6 at its failing input.  The response carries times and temperatures
    only.  Wind, cloud cover and precipitation probability are [null] in the
    sample, the precipitation sum is the number 0. *)
Theorem missing_precipitation_is_zero :
  fetchGFSviaOpenMeteo
    (fun _ _ _ => Response 200 (inl (Some hourly_without_precipitation)))
    (c_lat paris) (c_lon paris) (js "2025-10-10")
  = ok {| tempC := Some 15; windSpeed := None; cloud := None;
          precipMm := Some 0; precipProb := None |}.
Proof.
  vm_compute. reflexivity.
Qed.

Lemma precipMm_never_null : forall hourly, precipMm (forecastOfHourly hourly) <> None.
Proof.
  intros hourly. unfold forecastOfHourly. cbn [precipMm nullish]. discriminate.
Qed.

(** What follows downstream: with no precipitation data at all and a
    historical source without data, the answer claims a rain risk of 5. *)
Definition up_no_precipitation : Upstream :=
  {| OPENROUTER_API_KEY := None;
     openrouter := fun _ => Unreachable;
     nominatim := fun _ => Unreachable;
     openmeteo := fun _ _ _ => Response 200 (inl (Some hourly_without_precipitation));
     power := fun _ _ _ => Unreachable |}.

Lemma missing_precipitation_reads_as_dry :
  option_map rainRisk (prediction_of (POST rt_sample up_no_precipitation (at_paris "2025-10-10")))
  = Some 5.
Proof.
  vm_compute. reflexivity.
Qed.

(* ------------------------------------------------------------------ *)
(** * C7: the year of a date read by the heuristic parser *)

Definition only_date (d : string) : result Intent :=
  ok {| location := None; dateISO := Some (js d); activity := None |}.

(** C7 at its failing input.  The year 0000 is written out, yet the date is
    moved to the year after the current one: [parseInt] gives 0, which is
    falsy, so the year counts as not given. *)
Theorem explicit_year_zero_rolls_over :
  parseFrenchFallback (noon 2025 6 1) (js "le 5 mars 0000") = only_date "2026-03-05".
Proof.
  vm_compute. reflexivity.
Qed.

(** The three examples of the specification. *)
Lemma heuristic_date_examples :
  parseFrenchFallback (noon 2025 1 1) (js "le 5 mars") = only_date "2025-03-05"
  /\ parseFrenchFallback (noon 2025 6 1) (js "le 5 mars") = only_date "2026-03-05"
  /\ parseFrenchFallback (noon 2025 6 1) (js "le 5 mars 2020") = only_date "2020-03-05".
Proof.
  repeat split; vm_compute; reflexivity.
Qed.

(** A year up to 1900 is replaced by the current one, without rollover. *)
Lemma explicit_year_1800 :
  parseFrenchFallback (noon 2025 6 1) (js "le 5 mars 1800") = only_date "2025-03-05".
Proof.
  vm_compute. reflexivity.
Qed.

(* ------------------------------------------------------------------ *)
(** * The calendar, and the heuristic date in general *)

Section Calendar.
Local Open Scope Z_scope.

(** Days before the year [y] of an era (years count from the 1st of March). *)
Definition year_start (y : Z) : Z := 365 * y + y / 4 - y / 100.

(** The year of the era a day falls in, as [civil_from_days] computes it. *)
Definition year_of_era (doe : Z) : Z :=
  (doe - doe / 1460 + doe / 36524 - doe / 146096) / 365.

(** The year of a day of the era does not decrease with the day. *)
Lemma year_of_era_step : forall x,
    0 <= x < 146096 -> year_of_era x <= year_of_era (x + 1).
Proof.
  intros x Hx. unfold year_of_era. apply Z.div_le_mono; [lia |].
  Z.div_mod_to_equations; lia.
Qed.

Lemma year_of_era_mono : forall a b,
    0 <= a <= b -> b <= 146096 -> year_of_era a <= year_of_era b.
Proof.
  intros a b Hab Hb.
  replace b with (a + Z.of_nat (Z.to_nat (b - a))) in * by lia.
  induction (Z.to_nat (b - a)) as [| n IH]; [rewrite Z.add_0_r; lia |].
  rewrite Nat2Z.inj_succ in *.
  transitivity (year_of_era (a + Z.of_nat n)); [apply IH; lia |].
  replace (a + Z.succ (Z.of_nat n)) with (a + Z.of_nat n + 1) by lia.
  apply year_of_era_step. lia.
Qed.

(** [f] holds of the [n] integers from [z] on. *)
Fixpoint forall_from (n : nat) (z : Z) (f : Z -> bool) : bool :=
  match n with
  | O => true
  | S k => f z && forall_from k (z + 1) f
  end.

Lemma forall_from_spec : forall n z f,
    forall_from n z f = true -> forall x, z <= x < z + Z.of_nat n -> f x = true.
Proof.
  induction n as [| n IH]; intros z f H x Hx; [lia |].
  cbn [forall_from] in H. apply andb_true_iff in H. destruct H as [Hz Hrest].
  destruct (Z.eq_dec x z) as [-> | Hne]; [exact Hz |].
  apply (IH (z + 1) f Hrest). lia.
Qed.

(** [f] holds of the integers from 0 up to [n], [n] excluded. *)
Definition forall_below (n : Z) (f : Z -> bool) : bool := forall_from (Z.to_nat n) 0 f.

Lemma forall_below_spec : forall n f,
    forall_below n f = true -> forall x, 0 <= x < n -> f x = true.
Proof.
  intros n f H x Hx. apply (@forall_from_spec (Z.to_nat n) 0 f H). lia.
Qed.

(** The last day of the year [y] of an era; the last year of the era ends
    with the 29th of February of a year divisible by 400. *)
Definition year_last (y : Z) : Z :=
  if y =? 399 then 146096 else year_start (y + 1) - 1.

Definition year_ends_ok (y : Z) : bool :=
  (year_of_era (year_start y) =? y) && (year_of_era (year_last y) =? y).

(** The first and the last day of every year of an era fall in that year. *)
Lemma year_ends : forall y,
    0 <= y <= 399 ->
    year_of_era (year_start y) = y /\ year_of_era (year_last y) = y.
Proof.
  intros y Hy.
  assert (H : forall_below 400 year_ends_ok = true) by (vm_compute; reflexivity).
  pose proof (@forall_below_spec 400 year_ends_ok H y) as Hok.
  unfold year_ends_ok in Hok. rewrite andb_true_iff, !Z.eqb_eq in Hok. apply Hok. lia.
Qed.

Lemma year_last_bound : forall y, 0 <= y <= 399 -> year_start y <= year_last y <= 146096.
Proof.
  intros y Hy. unfold year_last, year_start.
  destruct (Z.eqb_spec y 399) as [-> | Hne]; [vm_compute; split; discriminate |].
  Z.div_mod_to_equations. lia.
Qed.

(** Every day between the first and the last day of a year falls in it. *)
Lemma year_of_era_correct : forall doe y,
    0 <= y <= 399 -> year_start y <= doe <= year_last y -> year_of_era doe = y.
Proof.
  intros doe y Hy Hdoe.
  destruct (year_ends Hy) as [Hlo Hhi].
  pose proof (year_last_bound Hy) as Hb.
  assert (H0 : 0 <= year_start y) by (unfold year_start; Z.div_mod_to_equations; lia).
  pose proof (@year_of_era_mono (year_start y) doe) as Ha.
  pose proof (@year_of_era_mono doe (year_last y)) as Hc.
  lia.
Qed.

Lemma year_exists_below : forall (n : nat) doe,
    0 <= doe < year_start (Z.of_nat n) ->
    exists y, 0 <= y < Z.of_nat n /\ year_start y <= doe < year_start (y + 1).
Proof.
  induction n as [| n IH]; intros doe [Hlo Hlt].
  - unfold year_start in Hlt. cbn in Hlt. lia.
  - destruct (Z_lt_le_dec doe (year_start (Z.of_nat n))) as [Hl | Hg].
    + destruct (IH doe (conj Hlo Hl)) as (y & Hy & Hr).
      exists y. split; [lia | exact Hr].
    + exists (Z.of_nat n). rewrite Nat2Z.inj_succ, <- Z.add_1_r in Hlt.
      split; [lia | split; assumption].
Qed.

(** Every day of an era lies in one of its 400 years. *)
Lemma year_exists : forall doe,
    0 <= doe < 146097 -> exists y, 0 <= y <= 399 /\ year_start y <= doe <= year_last y.
Proof.
  intros doe Hdoe.
  destruct (Z.eq_dec doe 146096) as [-> | Hne].
  - exists 399. vm_compute. repeat split; discriminate.
  - destruct (@year_exists_below 400 doe) as (y & Hy & Hr).
    + change (year_start (Z.of_nat 400)) with 146096. lia.
    + exists y. split; [lia |]. unfold year_last.
      destruct (Z.eqb_spec y 399) as [-> | Hy']; lia.
Qed.

Lemma year_length : forall y, 0 <= y <= 399 -> 364 <= year_last y - year_start y <= 365.
Proof.
  intros y Hy. unfold year_last, year_start.
  destruct (Z.eqb_spec y 399) as [-> | Hne]; [vm_compute; split; discriminate |].
  Z.div_mod_to_equations. lia.
Qed.

(** Every day number is the day number of its own civil date. *)
Lemma days_from_civil_from_days : forall z,
    let '(y, m, d) := civil_from_days z in
    days_from_civil y m d = z /\ 1 <= m <= 12 /\ 1 <= d <= 31.
Proof.
  intros z. unfold civil_from_days. cbv zeta.
  set (era := (z + 719468) / 146097).
  set (doe := z + 719468 - era * 146097).
  assert (Hdoe : 0 <= doe < 146097) by (subst doe era; Z.div_mod_to_equations; lia).
  destruct (year_exists Hdoe) as (yoe & Hyoe & Hin).
  fold (year_of_era doe). rewrite (year_of_era_correct Hyoe Hin).
  fold (year_start yoe).
  pose proof (year_length Hyoe) as Hlen.
  set (doy := doe - year_start yoe).
  assert (Hdoy : 0 <= doy <= 365) by (subst doy; lia).
  set (mp := (5 * doy + 2) / 153).
  assert (Hmp : 0 <= mp <= 11) by (subst mp; Z.div_mod_to_equations; lia).
  set (d := doy - (153 * mp + 2) / 5 + 1).
  assert (Hd : 1 <= d <= 31) by (subst d mp; Z.div_mod_to_equations; lia).
  unfold days_from_civil.
  destruct (Z.ltb_spec mp 10) as [Hlt | Hge].
  - replace (mp + 3 <=? 2) with false by (symmetry; apply Z.leb_gt; lia).
    replace ((mp + 3 + 9) mod 12) with mp by (Z.div_mod_to_equations; lia).
    cbv beta iota zeta.
    replace ((yoe + era * 400) / 400) with era by (Z.div_mod_to_equations; lia).
    split; [| lia].
    replace (yoe + era * 400 - era * 400) with yoe by lia.
    fold (year_start yoe). subst d doy doe. unfold year_start. ring.
  - replace (mp - 9 <=? 2) with true by (symmetry; apply Z.leb_le; lia).
    replace ((mp - 9 + 9) mod 12) with mp by (Z.div_mod_to_equations; lia).
    cbv beta iota zeta.
    replace ((yoe + era * 400 + 1 - 1) / 400) with era by (Z.div_mod_to_equations; lia).
    split; [| lia].
    replace (yoe + era * 400 + 1 - 1 - era * 400) with yoe by lia.
    subst d doy doe. unfold year_start. ring.
Qed.

(** Days of the months of a common year. *)
Definition common_days (m : Z) : Z :=
  if m =? 2 then 28
  else if (m =? 4) || (m =? 6) || (m =? 9) || (m =? 11) then 30
  else 31.

(** Every day of a common year is the civil date of its day number. *)
Lemma civil_from_days_from_civil : forall y m d,
    1 <= m <= 12 -> 1 <= d <= common_days m ->
    civil_from_days (days_from_civil y m d) = (y, m, d).
Proof.
  intros y m d Hm Hd. unfold days_from_civil. cbv zeta.
  set (y' := if m <=? 2 then y - 1 else y).
  set (era := y' / 400).
  set (yoe := y' - era * 400).
  assert (Hyoe : 0 <= yoe <= 399) by (subst yoe era; Z.div_mod_to_equations; lia).
  set (mp := (m + 9) mod 12).
  set (doy := (153 * mp + 2) / 5 + d - 1).
  assert (Hmd : 0 <= doy <= 364 /\ (5 * doy + 2) / 153 = mp
                /\ doy - (153 * mp + 2) / 5 + 1 = d
                /\ (if mp <? 10 then mp + 3 else mp - 9) = m).
  { subst doy mp. unfold common_days in Hd.
    assert (Hcases : m = 1 \/ m = 2 \/ m = 3 \/ m = 4 \/ m = 5 \/ m = 6 \/ m = 7 \/ m = 8
                     \/ m = 9 \/ m = 10 \/ m = 11 \/ m = 12) by lia.
    repeat (destruct Hcases as [-> | Hcases]); try subst m; cbn in Hd;
      match goal with
      | |- context [(?a + 9) mod 12] =>
        let v := eval vm_compute in ((a + 9) mod 12) in
        change ((a + 9) mod 12) with v
      end;
      (repeat split; try reflexivity; Z.div_mod_to_equations; lia). }
  destruct Hmd as (Hdoy & Hmp & Hd' & Hm').
  pose proof (year_length Hyoe) as Hlen.
  replace (yoe * 365 + yoe / 4 - yoe / 100 + doy) with (year_start yoe + doy)
    by (unfold year_start; lia).
  assert (Hin : year_start yoe <= year_start yoe + doy <= year_last yoe) by lia.
  pose proof (year_last_bound Hyoe) as Hb.
  assert (H0 : 0 <= year_start yoe) by (unfold year_start; Z.div_mod_to_equations; lia).
  unfold civil_from_days. cbv zeta.
  replace (era * 146097 + (year_start yoe + doy) - 719468 + 719468)
    with (year_start yoe + doy + era * 146097) by lia.
  rewrite Z.div_add by lia. rewrite (Z.div_small (year_start yoe + doy)) by lia.
  cbn [Z.add].
  replace (year_start yoe + doy + era * 146097 - era * 146097)
    with (year_start yoe + doy) by lia.
  fold (year_of_era (year_start yoe + doy)). rewrite (year_of_era_correct Hyoe Hin).
  fold (year_start yoe).
  replace (year_start yoe + doy - year_start yoe) with doy by lia.
  rewrite Hmp, Hd', Hm'.
  f_equal. f_equal. subst yoe y'. destruct (m <=? 2); lia.
Qed.

(** ** Time values that are whole days *)

Lemma Day_of_days : forall D, Day (D * msPerDay) = D.
Proof. intros D. unfold Day, msPerDay. apply Z.div_mul. lia. Qed.

Lemma TimeWithinDay_of_days : forall D, TimeWithinDay (D * msPerDay) = 0.
Proof. intros D. unfold TimeWithinDay, msPerDay. apply Z.mod_mul. lia. Qed.

Lemma days_from_civil_day : forall y m d,
    days_from_civil y m d = days_from_civil y m 1 + d - 1.
Proof. intros. unfold days_from_civil. lia. Qed.

Lemma MakeDay_civil : forall y m d,
    1 <= m <= 12 -> MakeDay y (m - 1) d = days_from_civil y m d.
Proof.
  intros y m d Hm. unfold MakeDay. cbv zeta.
  replace ((m - 1) / 12) with 0 by (Z.div_mod_to_equations; lia).
  replace ((m - 1) mod 12 + 1) with m by (Z.div_mod_to_equations; lia).
  rewrite Z.add_0_r, (days_from_civil_day y m d). reflexivity.
Qed.

Lemma days_from_civil_bound : forall y m d,
    0 <= y <= 10000 -> 1 <= m <= 12 -> 1 <= d <= 31 ->
    -800000 <= days_from_civil y m d <= 3000000.
Proof.
  intros y m d Hy Hm Hd. unfold days_from_civil.
  destruct (m <=? 2); cbv zeta; Z.div_mod_to_equations; lia.
Qed.

Lemma TimeClip_days : forall D, -800000 <= D <= 3000000 -> TimeClip (D * msPerDay) = Some (D * msPerDay).
Proof.
  intros D HD. unfold TimeClip, msPerDay.
  replace (Z.abs (D * 86400000) <=? 8640000000000000) with true; [reflexivity |].
  symmetry. apply Z.leb_le. lia.
Qed.

(** [Date.UTC] of a civil date, for years it does not remap. *)
Lemma Date_UTC_civil : forall y m d,
    100 <= y <= 10000 -> 1 <= m <= 12 -> 1 <= d <= 31 ->
    Date_UTC y (m - 1) d = Some (days_from_civil y m d * msPerDay).
Proof.
  intros y m d Hy Hm Hd. unfold Date_UTC.
  replace ((0 <=? y) && (y <=? 99)) with false
    by (symmetry; apply andb_false_iff; right; apply Z.leb_gt; lia).
  cbv zeta. rewrite (MakeDay_civil y d Hm).
  apply TimeClip_days, days_from_civil_bound; lia.
Qed.

(** ** Rendering *)

(** The date as [toISODate] writes it: YYYY-MM-DD. *)
Definition iso_date (y m d : Z) : jsstring :=
  pad 4 y ++ js "-" ++ pad 2 m ++ js "-" ++ pad 2 d.

Lemma pad4_length : forall y, 0 <= y <= 9999 -> List.length (pad 4 y) = 4%nat.
Proof.
  intros y Hy.
  assert (H : forall_below 10000 (fun y => (List.length (pad 4 y) =? 4)%nat) = true)
    by (vm_compute; reflexivity).
  apply Nat.eqb_eq. apply (@forall_below_spec 10000 _ H y). lia.
Qed.

Lemma pad2_length : forall n, 0 <= n <= 99 -> List.length (pad 2 n) = 2%nat.
Proof.
  intros n Hn.
  assert (H : forall_below 100 (fun n => (List.length (pad 2 n) =? 2)%nat) = true)
    by (vm_compute; reflexivity).
  apply Nat.eqb_eq. apply (@forall_below_spec 100 _ H n). lia.
Qed.

Lemma isoString_date : forall t y m d,
    civil_from_days (Day t) = (y, m, d) ->
    0 <= y <= 9999 -> 1 <= m <= 12 -> 1 <= d <= 31 ->
    slice 0 10 (isoString t) = iso_date y m d.
Proof.
  intros t y m d Hciv Hy Hm Hd. unfold isoString. rewrite Hciv.
  replace ((0 <=? y) && (y <=? 9999)) with true
    by (symmetry; apply andb_true_iff; split; apply Z.leb_le; lia).
  unfold slice, iso_date. cbn [skipn Nat.sub].
  set (rest := js "T" ++ _).
  replace (pad 4 y ++ js "-" ++ pad 2 m ++ js "-" ++ pad 2 d ++ rest)
    with ((pad 4 y ++ js "-" ++ pad 2 m ++ js "-" ++ pad 2 d) ++ rest)
    by (rewrite <- !app_assoc; reflexivity).
  rewrite firstn_app.
  assert (Hlen : List.length (pad 4 y ++ js "-" ++ pad 2 m ++ js "-" ++ pad 2 d) = 10%nat).
  { rewrite !length_app, (pad4_length Hy), (@pad2_length m), (@pad2_length d) by lia.
    reflexivity. }
  rewrite Hlen, Nat.sub_diag, firstn_all2 by lia. cbn [firstn]. apply app_nil_r.
Qed.

(** [toISODate] of the midnight of a civil date writes that date. *)
Lemma toISODate_civil : forall y m d,
    0 <= y <= 9999 -> 1 <= m <= 12 -> 1 <= d <= common_days m ->
    toISODate (Some (days_from_civil y m d * msPerDay)) = ok (iso_date y m d).
Proof.
  intros y m d Hy Hm Hd. unfold toISODate, toISOString. f_equal.
  assert (Hd31 : 1 <= d <= 31).
  { unfold common_days in Hd. destruct (m =? 2); [lia |]. destruct (_ || _); lia. }
  apply isoString_date; try assumption.
  rewrite Day_of_days. apply civil_from_days_from_civil; assumption.
Qed.

(** ** The date of the heuristic parser *)

(** The month table holds the numbers 1 to 12. *)
Lemma months_get_range : forall name m, months_get name = Own m -> 1 <= m <= 12.
Proof.
  intros name m H. unfold months_get in H.
  destruct (find _ months) as [kv |] eqn:E.
  - injection H as <-. apply find_some in E. destruct E as [Hin _].
    unfold months in Hin. cbn [In] in Hin.
    repeat (destruct Hin as [<- | Hin]; [cbn; lia |]). contradiction.
  - destruct (str_eqb name (js "constructor")); discriminate.
Qed.

(** [todayStart] is the midnight that starts the current day. *)
Lemma todayStart_is_day : forall today,
    100 <= YearFromTime today <= 10000 ->
    Date_UTC (YearFromTime today) (MonthFromTime today) (DateFromTime today)
    = Some (Day today * msPerDay).
Proof.
  intros today HY. unfold YearFromTime, MonthFromTime, DateFromTime in *.
  pose proof (days_from_civil_from_days (Day today)) as H.
  destruct (civil_from_days (Day today)) as [[y m] d]. cbn [fst snd] in *.
  destruct H as (Hz & Hm & Hd).
  rewrite (Date_UTC_civil HY Hm Hd), Hz. reflexivity.
Qed.

(** Without a year: the current year, or the next one when the day is over. *)
Lemma date_without_year : forall today dstr mo m,
    months_get (toLowerCase mo) = Own m ->
    1 <= parseDigits dstr <= common_days m ->
    100 <= YearFromTime today <= 9998 ->
    dateOfMatch today (dstr, mo, None)
    = ok (Some (iso_date (if days_from_civil (YearFromTime today) m (parseDigits dstr)
                             <? Day today
                          then YearFromTime today + 1 else YearFromTime today)
                         m (parseDigits dstr))).
Proof.
  intros today dstr mo m Hmonth Hday HY.
  pose proof (months_get_range _ Hmonth) as Hm.
  set (day := parseDigits dstr) in *. set (Y := YearFromTime today) in *.
  assert (Hd31 : 1 <= day <= 31).
  { unfold common_days in Hday. destruct (m =? 2); [lia |]. destruct (_ || _); lia. }
  unfold dateOfMatch. rewrite Hmonth. cbn [option_map andb negb nullish_or].
  fold day Y.
  assert (Hts : Date_UTC Y (MonthFromTime today) (DateFromTime today) = Some (Day today * msPerDay))
    by (apply todayStart_is_day; fold Y; lia).
  rewrite Hts.
  rewrite (@Date_UTC_civil Y m day) by lia.
  replace (days_from_civil Y m day * msPerDay <? Day today * msPerDay)
    with (days_from_civil Y m day <? Day today)
    by (unfold msPerDay; destruct (Z.ltb_spec (days_from_civil Y m day) (Day today));
        symmetry; [apply Z.ltb_lt | apply Z.ltb_ge]; lia).
  destruct (days_from_civil Y m day <? Day today).
  - unfold setUTCFullYear, YearFromTime, MonthFromTime, DateFromTime.
    rewrite Day_of_days, TimeWithinDay_of_days, civil_from_days_from_civil by assumption.
    cbn [fst snd]. rewrite (MakeDay_civil (Y + 1) day Hm), Z.add_0_r.
    rewrite TimeClip_days by (apply days_from_civil_bound; lia).
    rewrite toISODate_civil by (try assumption; lia). reflexivity.
  - rewrite toISODate_civil by (try assumption; lia). reflexivity.
Qed.

(** With a year after 1900: that year, whatever the day is today. *)
Lemma date_with_year : forall today dstr mo ystr m,
    months_get (toLowerCase mo) = Own m ->
    1 <= parseDigits dstr <= common_days m ->
    1900 < parseDigits ystr <= 9999 ->
    dateOfMatch today (dstr, mo, Some ystr)
    = ok (Some (iso_date (parseDigits ystr) m (parseDigits dstr))).
Proof.
  intros today dstr mo ystr m Hmonth Hday Hyear.
  pose proof (months_get_range _ Hmonth) as Hm.
  set (day := parseDigits dstr) in *. set (y := parseDigits ystr) in *.
  assert (Hd31 : 1 <= day <= 31).
  { unfold common_days in Hday. destruct (m =? 2); [lia |]. destruct (_ || _); lia. }
  unfold dateOfMatch. rewrite Hmonth. cbn [option_map nullish_or]. fold day y.
  replace (y =? 0) with false by (symmetry; apply Z.eqb_neq; lia).
  replace (1900 <? y) with true by (symmetry; apply Z.ltb_lt; lia).
  cbn [negb andb].
  rewrite (@Date_UTC_civil y m day) by lia.
  destruct (Date_UTC _ _ _); rewrite toISODate_civil by (try assumption; lia); reflexivity.
Qed.

(** With a year from 1 to 1900: the current year, and no rollover. *)
Lemma date_with_old_year : forall today dstr mo ystr m,
    months_get (toLowerCase mo) = Own m ->
    1 <= parseDigits dstr <= common_days m ->
    1 <= parseDigits ystr <= 1900 ->
    100 <= YearFromTime today <= 9999 ->
    dateOfMatch today (dstr, mo, Some ystr)
    = ok (Some (iso_date (YearFromTime today) m (parseDigits dstr))).
Proof.
  intros today dstr mo ystr m Hmonth Hday Hyear HY.
  pose proof (months_get_range _ Hmonth) as Hm.
  set (day := parseDigits dstr) in *. set (y := parseDigits ystr) in *.
  assert (Hd31 : 1 <= day <= 31).
  { unfold common_days in Hday. destruct (m =? 2); [lia |]. destruct (_ || _); lia. }
  unfold dateOfMatch. rewrite Hmonth. cbn [option_map nullish_or]. fold day y.
  replace (y =? 0) with false by (symmetry; apply Z.eqb_neq; lia).
  replace (1900 <? y) with false by (symmetry; apply Z.ltb_ge; lia).
  cbn [negb andb].
  rewrite (@Date_UTC_civil (YearFromTime today) m day) by lia.
  destruct (Date_UTC _ _ _); rewrite toISODate_civil by (try assumption; lia); reflexivity.
Qed.

(** The year 0 is falsy: the date is read as if no year were written. *)
Lemma date_with_year_zero : forall today dstr mo ystr,
    parseDigits ystr = 0 ->
    dateOfMatch today (dstr, mo, Some ystr) = dateOfMatch today (dstr, mo, None).
Proof.
  intros today dstr mo ystr Hy. unfold dateOfMatch. cbn [option_map nullish_or].
  rewrite Hy. reflexivity.
Qed.

(** The heuristic parser reads the date [d]. *)
Definition reads_date (r : result Intent) (d : jsstring) : Prop :=
  exists i, r = ok i /\ dateISO i = Some d.

(** The heuristic parser returns the date of its date match. *)
Lemma parseFrenchFallback_date : forall today q m d,
    dateMatch q = Some m -> dateOfMatch today m = ok (Some d) ->
    reads_date (parseFrenchFallback today q) d.
Proof.
  intros today q m d Hm Hd. unfold reads_date, parseFrenchFallback. rewrite Hm, Hd.
  eexists. split; reflexivity.
Qed.

(** X1.  A query whose date has a day and a month but no year: the heuristic
    parser reads the date in the current year, and in the year after it exactly
    when that day of the current year lies before the current day (UTC). *)
Theorem heuristic_date_without_year : forall today q dstr mo m,
    dateMatch q = Some (dstr, mo, None) ->
    months_get (toLowerCase mo) = Own m ->
    1 <= parseDigits dstr <= common_days m ->
    100 <= YearFromTime today <= 9998 ->
    reads_date (parseFrenchFallback today q)
               (iso_date (if days_from_civil (YearFromTime today) m (parseDigits dstr)
                             <? Day today
                          then YearFromTime today + 1 else YearFromTime today)
                         m (parseDigits dstr)).
Proof.
  intros today q dstr mo m Hq Hmonth Hday HY.
  apply (@parseFrenchFallback_date today q _ _ Hq). apply date_without_year; assumption.
Qed.

Lemma heuristic_date_without_year_witness :
  reads_date (parseFrenchFallback (noon 2025 6 1) (js "Rando le 5 mars")) (js "2026-03-05").
Proof.
  assert (Hq : dateMatch (js "Rando le 5 mars") = Some (js "5", js "mars", None))
    by (vm_compute; reflexivity).
  assert (Hmonth : months_get (toLowerCase (js "mars")) = Own 3) by (vm_compute; reflexivity).
  assert (Hday : 1 <= parseDigits (js "5") <= common_days 3) by (vm_compute; split; discriminate).
  assert (HY : 100 <= YearFromTime (noon 2025 6 1) <= 9998) by (vm_compute; split; discriminate).
  pose proof (@heuristic_date_without_year (noon 2025 6 1) _ _ _ _ Hq Hmonth Hday HY) as H.
  vm_compute in H. vm_compute. exact H.
Defined.

(** X2.  A query whose date carries a year after 1900: the heuristic parser
    reads that year, month and day whatever the current day is; there is no
    rollover. *)
Theorem heuristic_date_with_year : forall today q dstr mo ystr m,
    dateMatch q = Some (dstr, mo, Some ystr) ->
    months_get (toLowerCase mo) = Own m ->
    1 <= parseDigits dstr <= common_days m ->
    1900 < parseDigits ystr <= 9999 ->
    reads_date (parseFrenchFallback today q)
               (iso_date (parseDigits ystr) m (parseDigits dstr)).
Proof.
  intros today q dstr mo ystr m Hq Hmonth Hday Hyear.
  apply (@parseFrenchFallback_date today q _ _ Hq). apply date_with_year; assumption.
Qed.

Lemma heuristic_date_with_year_witness :
  reads_date (parseFrenchFallback (noon 2025 6 1) (js "Rando le 5 mars 2020")) (js "2020-03-05").
Proof.
  assert (Hq : dateMatch (js "Rando le 5 mars 2020") = Some (js "5", js "mars", Some (js "2020")))
    by (vm_compute; reflexivity).
  assert (Hmonth : months_get (toLowerCase (js "mars")) = Own 3) by (vm_compute; reflexivity).
  assert (Hday : 1 <= parseDigits (js "5") <= common_days 3) by (vm_compute; split; discriminate).
  assert (Hyear : 1900 < parseDigits (js "2020") <= 9999) by (vm_compute; split; [reflexivity | discriminate]).
  pose proof (@heuristic_date_with_year (noon 2025 6 1) _ _ _ _ _ Hq Hmonth Hday Hyear) as H.
  vm_compute in H. vm_compute. exact H.
Defined.

(** X3.  A query whose date names a month of the table, a day between 1 and
    the length of that month in a common year, and a year from 1 to 1900,
    read in a current year between 100 and 9999: the written year is dropped
    for the current one, and the date is not rolled over even when it lies
    in the past. *)
Theorem heuristic_date_with_old_year : forall today q dstr mo ystr m,
    dateMatch q = Some (dstr, mo, Some ystr) ->
    months_get (toLowerCase mo) = Own m ->
    1 <= parseDigits dstr <= common_days m ->
    1 <= parseDigits ystr <= 1900 ->
    100 <= YearFromTime today <= 9999 ->
    reads_date (parseFrenchFallback today q)
               (iso_date (YearFromTime today) m (parseDigits dstr)).
Proof.
  intros today q dstr mo ystr m Hq Hmonth Hday Hyear HY.
  apply (@parseFrenchFallback_date today q _ _ Hq). apply date_with_old_year; assumption.
Qed.

Lemma heuristic_date_with_old_year_witness :
  reads_date (parseFrenchFallback (noon 2025 6 1) (js "Rando le 5 mars 1800")) (js "2025-03-05").
Proof.
  assert (Hq : dateMatch (js "Rando le 5 mars 1800") = Some (js "5", js "mars", Some (js "1800")))
    by (vm_compute; reflexivity).
  assert (Hmonth : months_get (toLowerCase (js "mars")) = Own 3) by (vm_compute; reflexivity).
  assert (Hday : 1 <= parseDigits (js "5") <= common_days 3) by (vm_compute; split; discriminate).
  assert (Hyear : 1 <= parseDigits (js "1800") <= 1900) by (vm_compute; split; discriminate).
  assert (HY : 100 <= YearFromTime (noon 2025 6 1) <= 9999) by (vm_compute; split; discriminate).
  pose proof (@heuristic_date_with_old_year (noon 2025 6 1) _ _ _ _ _ Hq Hmonth Hday Hyear HY) as H.
  vm_compute in H. vm_compute. exact H.
Defined.

(** X4.  A query whose date carries the year 0: the date is the one read
    when no year is written, rollover included. *)
Theorem heuristic_date_with_year_zero : forall today q dstr mo ystr d,
    dateMatch q = Some (dstr, mo, Some ystr) ->
    parseDigits ystr = 0 ->
    dateOfMatch today (dstr, mo, None) = ok (Some d) ->
    reads_date (parseFrenchFallback today q) d.
Proof.
  intros today q dstr mo ystr d Hq Hy Hd.
  apply (@parseFrenchFallback_date today q _ _ Hq).
  rewrite (@date_with_year_zero today dstr mo ystr Hy). exact Hd.
Qed.

Lemma heuristic_date_with_year_zero_witness :
  reads_date (parseFrenchFallback (noon 2025 6 1) (js "Rando le 5 mars 0000")) (js "2026-03-05").
Proof.
  assert (Hq : dateMatch (js "Rando le 5 mars 0000") = Some (js "5", js "mars", Some (js "0000")))
    by (vm_compute; reflexivity).
  assert (Hy : parseDigits (js "0000") = 0) by (vm_compute; reflexivity).
  assert (Hd : dateOfMatch (noon 2025 6 1) (js "5", js "mars", None) = ok (Some (js "2026-03-05")))
    by (vm_compute; reflexivity).
  exact (@heuristic_date_with_year_zero (noon 2025 6 1) _ _ _ _ _ Hq Hy Hd).
Defined.

End Calendar.

(** A day outside its month is not refused: [Date.UTC] carries it over to
    the neighbouring month, and to the neighbouring year.  Read on
    2025-06-01: the 0th of January of an old year is the last day of 2024,
    and stays in the past; its 99th of December is the 9th of March 2026;
    the 31st of April, without a year, is the 1st of May, which is past and
    is rolled over to 2026. *)
Example day_outside_its_month_overflows :
  option_map dateISO (of_result (parseFrenchFallback (noon 2025 6 1) (js "le 0 janvier 1800")))
  = Some (Some (js "2024-12-31"))
  /\ option_map dateISO
                (of_result (parseFrenchFallback (noon 2025 6 1) (js "le 99 décembre 1800")))
     = Some (Some (js "2026-03-09"))
  /\ option_map dateISO (of_result (parseFrenchFallback (noon 2025 6 1) (js "le 31 avril")))
     = Some (Some (js "2026-05-01")).
Proof.
  repeat split; vm_compute; reflexivity.
Qed.

(* ------------------------------------------------------------------ *)
(** * Double-precision rounding

    What the proofs below use of the rounding to the nearest double: it is
    monotone, it leaves the integers below [2^53] alone, and so it never
    crosses one of them. *)

Section DoubleFacts.
Import Double.


Lemma rne_bounds : forall t, (Qfloor t <= rne t <= Qfloor t + 1)%Z.
Proof.
  intros t. unfold rne. cbv zeta.
  destruct (Qcompare _ _); [destruct (Z.even _) | |]; lia.
Qed.

Lemma rne_comp : forall t u, t == u -> rne t = rne u.
Proof.
  intros t u H. unfold rne. cbv zeta. rewrite (Qfloor_comp t u H).
  assert (Hc : Qcompare (t - inject_Z (Qfloor u)) (1 # 2)
               = Qcompare (u - inject_Z (Qfloor u)) (1 # 2)).
  { apply Qcompare_comp; [rewrite H; reflexivity | reflexivity]. }
  rewrite Hc. reflexivity.
Qed.

Lemma rne_Z : forall j, rne (inject_Z j) = j.
Proof.
  intros j. unfold rne. cbv zeta. rewrite Qfloor_Z.
  assert (Hc : Qcompare (inject_Z j - inject_Z j) (1 # 2) = Lt).
  { apply Qlt_alt. assert (inject_Z j - inject_Z j == 0) by ring. rewrite H. reflexivity. }
  rewrite Hc. reflexivity.
Qed.

Lemma rne_ge_Z : forall t j, inject_Z j <= t -> (j <= rne t)%Z.
Proof.
  intros t j H. apply Qfloor_resp_le in H. rewrite Qfloor_Z in H.
  pose proof (rne_bounds t). lia.
Qed.

Lemma rne_le_Z : forall t j, t <= inject_Z j -> (rne t <= j)%Z.
Proof.
  intros t j H. pose proof (Qfloor_resp_le _ _ H) as Hf. rewrite Qfloor_Z in Hf.
  pose proof (rne_bounds t) as Hb.
  destruct (Z.eq_dec (Qfloor t) j) as [E | N]; [| lia].
  assert (Ht : t == inject_Z j).
  { apply Qle_antisym; [exact H |]. rewrite <- E. apply Qfloor_le. }
  rewrite (rne_comp Ht), rne_Z. lia.
Qed.

Lemma rne_mono : forall t u, t <= u -> (rne t <= rne u)%Z.
Proof.
  intros t u H. pose proof (Qfloor_resp_le _ _ H) as Hf.
  pose proof (rne_bounds t) as Ht. pose proof (rne_bounds u) as Hu.
  destruct (Z.eq_dec (Qfloor t) (Qfloor u)) as [E | N]; [| lia].
  unfold rne in *. cbv zeta in *. rewrite <- E in *.
  set (k := Qfloor t) in *.
  destruct (Qcompare_spec (t - inject_Z k) (1 # 2)) as [Et | Lt | Gt];
    destruct (Qcompare_spec (u - inject_Z k) (1 # 2)) as [Eu | Lu | Gu];
    try (destruct (Z.even k)); try lia; exfalso; lra.
Qed.

(** ** The order of magnitude *)

Lemma pow2_pos : forall e, 0 < 2 ^ e.
Proof. intros e. apply Qpower_0_lt. reflexivity. Qed.

Lemma pow2_le : forall a b, (a <= b)%Z -> 2 ^ a <= 2 ^ b.
Proof. intros a b H. apply Qpower_le_compat_l; [exact H | discriminate]. Qed.

Lemma pow2_lt_inv : forall a b, 2 ^ a < 2 ^ b -> (a < b)%Z.
Proof. intros a b H. apply (Qpower_lt_compat_l_inv 2); [exact H | reflexivity]. Qed.

Lemma pow2_add : forall a b, 2 ^ (a + b) == 2 ^ a * 2 ^ b.
Proof. intros a b. apply Qpower_plus. discriminate. Qed.

Lemma pow2_Z : forall n, (0 <= n)%Z -> inject_Z (2 ^ n) == 2 ^ n.
Proof. intros n H. apply (Zpower_Qpower 2 n H). Qed.

Lemma pow2_sub : forall a b, 2 ^ (a - b) == 2 ^ a / 2 ^ b.
Proof.
  intros a b. unfold Z.sub. rewrite pow2_add, Qpower_opp. reflexivity.
Qed.

Lemma ilog2_spec : forall x, 0 < x -> 2 ^ ilog2 x <= x /\ x < 2 ^ (ilog2 x + 1).
Proof.
  intros [n d] Hx. unfold ilog2. cbn [Qnum Qden].
  assert (Hn : (0 < n)%Z) by (unfold Qlt in Hx; cbn in Hx; lia).
  set (ln := Z.log2 n). set (ld := Z.log2 (Z.pos d)).
  destruct (Z.log2_spec n Hn) as [Hn1 Hn2]. fold ln in Hn1, Hn2.
  destruct (Z.log2_spec (Z.pos d) (Pos2Z.is_pos d)) as [Hd1 Hd2]. fold ld in Hd1, Hd2.
  assert (Hln : (0 <= ln)%Z) by apply Z.log2_nonneg.
  assert (Hld : (0 <= ld)%Z) by apply Z.log2_nonneg.
  assert (Hx' : n # d == inject_Z n / inject_Z (Z.pos d)) by apply Qmake_Qdiv.
  assert (Hdpos : 0 < inject_Z (Z.pos d)) by (unfold Qlt; cbn; lia).
  (* the number lies between 2^(e0-1) and 2^(e0+1) *)
  assert (Hlow : 2 ^ (ln - ld - 1) <= n # d).
  { rewrite Hx'. apply Qle_shift_div_l; [exact Hdpos |].
    assert (E : 2 ^ (ln - ld - 1) == 2 ^ ln / 2 ^ (ld + 1)).
    { rewrite <- pow2_sub. f_equiv. lia. }
    rewrite E. apply Qle_trans with (2 ^ ln / 2 ^ (ld + 1) * 2 ^ (ld + 1)).
    - apply Qmult_le_l.
      + apply Qlt_shift_div_l; [apply pow2_pos |]. rewrite Qmult_0_l. apply pow2_pos.
      + rewrite <- pow2_Z by lia. rewrite <- Zle_Qle. lia.
    - assert (E2 : 2 ^ ln / 2 ^ (ld + 1) * 2 ^ (ld + 1) == 2 ^ ln).
      { field. intros H0. pose proof (pow2_pos (ld + 1)) as Hp. rewrite H0 in Hp.
        discriminate Hp. }
      rewrite E2. rewrite <- pow2_Z by lia. rewrite <- Zle_Qle. exact Hn1. }
  assert (Hhigh : n # d < 2 ^ (ln - ld + 1)).
  { rewrite Hx'. apply Qlt_shift_div_r; [exact Hdpos |].
    assert (E : 2 ^ (ln - ld + 1) == 2 ^ (ln + 1) / 2 ^ ld).
    { rewrite <- pow2_sub. f_equiv. lia. }
    rewrite E. apply Qlt_le_trans with (2 ^ (ln + 1)).
    - rewrite <- pow2_Z by lia. rewrite <- Zlt_Qlt. lia.
    - assert (E2 : 2 ^ (ln + 1) == 2 ^ (ln + 1) / 2 ^ ld * 2 ^ ld).
      { field. intros H0. pose proof (pow2_pos ld) as Hp. rewrite H0 in Hp.
        discriminate Hp. }
      rewrite E2 at 1. apply Qmult_le_l.
      + apply Qlt_shift_div_l; [apply pow2_pos |]. rewrite Qmult_0_l. apply pow2_pos.
      + rewrite <- pow2_Z by lia. rewrite <- Zle_Qle. exact Hd1. }
  destruct (Qle_bool (2 ^ (ln - ld)) (n # d)) eqn:Hb.
  - apply Qle_bool_iff in Hb. split; [exact Hb | exact Hhigh].
  - assert (Hlt : n # d < 2 ^ (ln - ld)).
    { apply Qnot_le_lt. rewrite <- Qle_bool_iff. congruence. }
    split; [exact Hlow |]. replace (ln - ld - 1 + 1)%Z with (ln - ld)%Z by lia. exact Hlt.
Qed.

Lemma ilog2_unique : forall x e, 2 ^ e <= x -> x < 2 ^ (e + 1) -> ilog2 x = e.
Proof.
  intros x e H1 H2.
  assert (Hx : 0 < x) by (apply Qlt_le_trans with (2 ^ e); [apply pow2_pos | exact H1]).
  destruct (ilog2_spec Hx) as [H3 H4].
  assert (A : (ilog2 x < e + 1)%Z) by (apply pow2_lt_inv; eapply Qle_lt_trans; eassumption).
  assert (B : (e < ilog2 x + 1)%Z) by (apply pow2_lt_inv; eapply Qle_lt_trans; eassumption).
  lia.
Qed.

Lemma ilog2_mono : forall x y, 0 < x -> x <= y -> (ilog2 x <= ilog2 y)%Z.
Proof.
  intros x y Hx Hxy.
  assert (Hy : 0 < y) by (eapply Qlt_le_trans; eassumption).
  destruct (ilog2_spec Hx) as [H1 _]. destruct (ilog2_spec Hy) as [_ H2].
  assert (A : (ilog2 x < ilog2 y + 1)%Z).
  { apply pow2_lt_inv. eapply Qle_lt_trans; [exact H1 |]. eapply Qle_lt_trans; eassumption. }
  lia.
Qed.

(** ** The nearest double *)

Lemma ulp_exp_mono : forall x y, 0 < x -> x <= y -> (ulp_exp x <= ulp_exp y)%Z.
Proof.
  intros x y Hx Hxy. unfold ulp_exp. pose proof (ilog2_mono Hx Hxy). lia.
Qed.

Lemma scaled_pos : forall x q, 0 < x -> 0 < x / 2 ^ q.
Proof.
  intros x q Hx. apply Qlt_shift_div_l; [apply pow2_pos |]. rewrite Qmult_0_l. exact Hx.
Qed.

Lemma scaled_lt : forall x, 0 < x -> x / 2 ^ ulp_exp x < 2 ^ 53.
Proof.
  intros x Hx. apply Qlt_shift_div_r; [apply pow2_pos |].
  rewrite <- pow2_add. destruct (ilog2_spec Hx) as [_ H].
  eapply Qlt_le_trans; [exact H |]. apply pow2_le. unfold ulp_exp. lia.
Qed.

Lemma scaled_ge : forall x, 0 < x -> (-1022 <= ilog2 x)%Z -> 2 ^ 52 <= x / 2 ^ ulp_exp x.
Proof.
  intros x Hx Hn. apply Qle_shift_div_l; [apply pow2_pos |].
  rewrite <- pow2_add. destruct (ilog2_spec Hx) as [H _].
  eapply Qle_trans; [| exact H]. apply pow2_le. unfold ulp_exp. lia.
Qed.

Lemma nearest_nonneg : forall x, 0 < x -> 0 <= nearest x.
Proof.
  intros x Hx. unfold nearest. cbv zeta.
  apply Qmult_le_0_compat; [| apply Qlt_le_weak, pow2_pos].
  change 0 with (inject_Z 0). rewrite <- Zle_Qle. apply rne_ge_Z.
  apply Qlt_le_weak, scaled_pos, Hx.
Qed.

Lemma nearest_le : forall x, 0 < x -> nearest x <= 2 ^ (ulp_exp x + 53).
Proof.
  intros x Hx. unfold nearest. cbv zeta. rewrite Z.add_comm, pow2_add.
  apply Qmult_le_compat_r; [| apply Qlt_le_weak, pow2_pos].
  rewrite <- (pow2_Z (n := 53)) by lia. rewrite <- Zle_Qle. apply rne_le_Z.
  rewrite (pow2_Z (n := 53)) by lia. apply Qlt_le_weak, scaled_lt, Hx.
Qed.

Lemma nearest_ge : forall x,
  0 < x -> (-1022 <= ilog2 x)%Z -> 2 ^ (ulp_exp x + 52) <= nearest x.
Proof.
  intros x Hx Hn. unfold nearest. cbv zeta. rewrite Z.add_comm, pow2_add.
  apply Qmult_le_compat_r; [| apply Qlt_le_weak, pow2_pos].
  rewrite <- (pow2_Z (n := 52)) by lia. rewrite <- Zle_Qle. apply rne_ge_Z.
  rewrite (pow2_Z (n := 52)) by lia. apply scaled_ge; assumption.
Qed.

Lemma nearest_mono : forall x y, 0 < x -> x <= y -> nearest x <= nearest y.
Proof.
  intros x y Hx Hxy.
  assert (Hy : 0 < y) by (eapply Qlt_le_trans; eassumption).
  pose proof (ulp_exp_mono Hx Hxy) as Hq.
  destruct (Z.eq_dec (ulp_exp x) (ulp_exp y)) as [E | N].
  - unfold nearest. cbv zeta. rewrite E.
    apply Qmult_le_compat_r; [| apply Qlt_le_weak, pow2_pos].
    rewrite <- Zle_Qle. apply rne_mono.
    apply Qmult_le_compat_r; [exact Hxy |].
    apply Qlt_le_weak, Qinv_lt_0_compat, pow2_pos.
  - assert (Hn : (-1022 <= ilog2 y)%Z) by (unfold ulp_exp in *; lia).
    eapply Qle_trans; [apply nearest_le, Hx |].
    eapply Qle_trans; [| apply nearest_ge; assumption].
    apply pow2_le. lia.
Qed.

Lemma nearest_comp : forall x y, 0 < x -> x == y -> nearest x == nearest y.
Proof.
  intros x y Hx H. unfold nearest. cbv zeta.
  assert (Hq : ulp_exp x = ulp_exp y).
  { unfold ulp_exp. f_equal. f_equal.
    destruct (ilog2_spec Hx) as [A B]. symmetry.
    apply ilog2_unique; rewrite <- H; assumption. }
  rewrite Hq, (rne_comp (t := x / 2 ^ ulp_exp y) (u := y / 2 ^ ulp_exp y)).
  - reflexivity.
  - rewrite H. reflexivity.
Qed.

(** ** Rounding *)

Lemma round_comp : forall x y, x == y -> round x == round y.
Proof.
  intros x y H. unfold round.
  assert (Hc : Qcompare x 0 = Qcompare y 0) by (apply Qcompare_comp; [exact H | reflexivity]).
  rewrite <- Hc. destruct (Qcompare_spec x 0) as [E | L | G].
  - reflexivity.
  - apply Qopp_comp, nearest_comp; [lra | rewrite H; reflexivity].
  - apply nearest_comp; assumption.
Qed.

Lemma fl_comp : forall x y, x == y -> fl x = fl y.
Proof. intros x y H. apply Qred_complete, round_comp, H. Qed.

Lemma fl_round : forall x, fl x == round x.
Proof. intros x. apply Qred_correct. Qed.

Lemma round_mono : forall x y, x <= y -> round x <= round y.
Proof.
  intros x y H. unfold round.
  destruct (Qcompare_spec x 0) as [Ex | Lx | Gx];
    destruct (Qcompare_spec y 0) as [Ey | Ly | Gy]; try (exfalso; lra).
  - lra.
  - apply nearest_nonneg, Gy.
  - assert (A : 0 <= nearest (- x)) by (apply nearest_nonneg; lra). lra.
  - assert (A : nearest (- y) <= nearest (- x)) by (apply nearest_mono; lra). lra.
  - assert (A : 0 <= nearest (- x)) by (apply nearest_nonneg; lra).
    assert (B : 0 <= nearest y) by (apply nearest_nonneg; lra). lra.
  - apply nearest_mono; assumption.
Qed.

Lemma fl_mono : forall x y, x <= y -> fl x <= fl y.
Proof. intros x y H. rewrite !fl_round. apply round_mono, H. Qed.

(** A number on the grid of its own magnitude is a double. *)
Lemma nearest_grid : forall x m,
  0 < x -> x == inject_Z m * 2 ^ ulp_exp x -> nearest x == x.
Proof.
  intros x m Hx H. unfold nearest. cbv zeta.
  assert (E : x / 2 ^ ulp_exp x == inject_Z m).
  { rewrite H at 1. field. intros H0. pose proof (pow2_pos (ulp_exp x)) as Hp.
    rewrite H0 in Hp. discriminate Hp. }
  rewrite (rne_comp E), rne_Z. symmetry. exact H.
Qed.

Lemma ilog2_Z : forall k, (0 < k)%Z -> ilog2 (inject_Z k) = Z.log2 k.
Proof.
  intros k Hk. destruct (Z.log2_spec k Hk) as [A B].
  pose proof (Z.log2_nonneg k) as Hn.
  apply ilog2_unique.
  - rewrite <- pow2_Z by lia. rewrite <- Zle_Qle. exact A.
  - rewrite <- pow2_Z by lia. rewrite <- Zlt_Qlt. replace (Z.log2 k + 1)%Z with (Z.succ (Z.log2 k)) by lia. exact B.
Qed.

Lemma nearest_Z : forall k, (0 < k < 2 ^ 53)%Z -> nearest (inject_Z k) == inject_Z k.
Proof.
  intros k Hk.
  assert (Hx : 0 < inject_Z k) by (change 0 with (inject_Z 0); rewrite <- Zlt_Qlt; lia).
  assert (Hl : (0 <= Z.log2 k < 53)%Z).
  { split; [apply Z.log2_nonneg |]. apply Z.log2_lt_pow2; lia. }
  assert (Hq : ulp_exp (inject_Z k) = (Z.log2 k - 52)%Z).
  { unfold ulp_exp. rewrite ilog2_Z by lia. lia. }
  apply nearest_grid with (m := (k * 2 ^ (52 - Z.log2 k))%Z); [exact Hx |].
  rewrite Hq, inject_Z_mult, pow2_Z by lia.
  rewrite <- Qmult_assoc, <- pow2_add.
  replace (52 - Z.log2 k + (Z.log2 k - 52))%Z with 0%Z by lia.
  change (2 ^ 0) with 1. ring.
Qed.

Lemma round_Z : forall k, (Z.abs k < 2 ^ 53)%Z -> round (inject_Z k) == inject_Z k.
Proof.
  intros k Hk. unfold round.
  destruct (Qcompare_spec (inject_Z k) 0) as [E | L | G].
  - symmetry. exact E.
  - assert (Hn : (k < 0)%Z) by (rewrite Zlt_Qlt; exact L).
    assert (E : - inject_Z k == inject_Z (- k)) by (rewrite inject_Z_opp; reflexivity).
    rewrite (nearest_comp (x := - inject_Z k) (y := inject_Z (- k))); [| lra | exact E].
    rewrite nearest_Z by lia. rewrite inject_Z_opp. ring.
  - assert (Hn : (0 < k)%Z) by (rewrite Zlt_Qlt; exact G).
    apply nearest_Z. lia.
Qed.

(** Every integer below 2^53 in magnitude is a double. *)
Lemma fl_Z : forall k, (Z.abs k < 2 ^ 53)%Z -> fl (inject_Z k) = inject_Z k.
Proof.
  intros k Hk.
  assert (E : inject_Z k = Qred (inject_Z k)).
  { unfold Qred, inject_Z.
    pose proof (Z.ggcd_gcd k 1) as Hg. pose proof (Z.ggcd_correct_divisors k 1) as Hd.
    destruct (Z.ggcd k 1) as [g [aa bb]]. cbn [fst snd] in *.
    rewrite Z.gcd_1_r in Hg. subst g. destruct Hd as [Ha Hb].
    replace aa with k by lia. replace bb with 1%Z by lia. reflexivity. }
  rewrite E at 2. apply Qred_complete, round_Z, Hk.
Qed.

(** So rounding never crosses such an integer. *)
Lemma fl_le_Z : forall x k, (Z.abs k < 2 ^ 53)%Z -> x <= inject_Z k -> fl x <= inject_Z k.
Proof. intros x k Hk H. rewrite <- (@fl_Z k Hk). apply fl_mono, H. Qed.

Lemma fl_ge_Z : forall x k, (Z.abs k < 2 ^ 53)%Z -> inject_Z k <= x -> inject_Z k <= fl x.
Proof. intros x k Hk H. rewrite <- (@fl_Z k Hk). apply fl_mono, H. Qed.


Lemma fl_nonneg : forall x, 0 <= x -> 0 <= fl x.
Proof. intros x H. apply (@fl_ge_Z x 0%Z); [reflexivity | exact H]. Qed.

Lemma add_mono : forall a a' b b', a <= a' -> b <= b' -> add a b <= add a' b'.
Proof.
  intros a a' b b' Ha Hb. unfold add. apply fl_mono.
  pose proof (fl_mono Ha). pose proof (fl_mono Hb). lra.
Qed.

Lemma sub_mono : forall a a' b b', a <= a' -> b' <= b -> sub a b <= sub a' b'.
Proof.
  intros a a' b b' Ha Hb. unfold sub. apply fl_mono.
  pose proof (fl_mono Ha). pose proof (fl_mono Hb). lra.
Qed.

Lemma mul_mono : forall a a' b b',
    0 <= a -> a <= a' -> 0 <= b -> b <= b' -> mul a b <= mul a' b'.
Proof.
  intros a a' b b' Ha0 Ha Hb0 Hb. unfold mul. apply fl_mono.
  pose proof (fl_nonneg Ha0). pose proof (fl_nonneg Hb0).
  pose proof (fl_mono Ha). pose proof (fl_mono Hb). nra.
Qed.

Lemma mul_nonneg : forall a b, 0 <= a -> 0 <= b -> 0 <= mul a b.
Proof.
  intros a b Ha Hb. unfold mul. apply fl_nonneg.
  pose proof (fl_nonneg Ha). pose proof (fl_nonneg Hb). nra.
Qed.

Lemma add_nonneg : forall a b, 0 <= a -> 0 <= b -> 0 <= add a b.
Proof.
  intros a b Ha Hb. unfold add. apply fl_nonneg.
  pose proof (fl_nonneg Ha). pose proof (fl_nonneg Hb). lra.
Qed.

Lemma div_nonneg : forall a b, 0 <= a -> 0 <= b -> 0 <= div a b.
Proof.
  intros a b Ha Hb. unfold div. apply fl_nonneg.
  pose proof (fl_nonneg Ha) as Ha'. pose proof (fl_nonneg Hb) as Hb'.
  destruct (Qlt_le_dec 0 (fl b)) as [Hp | Hz].
  - apply Qle_shift_div_l; [exact Hp | lra].
  - assert (E : fl b == 0) by lra. rewrite E. unfold Qdiv. rewrite Qmult_comm.
    change (/ 0) with 0. lra.
Qed.

(** The rounding error is at most half the spacing of the doubles around
    the number. *)
Lemma rne_error : forall t, Qabs (inject_Z (rne t) - t) <= 1 # 2.
Proof.
  intros t. pose proof (Qfloor_le t) as Hlo. pose proof (Qlt_floor t) as Hhi.
  rewrite inject_Z_plus in Hhi. change (inject_Z 1) with 1 in Hhi.
  apply Qabs_Qle_condition. unfold rne. cbv zeta.
  set (k := Qfloor t) in *.
  destruct (Qcompare_spec (t - inject_Z k) (1 # 2)) as [E | L | G].
  - destruct (Z.even k); [| rewrite inject_Z_plus; change (inject_Z 1) with 1]; split; lra.
  - split; lra.
  - rewrite inject_Z_plus. change (inject_Z 1) with 1. split; lra.
Qed.

Lemma nearest_error : forall x,
    0 < x -> Qabs (nearest x - x) <= 2 ^ ulp_exp x * (1 # 2).
Proof.
  intros x Hx. unfold nearest. cbv zeta. set (q := ulp_exp x).
  pose proof (pow2_pos q) as Hq.
  assert (E : inject_Z (rne (x / 2 ^ q)) * 2 ^ q - x
              == (inject_Z (rne (x / 2 ^ q)) - x / 2 ^ q) * 2 ^ q) by (field; lra).
  rewrite E, Qabs_Qmult, (Qabs_pos (2 ^ q)) by lra.
  rewrite (Qmult_comm (2 ^ q)). apply Qmult_le_compat_r; [apply rne_error | lra].
Qed.

Lemma fl_error : forall x, Qabs (fl x - x) <= 2 ^ ulp_exp (Qabs x) * (1 # 2).
Proof.
  intros x. rewrite fl_round. unfold round.
  destruct (Qcompare_spec x 0) as [E | L | G].
  - assert (E0 : 0 - x == 0) by lra. rewrite E0. cbn [Qabs Z.abs Qnum].
    pose proof (pow2_pos (ulp_exp (Qabs x))). lra.
  - assert (Hn : 0 < - x) by lra.
    assert (Ha : Qabs x = - x).
    { destruct x as [[| n | n] d]; unfold Qlt in L; cbn in L; try lia. reflexivity. }
    rewrite Ha.
    assert (E : - nearest (- x) - x == - (nearest (- x) - - x)) by ring.
    rewrite E, Qabs_opp. apply nearest_error, Hn.
  - assert (Ha : Qabs x = x).
    { destruct x as [[| n | n] d]; unfold Qlt in G; cbn in G; try lia. reflexivity. }
    rewrite Ha. apply nearest_error, G.
Qed.

Lemma one_le_add_one : forall e, 0 <= e -> 1 <= add 1 e.
Proof.
  intros e He. unfold add. apply (@fl_ge_Z _ 1%Z); [reflexivity |].
  assert (H1 : fl 1 = 1) by (apply (@fl_Z 1%Z); reflexivity).
  assert (H0 : 0 <= fl e) by (apply fl_nonneg; exact He).
  rewrite H1. change (inject_Z 1) with 1. lra.
Qed.

(** A quotient does not grow with its divisor. *)
Lemma div_antitone : forall a b b', 0 <= a -> 1 <= b' -> b' <= b -> div a b <= div a b'.
Proof.
  intros a b b' Ha Hb' Hb. unfold div. apply fl_mono.
  pose proof (fl_nonneg Ha) as Hx.
  assert (Hy' : 1 <= fl b') by (apply (@fl_ge_Z b' 1%Z); [reflexivity | exact Hb']).
  pose proof (fl_mono Hb) as Hy.
  set (x := fl a) in *. set (y := fl b) in *. set (y' := fl b') in *.
  apply Qle_shift_div_r; [lra |].
  assert (E : x / y' * y' == x) by (field; lra).
  assert (H0 : 0 <= x / y') by (apply Qle_shift_div_l; lra).
  nra.
Qed.

End DoubleFacts.

(** Double arithmetic on known values: 0.1 is not a double, and its sum with
    0.2 is the double above 0.3; the products behind the rain risk lie just
    below a half; above [2^53] the odd integers are ties, which go to the
    even significand; below [2^-1074] the numbers round to 0 or to the
    smallest double. *)
Example double_arithmetic_runs :
  Double.fl (1 # 10) = 3602879701896397 # 36028797018963968
  /\ Double.add (1 # 10) (2 # 10) = 1351079888211149 # 4503599627370496
  /\ Double.sub (3 # 10) (1 # 10) = 7205759403792793 # 36028797018963968
  /\ Double.mul (7 # 10) 45 = 8866461766385663 # 281474976710656
  /\ Double.mul 50 (115 # 100) = 8092405580431359 # 140737488355328
  /\ Double.div 1 3 = 6004799503160661 # 18014398509481984
  /\ Double.div 100 3 = 4691249611844267 # 140737488355328
  /\ Double.fl 9007199254740993 = 9007199254740992
  /\ Double.fl (- 9007199254740995) = - 9007199254740996
  /\ Double.fl (1 # 2 ^ 1075) = 0
  /\ Double.fl (3 # 2 ^ 1075) = 1 # 2 ^ 1073.
Proof.
  repeat split; vm_compute; reflexivity.
Qed.

(* ------------------------------------------------------------------ *)
(** * Rounding to an integer *)

Lemma Math_round_comp : forall x y, x == y -> Math_round x = Math_round y.
Proof.
  intros x y H. unfold Math_round. f_equal. apply Qfloor_comp. rewrite H. reflexivity.
Qed.

Lemma Math_round_le : forall x y, x <= y -> Math_round x <= Math_round y.
Proof.
  intros x y H. unfold Math_round. rewrite <- Zle_Qle. apply Qfloor_resp_le. lra.
Qed.

Lemma Math_round_Z : forall n : Z, Math_round (inject_Z n) = inject_Z n.
Proof.
  intros n. unfold Math_round. f_equal.
  unfold Qfloor, Qplus, inject_Z. cbn [Qnum Qden].
  simpl. symmetry; apply Z.div_unique with (r := 1%Z); lia.
Qed.

Lemma count_pos : forall n, (0 < n)%nat -> 0 < count n.
Proof.
  intros n H. unfold count. change 0 with (inject_Z 0). rewrite <- Zlt_Qlt. lia.
Qed.

(* ------------------------------------------------------------------ *)
(** * C3: the climatology of the successful years *)

(** A year counts as rainy when its precipitation is at least 1 mm. *)
Definition rainy (v : YearSample) : bool := ge (nullish_or (p v) 0) 1.

(** The mean of a series as double arithmetic gives it: the values are added
    from left to right, one that is missing counting as 0, and the sum is
    divided by the number of entries. *)
Definition mean (l : list (option Q)) : Q := Double.div (sum l) (count (List.length l)).

(** A number rounded to one decimal, in double arithmetic. *)
Definition one_decimal (x : Q) : Q := Double.div (Math_round (Double.mul x 10)) 10.

Lemma yearsOf_length : forall target yearsBack, List.length (yearsOf target yearsBack) = yearsBack.
Proof.
  intros. unfold yearsOf, yearsBefore. rewrite length_map, length_seq. reflexivity.
Qed.

Lemma fulfilled_ok : forall A (values : list A), fulfilled (map (fun v => ok v) values) = values.
Proof.
  intros A values. unfold fulfilled.
  induction values as [| v values IH]; [reflexivity |]. cbn. f_equal. exact IH.
Qed.

Lemma fulfilled_length : forall A (results : list (result A)),
    (List.length (fulfilled results) <= List.length results)%nat.
Proof.
  intros A results. unfold fulfilled.
  induction results as [| [v | e] results IH]; cbn; lia.
Qed.

(** The share of [r] years out of [n], in percent: the double arithmetic of
    the code, [Math.round((r / n) * 100)], against the rounding of the exact
    quotient. *)
Definition share_agrees (n r : nat) : bool :=
  (Qfloor (Double.mul (Double.div (count r) (count n)) 100 + (1 # 2))
   =? Qfloor (100 * count r / count n + (1 # 2)))%Z.

Definition shares_agree_upto (m : nat) : bool :=
  forallb (fun n => forallb (share_agrees n) (seq 0 (S n))) (seq 1 m).

(** Up to ten years, the rounding errors of the quotient and of the product
    never move the percentage across a half. *)
Lemma share_of_ten : forall n r,
    (1 <= n <= 10)%nat -> (r <= n)%nat ->
    Math_round (Double.mul (Double.div (count r) (count n)) 100)
    = Math_round (100 * count r / count n).
Proof.
  intros n r Hn Hr.
  assert (Hall : shares_agree_upto 10 = true) by (vm_compute; reflexivity).
  unfold shares_agree_upto in Hall. rewrite forallb_forall in Hall.
  assert (Hin : In n (seq 1 10)) by (apply in_seq; lia).
  specialize (Hall n Hin). rewrite forallb_forall in Hall.
  assert (Hir : In r (seq 0 (S n))) by (apply in_seq; lia).
  specialize (Hall r Hir). unfold share_agrees in Hall.
  apply Z.eqb_eq in Hall. unfold Math_round. f_equal. exact Hall.
Qed.

(** C3, as the code has it.  Whatever the outcomes of the (at most ten)
    per-year requests, the aggregate is that of the years that succeeded
    alone.  With none, the three outputs are [null].  Otherwise none is
    [null]: the rain probability is [round(100 * rainy years / successful
    years)], the quotient being the exact one; each mean is the sum of the
    successful years' values, a missing value counting as 0, over the number
    of successful years, rounded to one decimal, all in double arithmetic.
    Both historical fetchers return this aggregate of their ten per-year
    requests. *)
Theorem climatology_of_successful_years : forall results,
    (List.length results <= 10)%nat ->
    let values := fulfilled results in
    let successfulYears := List.length values in
    let rainyYears := List.length (filter rainy values) in
    aggregateYears results = aggregateYears (map (fun v => ok v) values)
    /\ (successfulYears = 0%nat -> aggregateYears results = no_climatology)
    /\ (successfulYears <> 0%nat ->
        histProb (aggregateYears results)
        = Some (Math_round (100 * count rainyYears / count successfulYears))
        /\ meanTemp (aggregateYears results) = Some (one_decimal (mean (map t values)))
        /\ meanWind (aggregateYears results) = Some (one_decimal (mean (map w values))))
    /\ (forall parse power lat lon d,
           let target := new_Date parse d in
           let outcomes := map (fetchOnePOWER power lat lon (monthOf target) (dayOf target))
                               (yearsOf target 10) in
           List.length outcomes = 10%nat
           /\ fetchHistoricalPOWERForDay parse power lat lon d 10 = ok (aggregateYears outcomes))
    /\ (forall parse era5 lat lon d,
           let target := new_Date parse d in
           let outcomes := map (fetchOneERA5 era5 lat lon (monthOf target) (dayOf target))
                               (yearsOf target 10) in
           List.length outcomes = 10%nat
           /\ fetchHistoricalERA5ForDay parse era5 lat lon d 10 = ok (aggregateYears outcomes)).
Proof.
  intros results Hlen values successfulYears rainyYears.
  pose proof (fulfilled_length results) as Hful. fold values in Hful.
  split; [| split; [| split; [| split]]].
  - unfold aggregateYears. rewrite fulfilled_ok. reflexivity.
  - intros H0. unfold aggregateYears. fold values.
    destruct values; [reflexivity | discriminate].
  - intros Hn. unfold aggregateYears. fold values. fold rainy.
    subst successfulYears rainyYears.
    destruct values as [| v vs] eqn:Hv; [exfalso; apply Hn; reflexivity |].
    cbn [histProb meanTemp meanWind]. unfold one_decimal, mean. rewrite !length_map.
    split; [| split; reflexivity].
    f_equal. apply share_of_ten; [cbn [List.length] in *; lia | apply filter_length_le].
  - intros. split; [unfold outcomes; rewrite length_map; apply yearsOf_length | reflexivity].
  - intros. split; [unfold outcomes; rewrite length_map; apply yearsOf_length | reflexivity].
Qed.

(** The means as the specification words them: the arithmetic mean of the
    values the successful years carry. *)
Definition present (l : list (option Q)) : list Q :=
  flat_map (fun o => match o with Some v => [v] | None => [] end) l.

Definition stated_mean (l : list (option Q)) : option Q :=
  match present l with
  | [] => None
  | vs => Some (one_decimal (mean (map Some vs)))
  end.

(** Two years succeed; one reports 20 degrees and 3 m/s, the other reports
    no value at all. *)
Definition two_years : list (result YearSample) :=
  [ok {| p := Some 0; t := Some 20; w := Some 3 |};
   ok {| p := None; t := None; w := None |};
   throw "POWER fetch failed (500)"].

(** The mean temperature of the one value is 20; the code answers 10, and
    1.5 m/s for the wind. *)
Lemma missing_value_counts_as_zero :
  meanTemp (aggregateYears two_years) = Some 10
  /\ meanWind (aggregateYears two_years) = Some (3 # 2)
  /\ stated_mean (map t (fulfilled two_years)) = Some 20
  /\ meanTemp (aggregateYears two_years) <> stated_mean (map t (fulfilled two_years)).
Proof.
  repeat split; try (vm_compute; reflexivity).
  vm_compute. discriminate.
Qed.

(** The three outcomes of [two_years] are within the ten of a request, and
    their aggregate is the one the theorem gives. *)
Lemma climatology_of_successful_years_witness :
  (List.length two_years <= 10)%nat
  /\ aggregateYears two_years
     = {| histProb := Some 0; meanTemp := Some 10; meanWind := Some (3 # 2) |}.
Proof.
  assert (Hlen : (List.length two_years <= 10)%nat) by (cbn; lia).
  split; [exact Hlen |].
  destruct (@climatology_of_successful_years two_years Hlen) as (Hsame & _ & Hsome & _).
  rewrite Hsame. vm_compute. reflexivity.
Defined.

(** A year that succeeds without any value yields zeros, not [null]. *)
Lemma empty_year_yields_zeros :
  aggregateYears [ok {| p := None; t := None; w := None |}]
  = {| histProb := Some 0; meanTemp := Some 0; meanWind := Some 0 |}.
Proof.
  vm_compute. reflexivity.
Qed.

(** The means are those of double arithmetic: for 0.02 and 20.08 degrees the
    sum is the double just below 20.1, its half times ten lies just below
    100.5, and the mean reads 10.0; the exact mean 10.05 would read 10.1. *)
Lemma means_are_rounded_as_doubles :
  let years := [ok {| p := None; t := Some (2 # 100); w := None |};
                ok {| p := None; t := Some (2008 # 100); w := None |}] in
  meanTemp (aggregateYears years) = Some 10
  /\ Math_round (((2 # 100) + (2008 # 100)) / 2 * 10) / 10 == 101 # 10.
Proof.
  split; vm_compute; reflexivity.
Qed.

(* ------------------------------------------------------------------ *)
(** * C1: the rain risk *)

(** ** Patterns that are alternatives *)

Definition found {A} (o : option A) : bool :=
  match o with Some _ => true | None => false end.

Lemma match_at_Or : forall ic a b pos prev rest,
    found (match_at ic (Or a b) pos prev rest)
    = found (match_at ic a pos prev rest) || found (match_at ic b pos prev rest).
Proof.
  intros. unfold match_at. cbn [run].
  destruct (run ic a Some _); [reflexivity |].
  destruct (run ic b Some _); reflexivity.
Qed.

Lemma search_from_Or : forall ic a b rest pos prev,
    found (search_from ic (Or a b) pos prev rest)
    = found (search_from ic a pos prev rest) || found (search_from ic b pos prev rest).
Proof.
  intros ic a b rest. induction rest as [| c rest IH]; intros pos prev.
  - cbn [search_from]. pose proof (match_at_Or ic a b pos prev []) as H.
    destruct (match_at ic (Or a b) pos prev []), (match_at ic a pos prev []),
      (match_at ic b pos prev []); cbn in *; congruence.
  - cbn [search_from]. pose proof (match_at_Or ic a b pos prev (c :: rest)) as H.
    specialize (IH (S pos) (Some c)).
    destruct (match_at ic (Or a b) pos prev (c :: rest)), (match_at ic a pos prev (c :: rest)),
      (match_at ic b pos prev (c :: rest)); cbn in *;
      solve [congruence | rewrite orb_true_r; reflexivity].
Qed.

Lemma test_found : forall ic r s, test ic r s = found (search ic r s).
Proof. reflexivity. Qed.

(** A pattern [a|b] is found in a string exactly when [a] or [b] is. *)
Lemma test_Or : forall ic a b s, test ic (Or a b) s = test ic a s || test ic b s.
Proof.
  intros. rewrite !test_found. unfold search. apply search_from_Or.
Qed.

(** The activity contains the word, whatever the case of its letters. *)
Definition mentions (w : string) (activity : option jsstring) : bool :=
  match activity with
  | Some a => test true (word w) a
  | None => false
  end.

Lemma is_outdoor_mentions : forall activity,
    is_outdoor activity
    = mentions "vacances" activity || mentions "extérieur" activity
      || mentions "rando" activity || mentions "plage" activity.
Proof.
  intros [a |]; [| reflexivity].
  unfold is_outdoor, mentions, re_outdoor, falsy. cbn [nullish_or alt].
  rewrite !test_Or.
  destruct a as [| c a]; [reflexivity |].
  cbn [truthy negb andb]. rewrite !orb_assoc. reflexivity.
Qed.

(** ** The rule as the specification states it *)

(** [round(0.7 * f + 0.3 * h)] *)
Definition blend (f h : Q) : Q :=
  Math_round (Double.add (Double.mul (7 # 10) f) (Double.mul (3 # 10) h)).

(** [round(100 / (1 + e^-(x - 3)))] clamped to [0, 100]. *)
Definition logistic_percent (exp : Q -> Q) (x : Q) : Q :=
  Math_min 100
    (Math_max 0 (Math_round (Double.div 100 (Double.add 1 (exp (- Double.sub x 3)))))).

(** The probability the forecast stands for: its precipitation probability,
    else what [convert] makes of its precipitation sum. *)
Definition forecast_probability (convert : Q -> Q) (forecast : option Forecast) : option Q :=
  match field forecast precipProb with
  | Some f => Some f
  | None => option_map convert (field forecast precipMm)
  end.

(** The blend of that probability with the historical one, which it replaces
    when there is no history; without a forecast probability, the historical
    one, else 50. *)
Definition resolved_risk (convert : Q -> Q)
           (forecast : option Forecast) (hist : option Climatology) : Q :=
  let h := field hist histProb in
  match forecast_probability convert forecast with
  | Some f => blend f (nullish_or h f)
  | None => nullish_or h 50
  end.

(** [min(100, round(risk * 1.15))] *)
Definition inflate (risk : Q) : Q := Math_min 100 (Math_round (Double.mul risk (115 # 100))).

(** The outdoor vocabulary of the specification. *)
Definition outdoor_vocabulary (activity : option jsstring) : bool :=
  mentions "vacances" activity || mentions "extérieur" activity
  || mentions "exterieur" activity || mentions "rando" activity || mentions "plage" activity.

(** The rain risk as the specification states it: the logistic curve on the
    precipitation sum itself. *)
Definition stated_rainRisk (exp : Q -> Q) (forecast : option Forecast)
           (hist : option Climatology) (activity : option jsstring) : Q :=
  let risk := resolved_risk (logistic_percent exp) forecast hist in
  if outdoor_vocabulary activity then inflate risk else risk.

(** The same rule with the guard of the code: the precipitation sum is
    raised to 0 before the logistic curve is applied. *)
Definition guarded_rainRisk (exp : Q -> Q) (forecast : option Forecast)
           (hist : option Climatology) (activity : option jsstring) : Q :=
  let risk := resolved_risk (fun mm => logistic_percent exp (Math_max 0 mm)) forecast hist in
  if outdoor_vocabulary activity then inflate risk else risk.

Lemma blendedRisk_resolved : forall exp forecast hist,
    blendedRisk exp forecast hist
    = Some (resolved_risk (fun mm => logistic_percent exp (Math_max 0 mm)) forecast hist).
Proof.
  intros exp forecast hist.
  unfold blendedRisk, resolved_risk, forecast_probability, blend, logistic_percent,
    riskFromPrecipMm.
  destruct (field forecast precipProb) as [f |]; [reflexivity |].
  destruct (field forecast precipMm) as [mm |]; cbn [option_map]; [reflexivity |].
  destruct (field hist histProb); reflexivity.
Qed.

(** C1, as the code has it.  For every forecast sample, historical aggregate
    and activity that does not contain "exterieur" spelled without its
    accent, the rain risk is: [round(0.7 f + 0.3 h)] with [h] the historical
    probability, or [f] without one, when the forecast has a precipitation
    probability [f]; else the same blend of
    [p = clamp(round(100 / (1 + e^-(max(0, mm) - 3))))], when the forecast has
    a precipitation sum [mm]; else the historical probability; else 50; and
    [min(100, round(risk * 1.15))] of that when the activity contains
    vacances, extérieur, exterieur, rando or plage.  The arithmetic is that
    of doubles. *)
Theorem rain_risk_formula : forall exp forecast hist activity near d,
    mentions "exterieur" activity = false ->
    rainRisk (combine exp forecast hist activity near d)
    = guarded_rainRisk exp forecast hist activity.
Proof.
  intros exp forecast hist activity near d Hplain.
  unfold combine, rainRiskOf, guarded_rainRisk, outdoor_vocabulary. cbn [rainRisk].
  rewrite blendedRisk_resolved, is_outdoor_mentions, Hplain, orb_false_r. cbv zeta.
  destruct (_ || _); reflexivity.
Qed.

Definition forecast_with (prob mm : option Q) : option Forecast :=
  Some {| tempC := None; windSpeed := None; cloud := None;
          precipMm := mm; precipProb := prob |}.

Definition history_with (prob : option Q) : option Climatology :=
  Some {| histProb := prob; meanTemp := None; meanWind := None |}.

(** The example of the specification: a forecast probability of 80 and a
    historical probability of 40 give 68, and 78 for holidays. *)
Lemma rain_risk_formula_witness :
  rainRisk (combine exp_sample (forecast_with (Some 80) None) (history_with (Some 40))
                    None true (js "2025-10-10")) = 68
  /\ rainRisk (combine exp_sample (forecast_with (Some 80) None) (history_with (Some 40))
                       (Some (js "vacances")) true (js "2025-10-10")) = 78.
Proof.
  split.
  - rewrite (rain_risk_formula exp_sample (forecast_with (Some 80) None)
                               (history_with (Some 40)) None true (js "2025-10-10"))
      by (vm_compute; reflexivity).
    vm_compute. reflexivity.
  - rewrite (rain_risk_formula exp_sample (forecast_with (Some 80) None)
                               (history_with (Some 40)) (Some (js "vacances")) true
                               (js "2025-10-10"))
      by (vm_compute; reflexivity).
    vm_compute. reflexivity.
Defined.

(** A forecast whose precipitation sum is below zero, without a probability
    and without history: the code converts [max(0, -5) = 0] and answers 5,
    the curve applied to -5 itself gives 0. *)
Lemma negative_precipitation_is_raised_to_zero :
  rainRiskOf exp_sample (forecast_with None (Some (-5))) None None = Some 5
  /\ stated_rainRisk exp_sample (forecast_with None (Some (-5))) None None = 0
  /\ rainRiskOf exp_sample (forecast_with None (Some (-5))) None None
     <> Some (stated_rainRisk exp_sample (forecast_with None (Some (-5))) None None).
Proof.
  repeat split; try (vm_compute; reflexivity).
  vm_compute. discriminate.
Qed.

(** The pattern of the aggregation lacks "exterieur" without its accent,
    which the heuristic parser does produce: such an activity is not
    inflated. *)
Lemma exterieur_without_accent_is_not_inflated :
  option_map activity
             (of_result (parseFrenchFallback (noon 2025 10 1)
                                             (js "sortie exterieur a Lyon le 10 octobre")))
  = Some (Some (js "exterieur"))
  /\ rainRiskOf exp_sample (forecast_with (Some 80) None) (history_with (Some 40))
                (Some (js "exterieur")) = Some 68
  /\ stated_rainRisk exp_sample (forecast_with (Some 80) None) (history_with (Some 40))
                     (Some (js "exterieur")) = 78
  /\ rainRiskOf exp_sample (forecast_with (Some 80) None) (history_with (Some 40))
                (Some (js "extérieur")) = Some 78.
Proof.
  repeat split; vm_compute; reflexivity.
Qed.

(** The roundings are those of doubles.  [0.7 * 45] is the double just below
    31.5, so that a forecast of 45 without rain in the past reads 31, where
    the exact sum 31.5 would read 32; and [50 * 1.15] is the double just
    below 57.5, so that the default risk of an outdoor activity reads 57,
    not 58. *)
Lemma risk_is_rounded_as_doubles :
  rainRiskOf exp_sample (forecast_with (Some 45) None) (history_with (Some 0)) None = Some 31
  /\ Math_round ((7 # 10) * 45 + (3 # 10) * 0) = 32
  /\ rainRiskOf exp_sample None None (Some (js "rando")) = Some 57
  /\ Math_round (50 * (115 # 100)) = 58.
Proof.
  repeat split; vm_compute; reflexivity.
Qed.

(* ------------------------------------------------------------------ *)
(** * C8: the AI parser and the heuristic parser *)

(** The ways the call to the AI parser fails: no reply, a status that is not
    a success, a body that is not JSON, a completion without content, or a
    content that is not JSON. *)
Inductive parser_failure : reply Completion -> Prop :=
| unreachable : parser_failure Unreachable
| http_error : forall status json, res_ok status = false -> parser_failure (Response status json)
| bad_body : forall status e, parser_failure (Response status (inr e))
| no_content : forall status, parser_failure (Response status (inl NoContent))
| bad_content : forall status, parser_failure (Response status (inl BadContent)).

(** Each of them leaves the handler with the empty intent. *)
Lemma parser_failure_absorbed : forall parse now key up q,
    parser_failure (up (today_line q (slice 0 10 (isoString now)))) ->
    absorbed (parseWithOpenRouter parse now key up q) = no_intent.
Proof.
  intros parse now key up q Hfail. unfold parseWithOpenRouter.
  destruct (falsy key); [reflexivity |].
  inversion Hfail as [Heq | status json Hok Heq | status e Heq | status Heq | status Heq];
    try reflexivity.
  - rewrite Hok. reflexivity.
  - destruct (res_ok status); reflexivity.
  - destruct (res_ok status); reflexivity.
  - destruct (res_ok status); reflexivity.
Qed.

(** An AI parser that reads the place and the date of every query. *)
Definition svc_reads_paris : Services :=
  {| svc_parse := fun _ => ok {| location := Some (js "Paris");
                                 dateISO := Some (js "2025-10-10");
                                 activity := None |};
     svc_geocode := fun _ => throw "Lieu introuvable";
     svc_forecast := fun _ _ _ => throw "Open-Meteo forecast failed";
     svc_historical := fun _ _ _ _ => ok no_climatology |}.

(** C8, as the code has it.  For a request with a non-blank query, strict
    mode off, the one call is that of the AI parser, and its failure leaves
    the fields of the request as they were (for the parser of the source:
    an unreachable provider, a status that is not a success, a body or a
    content that is not JSON).  When location and date are both present
    after it, the handler goes on with the fields as they are, whatever the
    heuristic parser would make of the query, even an exception: it is not
    run.  When location or date is absent, the heuristic parser is run: its
    exception is answered 500 without a further call, and its answer fills
    each of location, date and activity that is absent, each one that is
    present keeping its own value. *)
Theorem heuristic_fallback : forall rt svc body,
    has_text (body_query body) = true ->
    strict_mode rt = false ->
    let query := nullish_or (body_query body) [] in
    let f := afterParser svc body in
    let untouched := {| f_location := None;
                        f_date := body_date body;
                        f_activity := body_activity body |} in
    (forall e, svc_parse svc query = inr e -> f = untouched)
    /\ (forall up,
           svc = services rt up ->
           parser_failure (openrouter up (today_line query (slice 0 10 (isoString (clock rt))))) ->
           f = untouched)
    /\ (falsy (f_location f) = false -> falsy (f_date f) = false ->
        resolveIntent rt svc body = ([CallParser query], inl (Continue f)))
    /\ (falsy (f_location f) = true \/ falsy (f_date f) = true ->
        match parseFrenchFallback (clock rt) query with
        | inr e =>
          resolveIntent rt svc body = ([CallParser query], inr e)
          /\ POST_with rt svc body = ([CallParser query], respond 500 (ErrorBody e))
        | inl fb =>
          exists g,
          resolveIntent rt svc body = ([CallParser query], inl (Continue g))
          /\ f_location g = (if falsy (f_location f) then location fb else f_location f)
          /\ f_date g = (if falsy (f_date f) then dateISO fb else f_date f)
          /\ f_activity g = (if falsy (f_activity f) then activity fb else f_activity f)
        end).
Proof.
  intros rt svc body Htext Hstrict query f untouched. subst query f untouched.
  pose proof (resolveIntent_text rt svc body Htext) as Hres. cbv zeta in Hres.
  rewrite Hstrict in Hres. cbn [andb] in Hres. unfold incomplete in Hres.
  split; [| split; [| split]].
  - intros e He. unfold afterParser. rewrite He. reflexivity.
  - intros up -> Hfail. unfold afterParser. cbn [services svc_parse].
    rewrite (parser_failure_absorbed _ _ _ _ _ Hfail). reflexivity.
  - intros Hloc Hdat. rewrite Hres, Hloc, Hdat. reflexivity.
  - intros Habsent.
    assert (Hinc : falsy (f_location (afterParser svc body))
                   || falsy (f_date (afterParser svc body)) = true).
    { destruct Habsent as [H | H]; rewrite H; [reflexivity | apply orb_true_r]. }
    rewrite Hinc in Hres.
    destruct (parseFrenchFallback (clock rt) _) as [fb | e].
    + eexists. split; [exact Hres |]. repeat split.
    + split; [exact Hres |].
      unfold POST_with, handle, prepare. rewrite Hres. reflexivity.
Qed.

(** Two runs.  With the parser down, the heuristic parser fills the three
    fields.  With a parser that reads the place and the date, the heuristic
    parser is not run: the query names a month, "constructor", on which it
    throws, and the handler goes on all the same. *)
Lemma heuristic_fallback_witness :
  resolveIntent rt_sample svc_down (ask "Vacances a Paris le 10 octobre")
  = ([CallParser (js "Vacances a Paris le 10 octobre")],
     inl (Continue {| f_location := Some (js "Paris");
                      f_date := Some (js "2025-10-10");
                      f_activity := Some (js "vacances") |}))
  /\ parseFrenchFallback (clock rt_sample) (js "Rando a Paris le 5 constructor")
     = throw "Invalid time value"
  /\ resolveIntent rt_sample svc_reads_paris (ask "Rando a Paris le 5 constructor")
     = ([CallParser (js "Rando a Paris le 5 constructor")],
        inl (Continue {| f_location := Some (js "Paris");
                         f_date := Some (js "2025-10-10");
                         f_activity := None |})).
Proof.
  split; [| split].
  - destruct (@heuristic_fallback rt_sample svc_down (ask "Vacances a Paris le 10 octobre")
                                  eq_refl eq_refl) as (_ & _ & _ & H).
    assert (Habsent : falsy (f_location (afterParser svc_down
                                           (ask "Vacances a Paris le 10 octobre"))) = true
                      \/ falsy (f_date (afterParser svc_down
                                          (ask "Vacances a Paris le 10 octobre"))) = true)
      by (left; vm_compute; reflexivity).
    specialize (H Habsent).
    assert (Hfb : parseFrenchFallback (clock rt_sample)
                    (nullish_or (body_query (ask "Vacances a Paris le 10 octobre")) [])
                  = inl {| location := Some (js "Paris");
                           dateISO := Some (js "2025-10-10");
                           activity := Some (js "vacances") |})
      by (vm_compute; reflexivity).
    rewrite Hfb in H. destruct H as (g & Hg & Hl & Hd & Ha). rewrite Hg.
    destruct g as [gl gd ga]. cbn [f_location f_date f_activity] in Hl, Hd, Ha.
    vm_compute in Hl, Hd, Ha. subst gl gd ga. vm_compute. reflexivity.
  - vm_compute. reflexivity.
  - destruct (@heuristic_fallback rt_sample svc_reads_paris
                                  (ask "Rando a Paris le 5 constructor")
                                  eq_refl eq_refl) as (_ & _ & H & _).
    rewrite H by (vm_compute; reflexivity). vm_compute. reflexivity.
Defined.

(** An AI parser that reads the place and the date, not the activity. *)
Definition svc_place_and_date : Services :=
  {| svc_parse := fun _ => ok {| location := Some (js "Paris");
                                 dateISO := Some (js "2025-10-10");
                                 activity := None |};
     svc_geocode := fun _ => ok paris;
     svc_forecast := fun _ _ _ => ok {| tempC := None; windSpeed := None; cloud := None;
                                        precipMm := None; precipProb := Some 80 |};
     svc_historical := fun _ _ _ _ => ok {| histProb := Some 40; meanTemp := None;
                                            meanWind := None |} |}.

(** The activity is still absent after the AI parser and the heuristic
    parser would read "vacances" in the query, but it is not asked: the
    handler goes on without an activity, and the risk is not inflated. *)
Lemma activity_alone_is_not_filled :
  f_activity (afterParser svc_place_and_date (ask "Vacances a Paris le 10 octobre")) = None
  /\ option_map activity
                (of_result (parseFrenchFallback (clock rt_sample)
                                                (js "Vacances a Paris le 10 octobre")))
     = Some (Some (js "vacances"))
  /\ resolveIntent rt_sample svc_place_and_date (ask "Vacances a Paris le 10 octobre")
     = ([CallParser (js "Vacances a Paris le 10 octobre")],
        inl (Continue {| f_location := Some (js "Paris");
                         f_date := Some (js "2025-10-10");
                         f_activity := None |}))
  /\ resolveIntent rt_sample svc_place_and_date (ask "Vacances a Paris le 10 octobre")
     <> ([CallParser (js "Vacances a Paris le 10 octobre")],
         inl (Continue {| f_location := Some (js "Paris");
                          f_date := Some (js "2025-10-10");
                          f_activity := Some (js "vacances") |}))
  /\ option_map rainRisk
                (prediction_of (POST_with rt_sample svc_place_and_date
                                          (ask "Vacances a Paris le 10 octobre")))
     = Some 68.
Proof.
  repeat split; try (vm_compute; reflexivity).
  vm_compute. discriminate.
Qed.

(* ------------------------------------------------------------------ *)
(** * C9: the shape of a successful response *)

(** An integer between 0 and 100. *)
Definition percent (x : Q) : Prop := exists n : Z, (0 <= n <= 100)%Z /\ x = inject_Z n.

Lemma percent_range : forall x, percent x -> 0 <= x <= 100.
Proof.
  intros x (n & Hn & ->). change 0 with (inject_Z 0). change 100 with (inject_Z 100).
  rewrite <- !Zle_Qle. lia.
Qed.

Lemma round_percent : forall x, 0 <= x <= 100 -> percent (Math_round x).
Proof.
  intros x [Hlo Hhi]. exists (Qfloor (x + (1 # 2))). split; [| reflexivity].
  split.
  - change 0%Z with (Qfloor 0). apply Qfloor_resp_le. lra.
  - change 100%Z with (Qfloor (201 # 2)). apply Qfloor_resp_le. lra.
Qed.

(** The doubles nearest to 0.7 and 0.3 lie below them: the blend of two
    percentages does not exceed 100. *)
Lemma blend_percent : forall f h, 0 <= f <= 100 -> 0 <= h <= 100 -> percent (blend f h).
Proof.
  intros f h [Hf0 Hf] [Hh0 Hh]. apply round_percent. split.
  - apply add_nonneg; apply mul_nonneg; lra.
  - apply Qle_trans
      with (Double.add (Double.mul (7 # 10) 100) (Double.mul (3 # 10) 100)).
    + apply add_mono; apply mul_mono; lra.
    + vm_compute. discriminate.
Qed.

Lemma Qle_bool_inject : forall a b : Z, Qle_bool (inject_Z a) (inject_Z b) = (a <=? b)%Z.
Proof.
  intros a b. unfold Qle_bool, inject_Z. cbn [Qnum Qden]. rewrite !Z.mul_1_r. reflexivity.
Qed.

Lemma Math_min_Z : forall a b : Z, Math_min (inject_Z a) (inject_Z b) = inject_Z (Z.min a b).
Proof.
  intros a b. unfold Math_min. rewrite Qle_bool_inject.
  destruct (Z.leb_spec a b); f_equal; lia.
Qed.

Lemma Math_max_Z : forall a b : Z, Math_max (inject_Z a) (inject_Z b) = inject_Z (Z.max a b).
Proof.
  intros a b. unfold Math_max. rewrite Qle_bool_inject.
  destruct (Z.leb_spec a b); f_equal; lia.
Qed.

Lemma clamp_percent : forall x, percent (Math_min 100 (Math_max 0 (Math_round x))).
Proof.
  intros x. unfold Math_round. set (n := Qfloor _).
  change 0 with (inject_Z 0). change 100 with (inject_Z 100).
  rewrite Math_max_Z, Math_min_Z. eexists. split; [| reflexivity]. lia.
Qed.

Lemma inflate_percent : forall r, percent r -> percent (inflate r).
Proof.
  intros r Hr. apply percent_range in Hr. unfold inflate, Math_round.
  set (n := Qfloor _).
  assert (Hn : (0 <= n)%Z).
  { change 0%Z with (Qfloor 0). apply Qfloor_resp_le.
    assert (H : 0 <= Double.mul r (115 # 100)) by (apply mul_nonneg; lra). lra. }
  change 100 with (inject_Z 100). rewrite Math_min_Z.
  eexists. split; [| reflexivity]. lia.
Qed.

Lemma riskFromPrecipMm_percent : forall exp mm, percent (riskFromPrecipMm exp mm).
Proof.
  intros exp [mm |]; cbn [riskFromPrecipMm].
  - apply clamp_percent.
  - exists 50%Z. split; [lia | reflexivity].
Qed.

(** The percentages the aggregation receives: a forecast probability
    between 0 and 100, a historical probability that is an integer between 0
    and 100. *)
Definition forecast_in_range (forecast : option Forecast) : Prop :=
  forall v, field forecast precipProb = Some v -> 0 <= v <= 100.
Definition history_in_range (hist : option Climatology) : Prop :=
  forall v, field hist histProb = Some v -> percent v.

Lemma blendedRisk_percent : forall exp forecast hist,
    forecast_in_range forecast -> history_in_range hist ->
    exists r, blendedRisk exp forecast hist = Some r /\ percent r.
Proof.
  intros exp forecast hist Hf Hh. unfold blendedRisk.
  assert (Hh' : forall d, 0 <= d <= 100 -> 0 <= nullish_or (field hist histProb) d <= 100).
  { intros d Hd. destruct (field hist histProb) as [h |] eqn:E; cbn; [| exact Hd].
    apply percent_range, Hh, E. }
  destruct (field forecast precipProb) as [f |] eqn:Ef.
  - eexists. split; [reflexivity |].
    apply (@blend_percent f (nullish_or (field hist histProb) f)); [apply Hf, Ef | apply Hh', Hf, Ef].
  - destruct (field forecast precipMm) as [mm |].
    + eexists. split; [reflexivity |].
      pose proof (percent_range (riskFromPrecipMm_percent exp (Some mm))) as Hp.
      apply (@blend_percent (riskFromPrecipMm exp (Some mm))
                            (nullish_or (field hist histProb) (riskFromPrecipMm exp (Some mm))));
        [exact Hp | apply Hh', Hp].
    + destruct (field hist histProb) as [h |] eqn:Eh.
      * eexists. split; [reflexivity |]. apply Hh, Eh.
      * eexists. split; [reflexivity |]. exists 50%Z. split; [lia | reflexivity].
Qed.

Lemma rainRisk_percent : forall exp forecast hist activity near d,
    forecast_in_range forecast -> history_in_range hist ->
    percent (rainRisk (combine exp forecast hist activity near d)).
Proof.
  intros exp forecast hist activity near d Hf Hh.
  destruct (blendedRisk_percent exp Hf Hh) as (r & Hr & Hp).
  unfold combine, rainRiskOf. cbn [rainRisk]. rewrite Hr.
  destruct (is_outdoor activity); cbn [nullish_or]; [apply (inflate_percent Hp) | exact Hp].
Qed.

(** ** Day means and the share of rainy years *)

(** A series of percentages: an array, which has fewer than [2^32] entries,
    of values between 0 and 100. *)
Definition entries_in_range (l : list (option Q)) : Prop :=
  (Z.of_nat (List.length l) < 2 ^ 32)%Z /\ forall v, In (Some v) l -> 0 <= v <= 100.

Lemma count_nonneg : forall n, 0 <= count n.
Proof.
  intros n. unfold count. change 0 with (inject_Z 0). rewrite <- Zle_Qle. lia.
Qed.

Lemma count_le : forall n m, (n <= m)%nat -> count n <= count m.
Proof.
  intros n m H. unfold count. rewrite <- Zle_Qle. lia.
Qed.

(** Below [2^32] entries the bound [100 * k] of the running sum is an integer
    that is a double, and the rounding of the sum does not cross it. *)
Lemma sum_from_bounds : forall l a k,
    (forall v, In (Some v) l -> 0 <= v <= 100) ->
    (Z.of_nat (k + List.length l) < 2 ^ 32)%Z ->
    0 <= a <= inject_Z (100 * Z.of_nat k) ->
    0 <= fold_left (fun a b => Double.add a (nullish_or b 0)) l a
      <= inject_Z (100 * Z.of_nat (k + List.length l)).
Proof.
  induction l as [| b l IH]; intros a k Hl Hk Ha.
  - cbn [fold_left List.length]. rewrite Nat.add_0_r. exact Ha.
  - cbn [fold_left List.length] in *. rewrite Nat.add_succ_r, <- Nat.add_succ_l.
    assert (Hb : 0 <= nullish_or b 0 <= 100).
    { destruct b as [v |]; cbn; [apply Hl; left; reflexivity | lra]. }
    apply IH.
    + intros v Hv. apply Hl. right. exact Hv.
    + lia.
    + split; [apply add_nonneg; lra |].
      unfold Double.add.
      assert (Hfa : Double.fl a <= inject_Z (100 * Z.of_nat k)) by (apply fl_le_Z; [lia | lra]).
      assert (Hfb : Double.fl (nullish_or b 0) <= inject_Z 100)
        by (apply fl_le_Z; [lia | exact (proj2 Hb)]).
      apply fl_le_Z; [lia |].
      replace (100 * Z.of_nat (S k))%Z with (100 * Z.of_nat k + 100)%Z by lia.
      rewrite inject_Z_plus. lra.
Qed.

Lemma mean_in_range : forall l,
    l <> [] -> entries_in_range l ->
    0 <= Double.div (sum l) (count (List.length l)) <= 100.
Proof.
  intros l Hne [Hlen Hl].
  assert (Hn : (0 < Z.of_nat (List.length l))%Z) by (destruct l; [congruence | cbn; lia]).
  pose proof (@sum_from_bounds l 0 0%nat Hl Hlen) as Hs.
  cbn [Nat.add] in Hs. fold (sum l) in Hs.
  assert (H0 : 0 <= 0 <= inject_Z (100 * Z.of_nat 0)) by (split; vm_compute; discriminate).
  specialize (Hs H0). set (n := Z.of_nat (List.length l)) in *.
  assert (Hfn : Double.fl (count (List.length l)) = inject_Z n) by (apply fl_Z; lia).
  assert (Hfs : 0 <= Double.fl (sum l) <= inject_Z (100 * n)).
  { split; [apply fl_nonneg; lra | apply fl_le_Z; [lia | lra]]. }
  assert (Hpos : 0 < inject_Z n) by (change 0 with (inject_Z 0); rewrite <- Zlt_Qlt; lia).
  rewrite inject_Z_mult in Hfs. change (inject_Z 100) with 100 in Hfs.
  unfold Double.div. rewrite Hfn. split.
  - apply fl_nonneg. apply Qle_shift_div_l; [exact Hpos | lra].
  - apply (@fl_le_Z _ 100%Z); [lia |]. change (inject_Z 100) with 100.
    apply Qle_shift_div_r; [exact Hpos | lra].
Qed.

(** Every forecast response carries, when it carries precipitation
    probabilities, a series of values between 0 and 100. *)
Definition probabilities_in_range (hourly : option Hourly) : Prop :=
  forall h prp, hourly = Some h -> precipitation_probability h = Some prp -> entries_in_range prp.

Lemma forecastOfHourly_in_range : forall hourly,
    probabilities_in_range hourly -> forecast_in_range (Some (forecastOfHourly hourly)).
Proof.
  intros hourly Hr v. cbn [field]. unfold forecastOfHourly. cbn [precipProb].
  destruct hourly as [h |]; [| discriminate].
  destruct (precipitation_probability h) as [[| x prp] |] eqn:E; try discriminate.
  cbv iota beta. intros Hv. injection Hv as <-.
  apply percent_range, round_percent, mean_in_range; [discriminate |].
  exact (Hr h _ eq_refl E).
Qed.

(** The share of rainy years is a percentage, whatever the number of years:
    the quotient of two counts does not exceed 1. *)
Lemma aggregateYears_percent : forall results,
    history_in_range (Some (aggregateYears results)).
Proof.
  intros results v. cbn [field]. unfold aggregateYears.
  destruct (fulfilled results) as [| x values]; cbv beta iota delta [histProb];
    [discriminate |].
  set (vs := x :: values).
  assert (Hn : 1 <= count (List.length vs)).
  { unfold count. change 1 with (inject_Z 1). rewrite <- Zle_Qle. cbn. lia. }
  assert (Hocc : 0 <= count (List.length (filter (fun v => ge (nullish_or (p v) 0) 1) vs))
                 <= count (List.length vs)).
  { split; [apply count_nonneg | apply count_le, filter_length_le]. }
  set (occ := count (List.length (filter _ vs))) in *.
  set (n := count (List.length vs)) in *.
  intros Hv. assert (Hv' : v = Math_round (Double.mul (Double.div occ n) 100)) by congruence.
  rewrite Hv'. apply round_percent.
  assert (Hfn : 1 <= Double.fl n) by (apply (@fl_ge_Z n 1%Z); [reflexivity | exact Hn]).
  assert (Hfo : 0 <= Double.fl occ <= Double.fl n).
  { split; [apply fl_nonneg | apply fl_mono]; lra. }
  assert (Hq : 0 <= Double.div occ n <= 1).
  { unfold Double.div. split.
    - apply fl_nonneg. apply Qle_shift_div_l; lra.
    - apply (@fl_le_Z _ 1%Z); [reflexivity |]. change (inject_Z 1) with 1.
      apply Qle_shift_div_r; lra. }
  unfold Double.mul.
  assert (Hfq : 0 <= Double.fl (Double.div occ n) <= 1).
  { split; [apply fl_nonneg; lra |].
    apply (@fl_le_Z _ 1%Z); [reflexivity |]. change (inject_Z 1) with 1. lra. }
  assert (H100 : Double.fl 100 = 100) by (apply (@fl_Z 100%Z); reflexivity).
  rewrite H100. split.
  - apply fl_nonneg. lra.
  - apply (@fl_le_Z _ 100%Z); [reflexivity |]. change (inject_Z 100) with 100. lra.
Qed.

(** ** What a response with status 200 is made of *)
Lemma resolveIntent_return : forall rt svc body l r,
    resolveIntent rt svc body = (l, inl (Return r)) -> status r = 422%Z.
Proof.
  intros rt svc body l r H.
  destruct (has_text (body_query body)) eqn:Htext.
  - rewrite (resolveIntent_text rt svc body Htext) in H. cbv zeta in H.
    destruct (strict_mode rt && _).
    + injection H as _ <-. reflexivity.
    + destruct (incomplete _); [| discriminate].
      destruct (parseFrenchFallback _ _); discriminate.
  - rewrite (resolveIntent_no_text rt svc body Htext) in H. discriminate.
Qed.

Lemma prepare_return : forall rt svc body l r,
    prepare rt svc body = (l, inl (Return r)) -> status r = 422%Z \/ status r = 400%Z.
Proof.
  intros rt svc body l r H. unfold prepare in H.
  destruct (resolveIntent rt svc body) as [l1 [[r1 | fields] | e]] eqn:E.
  - rewrite bind_ok in H. cbn in H. injection H as _ <-.
    left. exact (resolveIntent_return rt svc body E).
  - rewrite bind_ok in H.
    destruct (defaultDate rt (f_date fields)) as [dat | e]; [| discriminate].
    rewrite bind_lift_ok in H.
    destruct (resolveCoordinates svc body (f_location fields)) as [l2 [[[lat |] [lon |]] | e]];
      rewrite ?bind_ok, ?bind_throw in H; cbn [fst snd ret] in H; try discriminate;
      try (injection H as _ <-; right; reflexivity).
    destruct (toISODate (new_Date (Date_parse rt) dat)); discriminate.
  - discriminate.
Qed.

(** The historical source of the code settles each of its requests: it
    always returns an aggregate. *)
Lemma historical_source_returns : forall parse power lat lon d yearsBack,
    exists h, fetchHistoricalPOWERForDay parse power lat lon d yearsBack = ok h
              /\ history_in_range (Some h).
Proof.
  intros. eexists. split; [reflexivity |]. apply aggregateYears_percent.
Qed.

(** The prediction of a request that went through: what the aggregation
    makes of the outcome of the forecast source, consulted for a near future
    only, and of the aggregate of the historical source. *)
Lemma POST_success : forall rt up body l p l0 r,
    POST rt up body = (l, respond 200 (PredictionBody p)) ->
    prepare rt (services rt up) body = (l0, inl (Continue r)) ->
    let near := nearFuture rt (r_target r) in
    let forecast :=
        if near
        then of_result (fetchGFSviaOpenMeteo (openmeteo up) (r_lat r) (r_lon r) (r_dateISO r))
        else None in
    let hist :=
        of_result (fetchHistoricalPOWERForDay (Date_parse rt) (power up)
                                              (r_lat r) (r_lon r) (r_dateISO r) 10) in
    p = combine (Math_exp rt) forecast hist (r_activity r) near (r_dateISO r).
Proof.
  intros rt up body l p l0 r Hpost Hprep near forecast hist.
  unfold POST, POST_with in Hpost.
  rewrite (handle_dispatch rt (services rt up) body Hprep), bind_ok in Hpost.
  cbv zeta in Hpost. fold near in Hpost.
  subst forecast hist. destruct near.
  - rewrite dispatch_near, bind_ok in Hpost. cbn [fst snd ret app] in Hpost.
    injection Hpost as _ <-. reflexivity.
  - rewrite dispatch_far in Hpost. cbn [services svc_historical] in Hpost.
    destruct (historical_source_returns (Date_parse rt) (power up)
                                        (r_lat r) (r_lon r) (r_dateISO r) 10) as (h & Hh & _).
    rewrite Hh in *. rewrite bind_ok in Hpost. cbn [fst snd ret app] in Hpost.
    injection Hpost as _ <-. reflexivity.
Qed.

(** ** The wind label *)

(** The label as the specification words it. *)
Definition stated_label (speed : option Q) : jsstring :=
  match speed with
  | None => js "inconnu"
  | Some v =>
    if Qlt_le_dec 10 v then js "fort"
    else if Qlt_le_dec 5 v then js "modéré"
    else js "faible"
  end.

Lemma labelWind_stated : forall ms, labelWind ms = stated_label ms.
Proof.
  intros [v |]; [| reflexivity]. unfold labelWind, stated_label, gt.
  destruct (Qlt_le_dec 10 v) as [H10 | H10].
  - destruct (Qle_bool v 10) eqn:E; [| reflexivity]. apply Qle_bool_iff in E. lra.
  - apply Qle_bool_iff in H10. rewrite H10. cbn [negb].
    destruct (Qlt_le_dec 5 v) as [H5 | H5].
    + destruct (Qle_bool v 5) eqn:E; [| reflexivity]. apply Qle_bool_iff in E. lra.
    + apply Qle_bool_iff in H5. rewrite H5. reflexivity.
Qed.

Lemma stated_label_in_labels : forall speed,
    In (stated_label speed) [js "faible"; js "modéré"; js "fort"; js "inconnu"].
Proof.
  intros [v |]; unfold stated_label; cbn [In].
  - destruct (Qlt_le_dec 10 v); [tauto |]. destruct (Qlt_le_dec 5 v); tauto.
  - tauto.
Qed.

Lemma stated_label_unknown : forall speed, stated_label speed = js "inconnu" <-> speed = None.
Proof.
  intros [v |]; split; intros H; try reflexivity; try discriminate.
  unfold stated_label in H.
  destruct (Qlt_le_dec 10 v); [vm_compute in H; discriminate |].
  destruct (Qlt_le_dec 5 v); vm_compute in H; discriminate.
Qed.

(** Every forecast response carries precipitation probabilities between 0
    and 100. *)
Definition percentages_in_range (up : Upstream) : Prop :=
  forall lat lon d status hourly,
    openmeteo up lat lon d = Response status (inl hourly) -> probabilities_in_range hourly.

Lemma forecast_source_in_range : forall up lat lon d,
    percentages_in_range up ->
    forecast_in_range (of_result (fetchGFSviaOpenMeteo (openmeteo up) lat lon d)).
Proof.
  intros up lat lon d Hup. unfold fetchGFSviaOpenMeteo.
  destruct (openmeteo up lat lon d) as [| status [hourly | e]] eqn:E;
    try (intros v Hv; discriminate).
  - destruct (res_ok status); [| intros v Hv; discriminate].
    cbn [negb of_result]. apply forecastOfHourly_in_range. exact (Hup _ _ _ _ _ E).
  - destruct (res_ok status); intros v Hv; discriminate.
Qed.

(** C9.  Every response with status 200 of the handler, run with the
    collaborators of the source over an upstream whose series of hourly
    precipitation probabilities hold values between 0 and 100.  The rain
    risk is an integer between 0 and 100.  The wind is one of "faible",
    "modéré", "fort" and "inconnu": it is the label of the resolved wind
    speed, which is that of the forecast sample, consulted when the source
    reads "GFS+ERA5", else the mean wind of the historical aggregate:
    "inconnu" when there is none, and only then; "fort" above 10 m/s,
    "modéré" above 5 and up to 10, "faible" up to 5. *)
Theorem response_well_formed : forall rt up body l p l0 r,
    percentages_in_range up ->
    POST rt up body = (l, respond 200 (PredictionBody p)) ->
    prepare rt (services rt up) body = (l0, inl (Continue r)) ->
    let forecast :=
        if str_eqb (source p) (js "GFS+ERA5")
        then of_result (fetchGFSviaOpenMeteo (openmeteo up) (r_lat r) (r_lon r) (r_dateISO r))
        else None in
    let hist :=
        of_result (fetchHistoricalPOWERForDay (Date_parse rt) (power up)
                                              (r_lat r) (r_lon r) (r_dateISO r) 10) in
    let historicalWind := match hist with Some h => meanWind h | None => None end in
    let speed :=
        match forecast with
        | Some f => match windSpeed f with Some v => Some v | None => historicalWind end
        | None => historicalWind
        end in
    (exists n : Z, (0 <= n <= 100)%Z /\ rainRisk p = inject_Z n)
    /\ In (wind p) [js "faible"; js "modéré"; js "fort"; js "inconnu"]
    /\ wind p = match speed with
                | None => js "inconnu"
                | Some v =>
                  if Qlt_le_dec 10 v then js "fort"
                  else if Qlt_le_dec 5 v then js "modéré"
                  else js "faible"
                end
    /\ (wind p = js "inconnu" <-> speed = None).
Proof.
  intros rt up body l p l0 r Hup Hpost Hprep.
  pose proof (POST_success rt up body Hpost Hprep) as Hp. cbv zeta in Hp.
  set (near := nearFuture rt (r_target r)) in *.
  assert (Hsrc : str_eqb (source p) (js "GFS+ERA5") = near).
  { rewrite Hp. cbn [combine source]. destruct near; vm_compute; reflexivity. }
  rewrite Hsrc. cbv zeta.
  set (hist := of_result (fetchHistoricalPOWERForDay _ _ _ _ _ _)) in *.
  set (forecast := if near then _ else None) in *.
  assert (Hw : wind p = stated_label
                          match forecast with
                          | Some f => match windSpeed f with
                                      | Some v => Some v
                                      | None => match hist with
                                                | Some h => meanWind h
                                                | None => None
                                                end
                                      end
                          | None => match hist with Some h => meanWind h | None => None end
                          end).
  { rewrite Hp. cbn [combine wind]. rewrite labelWind_stated. f_equal.
    unfold resolvedWind, field, nullish.
    destruct forecast as [f |]; [destruct (windSpeed f) |];
      try reflexivity; destruct hist as [h |]; try reflexivity; destruct (meanWind h); reflexivity. }
  split; [| split; [| split]].
  - rewrite Hp. apply rainRisk_percent.
    + subst forecast. destruct near; [apply forecast_source_in_range, Hup |].
      intros v Hv. discriminate.
    + subst hist.
      destruct (historical_source_returns (Date_parse rt) (power up)
                                          (r_lat r) (r_lon r) (r_dateISO r) 10) as (h & Hh & Hr).
      rewrite Hh. exact Hr.
  - rewrite Hw. apply stated_label_in_labels.
  - exact Hw.
  - rewrite Hw. apply stated_label_unknown.
Qed.

(** An upstream with a forecast for the day and two years of history. *)
Definition hourly_sample : Hourly :=
  {| time := Some [js "2025-10-10T00:00"; js "2025-10-10T12:00"];
     temperature_2m := Some [Some 10; Some (1526 # 100)];
     wind_speed_10m := Some [Some 3; Some 7];
     cloud_cover := Some [Some 10; Some 21];
     precipitation := Some [Some (1 # 2); None];
     precipitation_probability := Some [Some 80; Some 60] |}.

Definition up_sample : Upstream :=
  {| OPENROUTER_API_KEY := None;
     openrouter := fun _ => Unreachable;
     nominatim := fun s =>
       if str_eqb s (js "Paris") then Response 200 (inl (Some [paris]))
       else Response 200 (inl (Some []));
     openmeteo := fun _ _ _ => Response 200 (inl (Some hourly_sample));
     power := fun _ _ ymd =>
       if str_eqb ymd (js "20241010")
       then Response 200 (inl {| PRECTOTCORR := JNumber 2; T2M := JNumber (1234 # 100);
                                 WS10M := JNumber 4 |})
       else if str_eqb ymd (js "20231010")
       then Response 200 (inl {| PRECTOTCORR := JNumber 0; T2M := JNumber 14;
                                 WS10M := JAbsent |})
       else Response 500 (throw "Internal Server Error") |}.

(** The temperature 15.26 of noon reads 15.3, the double nearest to it. *)
Definition prediction_sample : Prediction :=
  {| rainRisk := 64; wind := js "modéré"; temp := Some (Double.fl (153 # 10));
     source := js "GFS+ERA5"; date := js "2025-10-10" |}.

Lemma up_sample_in_range : percentages_in_range up_sample.
Proof.
  intros lat lon d status hourly H h prp Hh Hprp.
  cbn in H. injection H as _ <-. injection Hh as <-.
  cbn in Hprp. injection Hprp as <-. split; [reflexivity |].
  intros v Hv. cbn in Hv. destruct Hv as [Hv | [Hv | []]]; injection Hv as <-; lra.
Qed.

(** A request for Paris on 2025-10-10, nine days ahead: the forecast mean of
    70 and the historical share of 50 blend to 64, and the noon wind of 7
    m/s, which the forecast carries, is "modéré". *)
Lemma response_well_formed_witness :
  POST rt_sample up_sample (at_paris "2025-10-10")
  = ([CallForecast (c_lat paris) (c_lon paris) (js "2025-10-10");
      CallHistorical (c_lat paris) (c_lon paris) (js "2025-10-10")],
     respond 200 (PredictionBody prediction_sample))
  /\ (exists n : Z, (0 <= n <= 100)%Z /\ rainRisk prediction_sample = inject_Z n)
  /\ wind prediction_sample = js "modéré".
Proof.
  assert (H : POST rt_sample up_sample (at_paris "2025-10-10")
              = ([CallForecast (c_lat paris) (c_lon paris) (js "2025-10-10");
                  CallHistorical (c_lat paris) (c_lon paris) (js "2025-10-10")],
                 respond 200 (PredictionBody prediction_sample)))
    by (vm_compute; reflexivity).
  assert (Hp : prepare rt_sample (services rt_sample up_sample) (at_paris "2025-10-10")
               = ([], inl (Continue (resolved_at 2025 10 10 "2025-10-10"))))
    by (vm_compute; reflexivity).
  destruct (@response_well_formed rt_sample up_sample (at_paris "2025-10-10") _ _ _ _
                                  up_sample_in_range H Hp) as (Hrisk & _ & Hwind & _).
  split; [exact H | split; [exact Hrisk |]].
  rewrite Hwind. vm_compute. reflexivity.
Defined.

(* ------------------------------------------------------------------ *)
(** * Further properties of the handler and of its collaborators *)

(** ** A month word that is a property every object inherits *)

(** X5.  The month table is a plain object: the word [constructor] finds the
    property every object inherits, which is truthy and not a number, and the
    heuristic parser throws the [RangeError] of [toISOString] whatever the
    current day is. *)
Theorem inherited_month_name_throws : forall today,
    parseFrenchFallback today (js "Rando a Paris le 5 constructor")
    = throw "Invalid time value".
Proof.
  intros today. unfold parseFrenchFallback.
  assert (Hq : dateMatch (js "Rando a Paris le 5 constructor")
               = Some (js "5", js "constructor", None)) by (vm_compute; reflexivity).
  rewrite Hq. unfold dateOfMatch.
  assert (Hm : months_get (toLowerCase (js "constructor")) = Inherited)
    by (vm_compute; reflexivity).
  rewrite Hm. reflexivity.
Qed.

(** ** The record of the forecast sample *)

Lemma str_eqb_eq : forall s t, str_eqb s t = true <-> s = t.
Proof.
  induction s as [| a s IH]; intros [| b t]; cbn; split; intros H;
    try reflexivity; try discriminate.
  - apply andb_true_iff in H. destruct H as [Hab Hst].
    apply N.eqb_eq in Hab. apply IH in Hst. congruence.
  - injection H as -> ->. rewrite N.eqb_refl. apply IH. reflexivity.
Qed.

(** [s.endsWith(suffix)]: [s] is some prefix followed by [suffix]. *)
Lemma endsWith_spec : forall suffix s,
    endsWith suffix s = true <-> exists pre, s = pre ++ suffix.
Proof.
  intros suffix s. induction s as [| a s IH].
  - cbn [endsWith]. rewrite orb_false_r, str_eqb_eq. split.
    + intros <-. exists []. reflexivity.
    + intros [pre H]. symmetry in H. apply app_eq_nil in H. symmetry. apply H.
  - cbn [endsWith]. rewrite orb_true_iff, str_eqb_eq, IH. split.
    + intros [<- | [pre ->]]; [exists [] | exists (a :: pre)]; reflexivity.
    + intros [[| b pre] H]; [left; exact H | right].
      injection H as _ ->. exists pre. reflexivity.
Qed.

(** [findIndex] gives the first index whose entry satisfies the test. *)
Lemma findIndex_first : forall A (p : A -> bool) l i x,
    nth_error l i = Some x -> p x = true ->
    (forall j y, (j < i)%nat -> nth_error l j = Some y -> p y = false) ->
    findIndex p l = Some i.
Proof.
  intros A p. induction l as [| a l IH]; intros i x Hi Hx Hfirst.
  - destruct i; discriminate.
  - destruct i as [| i]; cbn [findIndex].
    + injection Hi as ->. rewrite Hx. reflexivity.
    + rewrite (Hfirst O a) by (try reflexivity; lia).
      rewrite (IH i x Hi Hx); [reflexivity |].
      intros j y Hj Hy. apply (Hfirst (S j) y); [lia | exact Hy].
Qed.

Lemma findIndex_none : forall A (p : A -> bool) l,
    (forall y, In y l -> p y = false) -> findIndex p l = None.
Proof.
  intros A p. induction l as [| a l IH]; intros H; [reflexivity |].
  cbn [findIndex]. rewrite (H a) by (left; reflexivity).
  rewrite IH; [reflexivity |]. intros y Hy. apply H. right. exact Hy.
Qed.

(** An hour of the series is the record of 12:00. *)
Definition is_noon (t : jsstring) : Prop := exists pre, t = pre ++ js "T12:00".

Lemma is_noon_false : forall t, ~ is_noon t -> endsWith (js "T12:00") t = false.
Proof.
  intros t H. destruct (endsWith (js "T12:00") t) eqn:E; [| reflexivity].
  exfalso. apply H. apply endsWith_spec. exact E.
Qed.

(** X6.  A successful forecast response whose first record of 12:00 is the
    [i]-th: the sample takes the temperature and the wind speed of that
    record, [null] when the series has no value there. *)
Theorem forecast_sample_at_noon : forall openmeteo lat lon d status h times i t,
    openmeteo lat lon d = Response status (inl (Some h)) ->
    res_ok status = true ->
    time h = Some times ->
    nth_error times i = Some t -> is_noon t ->
    (forall j u, (j < i)%nat -> nth_error times j = Some u -> ~ is_noon u) ->
    exists f,
      fetchGFSviaOpenMeteo openmeteo lat lon d = ok f
      /\ tempC f = at_index (series (Some h) temperature_2m) i
      /\ windSpeed f = at_index (series (Some h) wind_speed_10m) i.
Proof.
  intros openmeteo lat lon d status h times i t Hreply Hok Htime Hi Hnoon Hfirst.
  unfold fetchGFSviaOpenMeteo. rewrite Hreply, Hok. cbn [negb].
  eexists. split; [reflexivity |].
  unfold forecastOfHourly. cbv zeta. cbn [tempC windSpeed].
  assert (Hidx : findIndex (endsWith (js "T12:00")) (series (Some h) time) = Some i).
  { unfold series. rewrite Htime. cbn [nullish_or].
    apply (@findIndex_first _ _ times i t Hi).
    - apply endsWith_spec. exact Hnoon.
    - intros j u Hj Hu. apply is_noon_false. exact (Hfirst j u Hj Hu). }
  rewrite Hidx. split; reflexivity.
Qed.

(** X7.  A successful forecast response without a record of 12:00: the sample
    takes the record at half the length of the time series, rounded down. *)
Theorem forecast_sample_without_noon : forall openmeteo lat lon d status h,
    openmeteo lat lon d = Response status (inl (Some h)) ->
    res_ok status = true ->
    (forall t, In t (series (Some h) time) -> ~ is_noon t) ->
    let i := Nat.div (List.length (series (Some h) time)) 2 in
    exists f,
      fetchGFSviaOpenMeteo openmeteo lat lon d = ok f
      /\ tempC f = at_index (series (Some h) temperature_2m) i
      /\ windSpeed f = at_index (series (Some h) wind_speed_10m) i.
Proof.
  intros openmeteo lat lon d status h Hreply Hok Hnone i.
  unfold fetchGFSviaOpenMeteo. rewrite Hreply, Hok. cbn [negb].
  eexists. split; [reflexivity |].
  unfold forecastOfHourly. cbv zeta. cbn [tempC windSpeed].
  rewrite findIndex_none; [split; reflexivity |].
  intros t Ht. apply is_noon_false. exact (Hnone t Ht).
Qed.

(** X8.  A forecast response with a status outside 200 to 299 makes the fetch
    fail with the message of the source, whatever its content. *)
Theorem forecast_failure_status : forall openmeteo lat lon d status json,
    openmeteo lat lon d = Response status json ->
    res_ok status = false ->
    fetchGFSviaOpenMeteo openmeteo lat lon d = throw "Open-Meteo forecast failed".
Proof.
  intros openmeteo lat lon d status json Hreply Hok.
  unfold fetchGFSviaOpenMeteo. rewrite Hreply, Hok. reflexivity.
Qed.

(** ** An outage of the historical source *)

(** A reply that makes a fetch fail: no reply, a status outside 200 to 299,
    or a body that is not JSON. *)
Definition failed {A} (r : reply A) : Prop :=
  match r with
  | Unreachable => True
  | Response status (inl _) => res_ok status = false
  | Response _ (inr _) => True
  end.

Lemma fetchOnePOWER_failed : forall power lat lon month day y,
    (forall ymd, failed (power lat lon ymd)) ->
    exists e, fetchOnePOWER power lat lon month day y = inr e.
Proof.
  intros power lat lon month day y Hdown. unfold fetchOnePOWER. cbv zeta.
  specialize (Hdown (String_int y ++ month ++ day)).
  destruct (power lat lon _) as [| status [d | e]]; cbn [failed] in Hdown.
  - eexists. reflexivity.
  - rewrite Hdown. eexists. reflexivity.
  - destruct (negb (res_ok status)); eexists; reflexivity.
Qed.

Lemma fulfilled_none : forall A (results : list (result A)),
    (forall r, In r results -> exists e, r = inr e) -> fulfilled results = [].
Proof.
  intros A. induction results as [| r results IH]; intros H; [reflexivity |].
  unfold fulfilled. cbn [flat_map].
  destruct (H r (or_introl eq_refl)) as [e ->]. cbn [app].
  apply IH. intros r' Hr'. apply H. right. exact Hr'.
Qed.

Lemma climatology_of_an_outage : forall parse_impl power lat lon d n,
    (forall ymd, failed (power lat lon ymd)) ->
    fetchHistoricalPOWERForDay parse_impl power lat lon d n = ok no_climatology.
Proof.
  intros parse_impl power lat lon d n Hdown. unfold fetchHistoricalPOWERForDay. cbv zeta.
  unfold aggregateYears. cbv zeta. rewrite fulfilled_none; [reflexivity |].
  intros r Hr. apply in_map_iff in Hr. destruct Hr as (y & <- & _).
  apply fetchOnePOWER_failed. exact Hdown.
Qed.

(** The answer when neither source has anything to say. *)
Definition prediction_without_data (d : jsstring) : Prediction :=
  {| rainRisk := 50; wind := js "inconnu"; temp := None; source := js "ERA5"; date := d |}.

(** X9.  A request that reaches the dispatch for a date in the past or more
    than 16 days ahead, for an activity outside the outdoor vocabulary, while
    every request to the historical source fails: the handler still answers
    200, with the risk 50, an unknown wind and no temperature. *)
Theorem historical_outage_is_not_an_error : forall rt up body l r,
    prepare rt (services rt up) body = (l, inl (Continue r)) ->
    nearFuture rt (r_target r) = false ->
    is_outdoor (r_activity r) = false ->
    (forall ymd, failed (power up (r_lat r) (r_lon r) ymd)) ->
    POST rt up body
    = (l ++ [CallHistorical (r_lat r) (r_lon r) (r_dateISO r)],
       respond 200 (PredictionBody (prediction_without_data (r_dateISO r)))).
Proof.
  intros rt up body l r Hprep Hfar Hindoor Hdown. unfold POST, POST_with.
  rewrite (@handle_dispatch rt _ body l r Hprep), bind_ok. cbv zeta. rewrite Hfar, dispatch_far.
  cbn [services svc_historical].
  rewrite (@climatology_of_an_outage (Date_parse rt) (power up) _ _ (r_dateISO r) 10 Hdown).
  rewrite bind_ok. cbn [fst snd ret app]. f_equal. unfold respond. f_equal. f_equal.
  unfold combine, prediction_without_data, rainRiskOf. cbv zeta.
  rewrite Hindoor. reflexivity.
Qed.

(** Upstream services that are all out of reach. *)
Definition up_unreachable : Upstream :=
  {| OPENROUTER_API_KEY := None;
     openrouter := fun _ => Unreachable;
     nominatim := fun _ => Unreachable;
     openmeteo := fun _ _ _ => Unreachable;
     power := fun _ _ _ => Unreachable |}.

Lemma historical_outage_is_not_an_error_witness :
  POST rt_sample up_unreachable (at_paris "2025-12-25")
  = ([CallHistorical (c_lat paris) (c_lon paris) (js "2025-12-25")],
     respond 200 (PredictionBody {| rainRisk := 50; wind := js "inconnu"; temp := None;
                                    source := js "ERA5"; date := js "2025-12-25" |})).
Proof.
  assert (Hprep : prepare rt_sample (services rt_sample up_unreachable) (at_paris "2025-12-25")
                  = ([], inl (Continue (resolved_at 2025 12 25 "2025-12-25"))))
    by (vm_compute; reflexivity).
  assert (Hfar : nearFuture rt_sample (r_target (resolved_at 2025 12 25 "2025-12-25")) = false)
    by (vm_compute; reflexivity).
  assert (Hdown : forall ymd,
             failed (power up_unreachable (r_lat (resolved_at 2025 12 25 "2025-12-25"))
                           (r_lon (resolved_at 2025 12 25 "2025-12-25")) ymd))
    by (intros ymd; exact I).
  assert (Hindoor : is_outdoor (r_activity (resolved_at 2025 12 25 "2025-12-25")) = false)
    by (vm_compute; reflexivity).
  rewrite (@historical_outage_is_not_an_error rt_sample up_unreachable _ _ _
             Hprep Hfar Hindoor Hdown).
  vm_compute. reflexivity.
Defined.

Lemma forecast_sample_at_noon_witness :
  exists f,
    fetchGFSviaOpenMeteo (openmeteo up_sample) (c_lat paris) (c_lon paris) (js "2025-10-10") = ok f
    /\ tempC f = Some (1526 # 100) /\ windSpeed f = Some 7.
Proof.
  assert (Hfirst : forall j u, (j < 1)%nat ->
             nth_error [js "2025-10-10T00:00"; js "2025-10-10T12:00"] j = Some u -> ~ is_noon u).
  { intros j u Hj Hu Hnoon. assert (j = 0%nat) as -> by lia.
    injection Hu as <-. apply endsWith_spec in Hnoon. vm_compute in Hnoon. discriminate. }
  assert (Hnoon : is_noon (js "2025-10-10T12:00")) by (exists (js "2025-10-10"); reflexivity).
  exact (@forecast_sample_at_noon (openmeteo up_sample) (c_lat paris) (c_lon paris)
           (js "2025-10-10") 200 hourly_sample _ 1 _ eq_refl eq_refl eq_refl eq_refl Hnoon Hfirst).
Defined.

(** A response with the hours 00:00, 06:00 and 18:00. *)
Definition hourly_without_noon : Hourly :=
  {| time := Some [js "2025-10-10T00:00"; js "2025-10-10T06:00"; js "2025-10-10T18:00"];
     temperature_2m := Some [Some 8; Some 9; Some 11];
     wind_speed_10m := Some [Some 2; None; Some 4];
     cloud_cover := None;
     precipitation := None;
     precipitation_probability := None |}.

Lemma forecast_sample_without_noon_witness :
  exists f,
    fetchGFSviaOpenMeteo (fun _ _ _ => Response 200 (inl (Some hourly_without_noon)))
                         (c_lat paris) (c_lon paris) (js "2025-10-10") = ok f
    /\ tempC f = Some 9 /\ windSpeed f = None.
Proof.
  assert (Hnone : forall t, In t (series (Some hourly_without_noon) time) -> ~ is_noon t).
  { intros t Ht Hnoon. apply endsWith_spec in Hnoon.
    cbn in Ht. destruct Ht as [<- | [<- | [<- | []]]]; vm_compute in Hnoon; discriminate. }
  exact (@forecast_sample_without_noon
           (fun _ _ _ => Response 200 (inl (Some hourly_without_noon)))
           (c_lat paris) (c_lon paris) (js "2025-10-10") 200 hourly_without_noon
           eq_refl eq_refl Hnone).
Defined.

Lemma forecast_failure_status_witness :
  fetchGFSviaOpenMeteo (fun _ _ _ => Response 503 (inl (Some hourly_sample)))
                       (c_lat paris) (c_lon paris) (js "2025-10-10")
  = throw "Open-Meteo forecast failed".
Proof.
  exact (@forecast_failure_status (fun _ _ _ => Response 503 (inl (Some hourly_sample)))
           (c_lat paris) (c_lon paris) (js "2025-10-10") 503 _ eq_refl eq_refl).
Defined.

(** ** The place of a location string *)

(** Six runs.  [\b] holds between a word character (a letter without
    accent, a digit, an underscore) and what is not one; [à] is not a word
    character.  So [\bà] matches an [à] that a word character precedes, and
    none that follows a space or starts the string: there the preposition
    stays in the place, while a plain [a] is dropped with what precedes it.
    The last match of the pattern decides. *)
Example sanitizeLocationString_runs :
  sanitizeLocationString (Some (js "à Paris le 10 octobre 2025")) = Some (js "à Paris")
  /\ sanitizeLocationString (Some (js "a Paris le 10 octobre 2025")) = Some (js "Paris")
  /\ sanitizeLocationString (Some (js "Rando à Paris le 10 octobre 2025")) = Some (js "à Paris")
  /\ sanitizeLocationString (Some (js "Rando a Paris le 10 octobre 2025")) = Some (js "Paris")
  /\ sanitizeLocationString (Some (js "RDVà Paris")) = Some (js "Paris")
  /\ sanitizeLocationString (Some (js "Rome à Paris, a Lyon")) = Some (js "Lyon").
Proof.
  repeat split; vm_compute; reflexivity.
Qed.

(** ** The risk read from a precipitation sum *)

Lemma Qle_bool_false : forall a b, Qle_bool a b = false -> b < a.
Proof.
  intros a b H. apply Qnot_le_lt. rewrite <- Qle_bool_iff. congruence.
Qed.

Lemma Math_max_le : forall a x y, x <= y -> Math_max a x <= Math_max a y.
Proof.
  intros a x y H. unfold Math_max.
  destruct (Qle_bool a x) eqn:Ex, (Qle_bool a y) eqn:Ey;
    try apply Qle_bool_iff in Ex; try apply Qle_bool_iff in Ey;
    try apply Qle_bool_false in Ex; try apply Qle_bool_false in Ey; lra.
Qed.

Lemma Math_min_le : forall a x y, x <= y -> Math_min a x <= Math_min a y.
Proof.
  intros a x y H. unfold Math_min.
  destruct (Qle_bool a x) eqn:Ex, (Qle_bool a y) eqn:Ey;
    try apply Qle_bool_iff in Ex; try apply Qle_bool_iff in Ey;
    try apply Qle_bool_false in Ex; try apply Qle_bool_false in Ey; lra.
Qed.

Lemma riskFromPrecipMm_some : forall exp mm,
    riskFromPrecipMm exp (Some mm)
    = Math_min 100
        (Math_max 0
           (Math_round
              (Double.div 100 (Double.add 1 (exp (- Double.sub (Math_max 0 mm) 3)))))).
Proof. intros. reflexivity. Qed.

(** X11.  With an exponential that is positive and does not decrease, more
    precipitation never gives a lower risk. *)
Theorem riskFromPrecipMm_monotone : forall exp x y,
    (forall a, 0 < exp a) ->
    (forall a b, a <= b -> exp a <= exp b) ->
    x <= y ->
    riskFromPrecipMm exp (Some x) <= riskFromPrecipMm exp (Some y).
Proof.
  intros exp x y Hpos Hmono Hxy. rewrite !riskFromPrecipMm_some.
  apply Math_min_le, Math_max_le, Math_round_le.
  pose proof (Math_max_le 0 Hxy) as Hm.
  assert (Hs : Double.sub (Math_max 0 x) 3 <= Double.sub (Math_max 0 y) 3)
    by (apply sub_mono; [exact Hm | lra]).
  assert (He : exp (- Double.sub (Math_max 0 y) 3) <= exp (- Double.sub (Math_max 0 x) 3))
    by (apply Hmono; lra).
  apply div_antitone.
  - lra.
  - apply one_le_add_one, Qlt_le_weak, Hpos.
  - apply add_mono; [lra | exact He].
Qed.

(** An exponential in two steps. *)
Definition exp_step (x : Q) : Q := if Qle_bool x 0 then 1 # 2 else 2.

Lemma riskFromPrecipMm_monotone_witness :
  riskFromPrecipMm exp_step (Some 1) <= riskFromPrecipMm exp_step (Some 5).
Proof.
  apply riskFromPrecipMm_monotone.
  - intros a. unfold exp_step. destruct (Qle_bool a 0); lra.
  - intros a b Hab. unfold exp_step.
    destruct (Qle_bool a 0) eqn:Ea, (Qle_bool b 0) eqn:Eb;
      try apply Qle_bool_iff in Ea; try apply Qle_bool_iff in Eb;
      try apply Qle_bool_false in Ea; try apply Qle_bool_false in Eb; lra.
  - lra.
Defined.

(** ** The horizon in double arithmetic *)

(** [Math.floor((target.getTime() - now.getTime()) / (1000 * 60 * 60 * 24))]
    as the doubles compute it. *)
Definition daysAhead_double (target now : Z) : Z :=
  Qfloor (Double.div (Double.sub (inject_Z target) (inject_Z now))
                     (Double.mul (Double.mul (Double.mul 1000 60) 60) 24)).

(** The time values of [Date]: at most 8.64e15 milliseconds from the epoch. *)
Definition time_value (t : Z) : Prop := (Z.abs t <= 8640000000000000)%Z.

(** X26.  The horizon test does not depend on the rounding of the quotient:
    for all time values, the floor of the double quotient is at most 16
    exactly when the integer quotient [daysAhead] is. *)
Theorem horizon_as_doubles : forall target now,
    time_value target -> time_value now ->
    (daysAhead_double target now <=? 16)%Z = within16d target now.
Proof.
  intros target now Ht Hn. unfold time_value in *.
  unfold daysAhead_double, within16d, daysAhead.
  change (1000 * 60 * 60 * 24)%Z with 86400000%Z.
  assert (Hb : Double.mul (Double.mul (Double.mul 1000 60) 60) 24 = inject_Z 86400000)
    by (vm_compute; reflexivity).
  rewrite Hb. unfold Double.sub, Double.div.
  rewrite (@fl_Z target), (@fl_Z now), (@fl_Z 86400000) by lia.
  assert (Ed : inject_Z target - inject_Z now == inject_Z (target - now)).
  { unfold Z.sub. rewrite inject_Z_plus, inject_Z_opp. reflexivity. }
  rewrite (fl_comp Ed). set (d := (target - now)%Z).
  assert (Hpos : 0 < inject_Z 86400000) by reflexivity.
  destruct (Z_lt_le_dec d (17 * 86400000)) as [Hlt | Hge].
  - assert (Hq : (d / 86400000 <= 16)%Z).
    { apply Z.lt_succ_r. apply Z.div_lt_upper_bound; lia. }
    apply Z.leb_le in Hq. rewrite Hq. apply Z.leb_le.
    assert (H1 : Double.fl (inject_Z d) <= inject_Z (17 * 86400000 - 1)).
    { apply fl_le_Z; [reflexivity |]. rewrite <- Zle_Qle. lia. }
    assert (H2 : Double.fl (Double.fl (inject_Z d)) <= inject_Z (17 * 86400000 - 1))
      by (apply fl_le_Z; [reflexivity | exact H1]).
    assert (H3 : Double.fl (Double.fl (inject_Z d)) / inject_Z 86400000
                 <= inject_Z (17 * 86400000 - 1) / inject_Z 86400000).
    { apply Qmult_le_compat_r; [exact H2 |]. apply Qlt_le_weak, Qinv_lt_0_compat, Hpos. }
    apply fl_mono in H3. apply Qfloor_resp_le in H3.
    assert (E : Qfloor (Double.fl (inject_Z (17 * 86400000 - 1) / inject_Z 86400000)) = 16%Z)
      by (vm_compute; reflexivity).
    rewrite E in H3. exact H3.
  - assert (Hq : (17 <= d / 86400000)%Z) by (apply Z.div_le_lower_bound; lia).
    assert (Hf : (d / 86400000 <=? 16)%Z = false) by (apply Z.leb_gt; lia).
    rewrite Hf. apply Z.leb_gt.
    assert (H1 : inject_Z (17 * 86400000) <= Double.fl (inject_Z d)).
    { apply fl_ge_Z; [reflexivity |]. rewrite <- Zle_Qle. exact Hge. }
    assert (H2 : inject_Z (17 * 86400000) <= Double.fl (Double.fl (inject_Z d)))
      by (apply fl_ge_Z; [reflexivity | exact H1]).
    assert (H3 : inject_Z 17 <= Double.fl (Double.fl (inject_Z d)) / inject_Z 86400000).
    { apply Qle_shift_div_l; [exact Hpos |]. rewrite <- inject_Z_mult. exact H2. }
    apply (@fl_ge_Z _ 17%Z) in H3; [| reflexivity].
    apply Qfloor_resp_le in H3. rewrite Qfloor_Z in H3. lia.
Qed.

(** From 2025-10-01T12:00Z, the 18th of October at midnight is 16 days and a
    half ahead. *)
Lemma horizon_as_doubles_witness :
  daysAhead_double (days_from_civil 2025 10 18 * msPerDay) (noon 2025 10 1) = 16%Z
  /\ within16d (days_from_civil 2025 10 18 * msPerDay) (noon 2025 10 1) = true.
Proof.
  assert (Ht : time_value (days_from_civil 2025 10 18 * msPerDay))
    by (vm_compute; discriminate).
  assert (Hn : time_value (noon 2025 10 1)) by (vm_compute; discriminate).
  pose proof (@horizon_as_doubles _ _ Ht Hn) as H.
  split; [vm_compute; reflexivity |].
  rewrite <- H. vm_compute. reflexivity.
Defined.

(** ** The default date *)

Section DefaultDate.
Local Open Scope Z_scope.

Lemma Day_add_days : forall t n, Day (t + n * msPerDay) = Day t + n.
Proof.
  intros t n. unfold Day, msPerDay. apply Z.div_add. lia.
Qed.

Lemma defaultDate_absent : forall rt dat y m d,
    falsy dat = true ->
    civil_from_days (Day (clock rt) + 7) = (y, m, d) ->
    0 <= y <= 9999 ->
    defaultDate rt dat = ok (iso_date y m d).
Proof.
  intros rt dat y m d Hdat Hciv Hy. unfold defaultDate. rewrite Hdat.
  pose proof (days_from_civil_from_days (Day (clock rt) + 7)) as H.
  rewrite Hciv in H. destruct H as (Hz & Hm & Hd).
  pose proof (@days_from_civil_bound y m d) as Hb.
  replace (clock rt + 7 * 24 * 60 * 60 * 1000) with (clock rt + 7 * msPerDay)
    by (unfold msPerDay; lia).
  assert (Hclip : TimeClip (clock rt + 7 * msPerDay) = Some (clock rt + 7 * msPerDay)).
  { unfold TimeClip.
    replace (Z.abs (clock rt + 7 * msPerDay) <=? 8640000000000000) with true; [reflexivity |].
    symmetry. apply Z.leb_le.
    pose proof (Day_add_days (clock rt) 7) as HD. unfold Day, msPerDay in *.
    Z.div_mod_to_equations. lia. }
  rewrite Hclip. unfold toISODate, toISOString. f_equal.
  apply isoString_date; try assumption. rewrite Day_add_days. exact Hciv.
Qed.

(** X12.  A request without a date, or with an empty one, is given the day a
    week after the current one (UTC). *)
Theorem default_date_is_a_week_ahead : forall rt dat y m d,
    falsy dat = true ->
    civil_from_days (Day (clock rt) + 7) = (y, m, d) ->
    0 <= y <= 9999 ->
    defaultDate rt dat = ok (iso_date y m d).
Proof.
  intros rt dat y m d Hdat Hciv Hy. exact (@defaultDate_absent rt dat y m d Hdat Hciv Hy).
Qed.

Lemma default_date_is_a_week_ahead_witness :
  defaultDate rt_sample None = ok (js "2025-10-08").
Proof.
  assert (Hciv : civil_from_days (Day (clock rt_sample) + 7) = (2025, 10, 8))
    by (vm_compute; reflexivity).
  assert (Hy : 0 <= 2025 <= 9999) by lia.
  rewrite (@default_date_is_a_week_ahead rt_sample None 2025 10 8 eq_refl Hciv Hy).
  vm_compute. reflexivity.
Defined.

End DefaultDate.

(** ** A request without a query *)

(** No call of [l] is a call to the AI parser. *)
Definition parser_free (l : list call) : Prop := forall q, ~ In (CallParser q) l.

Definition quiet {A} (m : io A) : Prop := parser_free (fst m).

Lemma parser_free_app : forall l l', parser_free l -> parser_free l' -> parser_free (l ++ l').
Proof.
  intros l l' H H' q Hin. apply in_app_or in Hin. destruct Hin; [apply (H q) | apply (H' q)]; assumption.
Qed.

Lemma quiet_ret : forall A (a : A), quiet (ret a).
Proof. intros A a q H. exact H. Qed.

Lemma quiet_lift : forall A (r : result A), quiet (lift r).
Proof. intros A r q H. exact H. Qed.

Lemma quiet_bind : forall A B (m : io A) (f : A -> io B),
    quiet m -> (forall a, quiet (f a)) -> quiet (bind m f).
Proof.
  intros A B [l [a | e]] f Hm Hf.
  - unfold quiet. rewrite bind_ok. cbn [fst]. apply parser_free_app; [exact Hm | apply Hf].
  - exact Hm.
Qed.

Lemma quiet_catch : forall A (m : io A) h,
    quiet m -> (forall e, quiet (h e)) -> quiet (catch m h).
Proof.
  intros A [l [a | e]] h Hm Hh; [exact Hm |].
  unfold catch. specialize (Hh e). destruct (h e) as [l' r].
  unfold quiet. cbn [fst]. apply parser_free_app; assumption.
Qed.

Lemma quiet_geocode : forall svc place, quiet (geocode svc place).
Proof.
  intros svc place q [H | []]. discriminate.
Qed.

Lemma quiet_tryGeocode : forall svc place c, quiet (tryGeocode svc place c).
Proof.
  intros. unfold tryGeocode. apply quiet_catch.
  - apply quiet_bind; [apply quiet_geocode | intros; apply quiet_ret].
  - intros; apply quiet_ret.
Qed.

Lemma quiet_resolveCoordinates : forall svc body loc, quiet (resolveCoordinates svc body loc).
Proof.
  intros svc body loc. unfold resolveCoordinates. cbv zeta. apply quiet_bind.
  - destruct (_ && _); [| apply quiet_ret].
    apply quiet_bind; [apply quiet_geocode | intros; apply quiet_ret].
  - intros c. destruct (_ && _); [| apply quiet_ret].
    apply quiet_bind.
    + destruct (negb _); [apply quiet_tryGeocode | apply quiet_ret].
    + intros c'. destruct (truthy _); [apply quiet_tryGeocode | apply quiet_ret].
Qed.

Lemma quiet_dispatch : forall svc near lat lon d, quiet (dispatch svc near lat lon d).
Proof.
  intros svc near lat lon d. destruct near.
  - rewrite dispatch_near. intros q [H | [H | []]]; discriminate.
  - rewrite dispatch_far. destruct (svc_historical _ _ _ _ _); intros q [H | []]; discriminate.
Qed.

Lemma quiet_prepare : forall rt svc body,
    has_text (body_query body) = false -> quiet (prepare rt svc body).
Proof.
  intros rt svc body Htext. unfold prepare.
  rewrite (resolveIntent_no_text rt svc body Htext), bind_ret.
  apply quiet_bind; [apply quiet_lift |]. intros dat.
  apply quiet_bind; [apply quiet_resolveCoordinates |].
  intros [[lat |] [lon |]]; try apply quiet_ret.
  apply quiet_bind; [apply quiet_lift | intros; apply quiet_ret].
Qed.

Lemma prepare_without_query : forall rt svc body l r,
    has_text (body_query body) = false ->
    prepare rt svc body = (l, inl (Return r)) -> status r = 400%Z.
Proof.
  intros rt svc body l r Htext H.
  destruct (prepare_return rt svc body H) as [H422 | H400]; [| exact H400].
  exfalso. unfold prepare in H.
  rewrite (resolveIntent_no_text rt svc body Htext), bind_ret in H. cbn [f_date] in H.
  destruct (defaultDate rt (body_date body)) as [dat | e]; [| discriminate].
  rewrite bind_lift_ok in H.
  destruct (resolveCoordinates svc body _) as [l2 [[[lat |] [lon |]] | e]];
    rewrite ?bind_ok, ?bind_throw in H; cbn [fst snd ret] in H; try discriminate;
    try (injection H as _ <-; discriminate).
  destruct (toISODate _); discriminate.
Qed.

(** X13.  A request without a query, or with a blank one: the AI parser is not
    called and the answer is 200, 400 or 500, never 422, strict mode or not. *)
Theorem request_without_query : forall rt svc body,
    has_text (body_query body) = false ->
    parser_free (fst (POST_with rt svc body))
    /\ (status (snd (POST_with rt svc body)) = 200
        \/ status (snd (POST_with rt svc body)) = 400
        \/ status (snd (POST_with rt svc body)) = 500)%Z.
Proof.
  intros rt svc body Htext.
  assert (Hquiet : quiet (handle rt svc body)).
  { unfold handle. apply quiet_bind; [apply quiet_prepare; exact Htext |].
    intros [r | r]; [apply quiet_ret |]. cbv zeta.
    apply quiet_bind; [apply quiet_dispatch | intros; apply quiet_ret]. }
  unfold POST_with. unfold quiet in Hquiet.
  destruct (handle rt svc body) as [l [r | e]] eqn:E; cbn [fst snd] in *;
    (split; [exact Hquiet |]); [| right; right; reflexivity].
  unfold handle in E.
  destruct (prepare rt svc body) as [l0 [[r0 | r0] | e0]] eqn:Ep.
  - rewrite bind_ok in E. cbn [fst snd ret] in E. injection E as _ <-.
    right; left. exact (prepare_without_query rt svc body Htext Ep).
  - rewrite bind_ok in E. cbv zeta in E.
    destruct (dispatch svc _ _ _ _) as [l1 [fh | e1]]; cbn in E; [| discriminate].
    injection E as _ <-. left. reflexivity.
  - discriminate.
Qed.

Lemma request_without_query_witness :
  parser_free (fst (POST_with rt_strict svc_down (at_paris "2025-10-10")))
  /\ (status (snd (POST_with rt_strict svc_down (at_paris "2025-10-10"))) = 200
      \/ status (snd (POST_with rt_strict svc_down (at_paris "2025-10-10"))) = 400
      \/ status (snd (POST_with rt_strict svc_down (at_paris "2025-10-10"))) = 500)%Z.
Proof.
  apply request_without_query. reflexivity.
Defined.

(** ** The preposition of the place, with and without its accent *)

(** Four runs of the heuristic parser and of the handler.  After an [à] that
    a space precedes the place is not found; after a plain [a] it is, and
    after an [à] glued to a word as well.  For the first query the handler,
    without a location, geocodes the capitalised run of the query and then
    the stripped query, which still holds the preposition. *)
Example heuristic_location_runs :
  option_map location
             (of_result (parseFrenchFallback (noon 2025 10 1)
                                             (js "Vacances à Paris le 10 octobre")))
  = Some None
  /\ option_map location
                (of_result (parseFrenchFallback (noon 2025 10 1)
                                                (js "Vacances a Paris le 10 octobre")))
     = Some (Some (js "Paris"))
  /\ option_map location
                (of_result (parseFrenchFallback (noon 2025 10 1)
                                                (js "RDVà Paris le 10 octobre")))
     = Some (Some (js "Paris"))
  /\ fst (POST rt_sample up_sample (ask "Vacances à Paris le 10 octobre"))
     = [CallParser (js "Vacances à Paris le 10 octobre");
        CallGeocoder (js "Vacances à Paris le");
        CallGeocoder (js "à Paris")].
Proof.
  repeat split; vm_compute; reflexivity.
Qed.

(* ------------------------------------------------------------------ *)
(** * ISO dates

    [toISODate] renders a time as YYYY-MM-DD, [new Date] reads such a
    string as the midnight of its day, and [normalizeDateISO] keeps it. *)

Section IsoDates.
Local Open Scope Z_scope.

(** Days before the year [y] that starts in March, from the start of era 0. *)
Definition march_year_start (y : Z) : Z :=
  y / 400 * 146097 + year_start (y - y / 400 * 400).

(** Days from the 1st of March to the 1st of the month [m]. *)
Definition month_offset (m : Z) : Z := (153 * ((m + 9) mod 12) + 2) / 5.

Lemma days_from_civil_eq : forall y m d,
    days_from_civil y m d
    = march_year_start (if m <=? 2 then y - 1 else y) + month_offset m + d - 1 - 719468.
Proof.
  intros y m d. unfold days_from_civil, march_year_start, month_offset, year_start. lia.
Qed.

(** A year from March to March has 365 or 366 days. *)
Lemma march_year_length : forall y,
    march_year_start (y + 1) - march_year_start y = 365
    \/ march_year_start (y + 1) - march_year_start y = 366.
Proof.
  intros y. unfold march_year_start, year_start. Z.div_mod_to_equations. lia.
Qed.

Ltac month_constants :=
  repeat match goal with
         | |- context [month_offset ?m] =>
           let v := eval vm_compute in (month_offset m) in
           progress change (month_offset m) with v
         | |- context [?m <=? 2] =>
           let v := eval vm_compute in (m <=? 2) in
           progress change (m <=? 2) with v
         end.

(** The months other than February have the same length every year. *)
Lemma days_in_month_common : forall y m,
    1 <= m <= 12 -> m <> 2 -> days_in_month y m = common_days m.
Proof.
  intros y m Hm H2.
  assert (Hcases : m = 1 \/ m = 3 \/ m = 4 \/ m = 5 \/ m = 6 \/ m = 7 \/ m = 8
                   \/ m = 9 \/ m = 10 \/ m = 11 \/ m = 12) by lia.
  clear Hm H2.
  repeat (destruct Hcases as [-> | Hcases]); try subst m;
    unfold days_in_month, common_days;
    cbn [Z.eqb Pos.eqb orb Z.add Pos.add Pos.succ Pos.add_carry];
    rewrite !days_from_civil_eq; month_constants;
    try replace (y + 1 - 1) with y by lia; lia.
Qed.

Lemma days_in_february : forall y, days_in_month y 2 = 28 \/ days_in_month y 2 = 29.
Proof.
  intros y. unfold days_in_month.
  cbn [Z.eqb Pos.eqb Z.add Pos.add Pos.succ].
  rewrite !days_from_civil_eq; month_constants.
  pose proof (march_year_length (y - 1)) as H.
  replace (y - 1 + 1) with y in H by lia. lia.
Qed.

(** The 29th of February, when the year has one, is the civil date of its
    day number. *)
Lemma civil_from_days_leap_day : forall y,
    days_in_month y 2 = 29 ->
    civil_from_days (days_from_civil y 2 29) = (y, 2, 29).
Proof.
  intros y Hleap.
  assert (Hlen : march_year_start y - march_year_start (y - 1) = 366).
  { unfold days_in_month in Hleap. cbn [Z.eqb Pos.eqb Z.add Pos.add Pos.succ] in Hleap.
    rewrite !days_from_civil_eq in Hleap.
    change (month_offset 3) with 0 in Hleap. change (month_offset 2) with 337 in Hleap.
    change (3 <=? 2) with false in Hleap. change (2 <=? 2) with true in Hleap.
    cbv beta iota in Hleap. lia. }
  unfold days_from_civil. change (2 <=? 2) with true. cbv beta iota zeta.
  set (era := (y - 1) / 400).
  set (yoe := y - 1 - era * 400).
  assert (Hyoe : 0 <= yoe <= 399) by (subst yoe era; Z.div_mod_to_equations; lia).
  change ((153 * ((2 + 9) mod 12) + 2) / 5 + 29 - 1) with 365.
  replace (yoe * 365 + yoe / 4 - yoe / 100 + 365) with (year_start yoe + 365)
    by (unfold year_start; lia).
  pose proof (year_length Hyoe) as Hl.
  pose proof (year_last_bound Hyoe) as Hb.
  assert (H0 : 0 <= year_start yoe) by (unfold year_start; Z.div_mod_to_equations; lia).
  assert (Hlast : year_last yoe = year_start yoe + 365).
  { unfold march_year_start in Hlen. fold era in Hlen. fold yoe in Hlen.
    unfold year_last in *. destruct (Z.eqb_spec yoe 399) as [E | E].
    - rewrite E. reflexivity.
    - replace (y / 400) with era in Hlen by (subst yoe era; Z.div_mod_to_equations; lia).
      replace (y - era * 400) with (yoe + 1) in Hlen by (subst yoe; lia). lia. }
  assert (Hin : year_start yoe <= year_start yoe + 365 <= year_last yoe) by lia.
  unfold civil_from_days. cbv zeta.
  replace (era * 146097 + (year_start yoe + 365) - 719468 + 719468)
    with (year_start yoe + 365 + era * 146097) by lia.
  rewrite Z.div_add by lia. rewrite (Z.div_small (year_start yoe + 365)) by lia.
  cbn [Z.add].
  replace (year_start yoe + 365 + era * 146097 - era * 146097)
    with (year_start yoe + 365) by lia.
  fold (year_of_era (year_start yoe + 365)). rewrite (year_of_era_correct Hyoe Hin).
  fold (year_start yoe).
  replace (year_start yoe + 365 - year_start yoe) with 365 by lia.
  change ((5 * 365 + 2) / 153) with 11.
  change (11 <? 10) with false. cbv beta iota.
  change (11 - 9 <=? 2) with true. cbv beta iota.
  change (365 - (153 * 11 + 2) / 5 + 1) with 29. change (11 - 9) with 2.
  f_equal. f_equal. subst yoe. lia.
Qed.

(** A day of the calendar: the month is 1..12 and the day exists in it. *)
Definition exists_day (y m d : Z) : Prop := 1 <= m <= 12 /\ 1 <= d <= days_in_month y m.

(** Round trip: every day of the calendar is the civil date of its day
    number, leap days included. *)
Lemma civil_of_existing_day : forall y m d,
    exists_day y m d -> civil_from_days (days_from_civil y m d) = (y, m, d).
Proof.
  intros y m d [Hm Hd].
  destruct (Z.eq_dec m 2) as [-> | H2].
  - destruct (days_in_february y) as [H28 | H29].
    + apply civil_from_days_from_civil; [lia |]. change (common_days 2) with 28. lia.
    + destruct (Z.eq_dec d 29) as [-> | Hd29].
      * apply civil_from_days_leap_day. exact H29.
      * apply civil_from_days_from_civil; [lia |]. change (common_days 2) with 28. lia.
  - apply civil_from_days_from_civil; [exact Hm |].
    rewrite <- (days_in_month_common y Hm H2). exact Hd.
Qed.

Lemma exists_day_31 : forall y m d, exists_day y m d -> 1 <= d <= 31.
Proof.
  intros y m d [Hm Hd]. destruct (Z.eq_dec m 2) as [-> | H2].
  - destruct (days_in_february y); lia.
  - rewrite (days_in_month_common y Hm H2) in Hd. unfold common_days in Hd.
    destruct (m =? 2); [lia |]. destruct (_ || _); lia.
Qed.

(** The civil date of a day number is a day of the calendar. *)
Lemma civil_from_days_exists : forall z,
    let '(y, m, d) := civil_from_days z in exists_day y m d.
Proof.
  intros z. unfold civil_from_days. cbv zeta.
  set (era := (z + 719468) / 146097).
  set (doe := z + 719468 - era * 146097).
  assert (Hdoe : 0 <= doe < 146097) by (subst doe era; Z.div_mod_to_equations; lia).
  destruct (year_exists Hdoe) as (yoe & Hyoe & Hin).
  fold (year_of_era doe). rewrite (year_of_era_correct Hyoe Hin).
  fold (year_start yoe).
  pose proof (year_length Hyoe) as Hlen.
  set (doy := doe - year_start yoe).
  assert (Hdoy : 0 <= doy <= year_last yoe - year_start yoe) by (subst doy; lia).
  set (mp := (5 * doy + 2) / 153).
  assert (Hmp : 0 <= mp <= 11) by (subst mp; Z.div_mod_to_equations; lia).
  assert (Hmpd : (153 * mp + 2) / 5 <= doy
                 /\ (mp < 11 -> doy < (153 * (mp + 1) + 2) / 5))
    by (subst mp; Z.div_mod_to_equations; lia).
  clearbody mp.
  assert (Hcases : mp = 0 \/ mp = 1 \/ mp = 2 \/ mp = 3 \/ mp = 4 \/ mp = 5 \/ mp = 6
                   \/ mp = 7 \/ mp = 8 \/ mp = 9 \/ mp = 10 \/ mp = 11) by lia.
  unfold exists_day.
  destruct (Z.eq_dec mp 11) as [E11 | N11].
  - subst mp. change (11 <? 10) with false. cbv beta iota.
    change (11 - 9) with 2. change (2 <=? 2) with true. cbv beta iota.
    change ((153 * 11 + 2) / 5) with 337 in *.
    split; [lia |]. split; [lia |].
    unfold days_in_month. cbn [Z.eqb Pos.eqb Z.add Pos.add Pos.succ].
    rewrite !days_from_civil_eq.
    change (month_offset 3) with 0. change (month_offset 2) with 337.
    change (3 <=? 2) with false. change (2 <=? 2) with true. cbv beta iota.
    replace (yoe + era * 400 + 1 - 1) with (yoe + era * 400) by lia.
    assert (Hy1 : march_year_start (yoe + era * 400) = era * 146097 + year_start yoe).
    { unfold march_year_start.
      replace ((yoe + era * 400) / 400) with era by (Z.div_mod_to_equations; lia).
      replace (yoe + era * 400 - era * 400) with yoe by lia. reflexivity. }
    assert (Hy2 : march_year_start (yoe + era * 400 + 1) = era * 146097 + year_last yoe + 1).
    { unfold march_year_start, year_last.
      destruct (Z.eqb_spec yoe 399) as [E | E].
      - rewrite E.
        replace ((399 + era * 400 + 1) / 400) with (era + 1) by (Z.div_mod_to_equations; lia).
        replace (399 + era * 400 + 1 - (era + 1) * 400) with 0 by lia.
        change (year_start 0) with 0. lia.
      - replace ((yoe + era * 400 + 1) / 400) with era by (Z.div_mod_to_equations; lia).
        replace (yoe + era * 400 + 1 - era * 400) with (yoe + 1) by lia. lia. }
    rewrite Hy1, Hy2. lia.
  - assert (Hlt : mp < 11) by lia. destruct Hmpd as [Hlo Hhi]. specialize (Hhi Hlt).
    assert (Hm : 1 <= (if mp <? 10 then mp + 3 else mp - 9) <= 12)
      by (destruct (Z.ltb_spec mp 10); lia).
    assert (Hm2 : (if mp <? 10 then mp + 3 else mp - 9) <> 2)
      by (destruct (Z.ltb_spec mp 10); lia).
    split; [exact Hm |]. rewrite (days_in_month_common _ Hm Hm2).
    clear Hm Hm2.
    repeat (destruct Hcases as [E | Hcases];
            [subst mp;
             repeat match goal with
                    | H : context [(153 * ?k + 2) / 5] |- _ =>
                      let v := eval vm_compute in ((153 * k + 2) / 5) in
                      progress change ((153 * k + 2) / 5) with v in H
                    | |- context [(153 * ?k + 2) / 5] =>
                      let v := eval vm_compute in ((153 * k + 2) / 5) in
                      progress change ((153 * k + 2) / 5) with v
                    | |- context [if ?k <? 10 then ?a else ?b] =>
                      let v := eval vm_compute in (if k <? 10 then a else b) in
                      progress change (if k <? 10 then a else b) with v
                    | |- context [common_days ?k] =>
                      let v := eval vm_compute in (common_days k) in
                      progress change (common_days k) with v
                    end;
             lia |]).
    lia.
Qed.


(** The shape YYYY-MM-DD: ten units, digits around two hyphens. *)
Definition iso_shape (s : jsstring) : bool :=
  match s with
  | [y1; y2; y3; y4; h1; m1; m2; h2; d1; d2] =>
    is_digit y1 && is_digit y2 && is_digit y3 && is_digit y4 && (h1 =? 45)%N
    && is_digit m1 && is_digit m2 && (h2 =? 45)%N && is_digit d1 && is_digit d2
  | _ => false
  end.

Lemma anchored_search_fails : forall ic r rest pos c,
    search_from ic (Cat LineStart r) pos (Some c) rest = None.
Proof.
  intros ic r rest. induction rest as [| x rest IH]; intros pos c.
  - reflexivity.
  - cbn [search_from]. unfold match_at. cbn [run m_prev]. apply IH.
Qed.

Lemma test_anchored : forall ic r s,
    test ic (Cat LineStart r) s
    = match match_at ic (Cat LineStart r) 0 None s with Some _ => true | None => false end.
Proof.
  intros ic r s. unfold test, search. destruct s as [| c s]; cbn [search_from].
  - destruct (match_at _ _ _ _ _); reflexivity.
  - destruct (match_at _ _ _ _ _); [reflexivity |]. rewrite anchored_search_fails. reflexivity.
Qed.

Ltac iso_units :=
  cbn -[N.eqb is_digit];
  repeat match goal with
         | |- context [is_digit ?c] => destruct (is_digit c); cbn -[N.eqb is_digit]
         | |- context [(45 =? ?c)%N] => rewrite (N.eqb_sym 45 c)
         | |- context [(?c =? 45)%N] => destruct (c =? 45)%N; cbn -[N.eqb is_digit]
         end;
  try reflexivity.

(** The pattern of ISO dates accepts the strings of that shape and no
    other. *)
Lemma test_iso_shape : forall s, test false re_iso_date s = iso_shape s.
Proof.
  intros s. unfold re_iso_date. cbn [cat]. rewrite test_anchored.
  unfold match_at.
  do 11 (destruct s as [| ? s]; [solve [iso_units] |]).
  iso_units.
Qed.

Lemma str_eqb_true : forall s t, str_eqb s t = true -> s = t.
Proof.
  induction s as [| a s IH]; intros [| b t] H; cbn in H; try discriminate; [reflexivity |].
  apply andb_true_iff in H. destruct H as [Hab Hst].
  apply N.eqb_eq in Hab. rewrite Hab, (IH t Hst). reflexivity.
Qed.

Lemma pad2_units : forall n,
    0 <= n <= 99 -> pad 2 n = [digit_unit (n / 10); digit_unit (n mod 10)].
Proof.
  intros n Hn.
  assert (H : forall_below 100 (fun n => str_eqb (pad 2 n)
                                             [digit_unit (n / 10); digit_unit (n mod 10)])
              = true) by (vm_compute; reflexivity).
  apply str_eqb_true. apply (@forall_below_spec 100 _ H n). lia.
Qed.

Lemma pad4_units : forall n,
    0 <= n <= 9999 ->
    pad 4 n = [digit_unit (n / 1000); digit_unit (n / 100 mod 10);
               digit_unit (n / 10 mod 10); digit_unit (n mod 10)].
Proof.
  intros n Hn.
  assert (H : forall_below 10000
                (fun n => str_eqb (pad 4 n)
                                  [digit_unit (n / 1000); digit_unit (n / 100 mod 10);
                                   digit_unit (n / 10 mod 10); digit_unit (n mod 10)])
              = true) by (vm_compute; reflexivity).
  apply str_eqb_true. apply (@forall_below_spec 10000 _ H n). lia.
Qed.

Lemma is_digit_unit : forall k, 0 <= k <= 9 -> is_digit (digit_unit k) = true.
Proof.
  intros k Hk. unfold is_digit, digit_unit.
  apply andb_true_iff. split; apply N.leb_le; lia.
Qed.

Lemma digit_unit_value : forall k, 0 <= k -> Z.of_N (digit_unit k) - 48 = k.
Proof. intros k Hk. unfold digit_unit. lia. Qed.

Lemma iso_date_units : forall y m d,
    0 <= y <= 9999 -> 0 <= m <= 99 -> 0 <= d <= 99 ->
    iso_date y m d
    = [digit_unit (y / 1000); digit_unit (y / 100 mod 10);
       digit_unit (y / 10 mod 10); digit_unit (y mod 10); 45%N;
       digit_unit (m / 10); digit_unit (m mod 10); 45%N;
       digit_unit (d / 10); digit_unit (d mod 10)].
Proof.
  intros y m d Hy Hm Hd. unfold iso_date.
  rewrite (pad4_units Hy), (pad2_units Hm), (pad2_units Hd). reflexivity.
Qed.

Lemma iso_date_shape : forall y m d,
    0 <= y <= 9999 -> 0 <= m <= 99 -> 0 <= d <= 99 -> iso_shape (iso_date y m d) = true.
Proof.
  intros y m d Hy Hm Hd. rewrite (iso_date_units Hy Hm Hd). unfold iso_shape.
  rewrite !is_digit_unit by (Z.div_mod_to_equations; lia). reflexivity.
Qed.

Lemma iso_date_fields : forall y m d,
    0 <= y <= 9999 -> 0 <= m <= 99 -> 0 <= d <= 99 ->
    parseDigits (slice 0 4 (iso_date y m d)) = y
    /\ parseDigits (slice 5 7 (iso_date y m d)) = m
    /\ parseDigits (slice 8 10 (iso_date y m d)) = d.
Proof.
  intros y m d Hy Hm Hd. rewrite (iso_date_units Hy Hm Hd).
  unfold slice, parseDigits. cbn [skipn firstn Nat.sub fold_left].
  rewrite !digit_unit_value by (Z.div_mod_to_equations; lia).
  repeat split; Z.div_mod_to_equations; lia.
Qed.

(** [new Date] of the ISO form of a day of the calendar is its midnight. *)
Lemma new_Date_iso : forall parse_impl y m d,
    0 <= y <= 9999 -> exists_day y m d ->
    new_Date parse_impl (iso_date y m d) = Some (days_from_civil y m d * msPerDay).
Proof.
  intros parse_impl y m d Hy Hday.
  pose proof (exists_day_31 Hday) as Hd. destruct Hday as [Hm Hdim].
  assert (Hm99 : 0 <= m <= 99) by lia. assert (Hd99 : 0 <= d <= 99) by lia.
  unfold new_Date. cbv zeta.
  destruct (iso_date_fields Hy Hm99 Hd99) as (-> & -> & ->).
  rewrite test_iso_shape, (iso_date_shape Hy Hm99 Hd99).
  replace (1 <=? m) with true by (symmetry; apply Z.leb_le; lia).
  replace (m <=? 12) with true by (symmetry; apply Z.leb_le; lia).
  replace (1 <=? d) with true by (symmetry; apply Z.leb_le; lia).
  replace (d <=? days_in_month y m) with true by (symmetry; apply Z.leb_le; lia).
  reflexivity.
Qed.

(** The ISO date of the midnight of a day of the calendar. *)
Lemma toISODate_day : forall y m d,
    0 <= y <= 9999 -> exists_day y m d ->
    toISODate (Some (days_from_civil y m d * msPerDay)) = ok (iso_date y m d).
Proof.
  intros y m d Hy Hday. unfold toISODate, toISOString. f_equal.
  apply isoString_date; try assumption.
  - rewrite Day_of_days. apply civil_of_existing_day. exact Hday.
  - apply Hday.
  - apply (exists_day_31 Hday).
Qed.


(** X15.  Round trip: the ISO form of a day of the calendar, leap days
    included, read by [new Date] and rendered by [toISODate], is itself. *)
Theorem iso_date_round_trip : forall parse_impl y m d,
    0 <= y <= 9999 -> exists_day y m d ->
    toISODate (new_Date parse_impl (iso_date y m d)) = ok (iso_date y m d).
Proof.
  intros parse_impl y m d Hy Hday.
  rewrite (new_Date_iso parse_impl Hy Hday). apply toISODate_day; assumption.
Qed.

(** X16.  The other way round: the ISO date of any time of the years 0 to
    9999 is read back as the midnight (UTC) that starts its day. *)
Theorem rendered_date_is_read_back : forall parse_impl t,
    0 <= YearFromTime t <= 9999 ->
    exists s, toISODate (Some t) = ok s
              /\ iso_shape s = true
              /\ new_Date parse_impl s = Some (Day t * msPerDay).
Proof.
  intros parse_impl t HY. unfold YearFromTime in HY.
  pose proof (days_from_civil_from_days (Day t)) as Hback.
  pose proof (civil_from_days_exists (Day t)) as Hex.
  destruct (civil_from_days (Day t)) as [[y m] d] eqn:Hciv. cbn [fst snd] in HY.
  destruct Hback as (Hz & Hm & Hd).
  exists (iso_date y m d). split; [| split].
  - unfold toISODate, toISOString. f_equal. apply isoString_date; assumption.
  - apply iso_date_shape; lia.
  - rewrite (new_Date_iso parse_impl HY Hex), Hz. reflexivity.
Qed.

(** The times [new Date] reads from a string, outside the ISO date form, lie
    in the years 0 to 9999. *)
Definition reads_four_digit_years (parse_impl : jsstring -> Date) : Prop :=
  forall s t, parse_impl s = Some t -> 0 <= YearFromTime t <= 9999.

Lemma isoString_shape : forall t,
    0 <= YearFromTime t <= 9999 -> iso_shape (slice 0 10 (isoString t)) = true.
Proof.
  intros t HY. unfold YearFromTime in HY.
  pose proof (days_from_civil_from_days (Day t)) as Hback.
  destruct (civil_from_days (Day t)) as [[y m] d] eqn:Hciv. cbn [fst snd] in HY.
  destruct Hback as (Hz & Hm & Hd).
  rewrite (isoString_date t Hciv HY Hm Hd). apply iso_date_shape; lia.
Qed.

(** X17.  [normalizeDateISO] returns a string of the ISO shape as it is,
    whether or not the day exists; whatever it returns has that shape, so
    that normalising twice changes nothing. *)
Theorem normalizeDateISO_idempotent : forall parse_impl maybe s,
    reads_four_digit_years parse_impl ->
    normalizeDateISO parse_impl maybe = Some s ->
    iso_shape s = true /\ normalizeDateISO parse_impl (Some s) = Some s.
Proof.
  intros parse_impl maybe s Hrange H.
  assert (Hshape : iso_shape s = true).
  { unfold normalizeDateISO in H. destruct maybe as [x |]; [| discriminate].
    destruct (negb (truthy x)); [discriminate |].
    rewrite test_iso_shape in H. destruct (iso_shape x) eqn:Hx.
    - injection H as <-. exact Hx.
    - unfold new_Date in H. cbv zeta in H. rewrite test_iso_shape, Hx in H. cbn [andb] in H.
      destruct (parse_impl x) as [t |] eqn:Hp; [| discriminate].
      injection H as <-. apply isoString_shape. exact (Hrange x t Hp). }
  split; [exact Hshape |].
  unfold normalizeDateISO. rewrite test_iso_shape, Hshape.
  destruct s; [discriminate | reflexivity].
Qed.

(** The leap day of 2024. *)
Lemma iso_date_round_trip_witness :
  toISODate (new_Date (fun _ => None) (js "2024-02-29")) = ok (js "2024-02-29").
Proof.
  assert (Hy : 0 <= 2024 <= 9999) by lia.
  assert (Hday : exists_day 2024 2 29) by (repeat split; vm_compute; discriminate).
  pose proof (@iso_date_round_trip (fun _ => None) 2024 2 29 Hy Hday) as H.
  vm_compute in H. vm_compute. exact H.
Defined.

Lemma rendered_date_is_read_back_witness :
  exists s, toISODate (Some (noon 2025 10 1)) = ok s
            /\ iso_shape s = true
            /\ new_Date (fun _ => None) s = Some (Day (noon 2025 10 1) * msPerDay).
Proof.
  assert (HY : 0 <= YearFromTime (noon 2025 10 1) <= 9999)
    by (split; vm_compute; discriminate).
  exact (@rendered_date_is_read_back (fun _ => None) (noon 2025 10 1) HY).
Defined.

(** The date of a day that does not exist has the shape and is kept. *)
Lemma normalizeDateISO_idempotent_witness :
  normalizeDateISO (fun _ => None) (Some (js "2025-02-30")) = Some (js "2025-02-30")
  /\ iso_shape (js "2025-02-30") = true.
Proof.
  assert (Hr : reads_four_digit_years (fun _ => None)) by (intros s t H; discriminate).
  assert (H : normalizeDateISO (fun _ => None) (Some (js "2025-02-30"))
              = Some (js "2025-02-30")) by (vm_compute; reflexivity).
  destruct (@normalizeDateISO_idempotent (fun _ => None) _ _ Hr H) as [Hshape Hsame].
  split; [exact Hsame | exact Hshape].
Defined.

End IsoDates.

(* ------------------------------------------------------------------ *)
(** * Requests that need no parsing *)

(** ** Requests that carry their coordinates *)

Lemma iso_date_truthy : forall y m d, truthy (iso_date y m d) = true.
Proof.
  intros y m d. unfold iso_date.
  destruct (pad 4 y ++ js "-" ++ pad 2 m ++ js "-" ++ pad 2 d) eqn:E; [| reflexivity].
  apply app_eq_nil in E. destruct E as [_ E]. discriminate.
Qed.

(** The steps up to the dispatch, for a request without a query that
    carries its coordinates and the ISO date of a day of the calendar. *)
Lemma prepare_dated : forall rt svc body lat lon y m d,
    has_text (body_query body) = false ->
    body_lat body = Some lat ->
    body_lon body = Some lon ->
    body_date body = Some (iso_date y m d) ->
    (0 <= y <= 9999)%Z -> exists_day y m d ->
    prepare rt svc body
    = ret (Continue {| r_activity := body_activity body;
                       r_lat := lat; r_lon := lon;
                       r_target := Some (days_from_civil y m d * msPerDay)%Z;
                       r_dateISO := iso_date y m d |}).
Proof.
  intros rt svc body lat lon y m d Htext Hlat Hlon Hdate Hy Hday.
  unfold prepare. rewrite (resolveIntent_no_text rt svc body Htext), bind_ret.
  cbn [f_date f_location f_activity]. rewrite Hdate.
  rewrite (@defaultDate_given rt _ (iso_date_truthy y m d)), bind_lift_ok.
  rewrite (@resolveCoordinates_supplied svc body None lat lon Hlat Hlon), bind_ret.
  rewrite (@new_Date_iso (Date_parse rt) y m d Hy Hday), (@toISODate_day y m d Hy Hday), bind_lift_ok.
  reflexivity.
Qed.

(** The calls of the dispatch. *)
Definition weather_calls (near : bool) (lat lon : Q) (d : jsstring) : list call :=
  (if near then [CallForecast lat lon d] else []) ++ [CallHistorical lat lon d].

(** With the collaborators of the source, the dispatch never fails: the
    historical fetch settles every year. *)
Lemma dispatch_never_fails : forall rt up near lat lon d,
    exists f h,
      dispatch (services rt up) near lat lon d
      = (weather_calls near lat lon d, inl (f, Some h)).
Proof.
  intros rt up near lat lon d. destruct near.
  - rewrite dispatch_near. cbn [services svc_historical].
    unfold fetchHistoricalPOWERForDay. cbv zeta. cbn [of_result].
    eexists. eexists. reflexivity.
  - rewrite dispatch_far. cbn [services svc_historical].
    unfold fetchHistoricalPOWERForDay. cbv zeta.
    eexists. eexists. reflexivity.
Qed.

(** X18.  A request without a query that carries its coordinates and the ISO
    date of a day of the calendar is answered 200 for that date, whatever
    the upstream services do: after a call to the historical source alone
    (source "ERA5"), or to the forecast source and then the historical one
    (source "GFS+ERA5"), for these coordinates and this date. *)
Theorem dated_request_is_answered : forall rt up body lat lon y m d,
    has_text (body_query body) = false ->
    body_lat body = Some lat ->
    body_lon body = Some lon ->
    body_date body = Some (iso_date y m d) ->
    (0 <= y <= 9999)%Z -> exists_day y m d ->
    exists calls p,
      POST rt up body = (calls, respond 200 (PredictionBody p))
      /\ date p = iso_date y m d
      /\ ((calls = [CallHistorical lat lon (iso_date y m d)] /\ source p = js "ERA5")
          \/ (calls = [CallForecast lat lon (iso_date y m d);
                       CallHistorical lat lon (iso_date y m d)]
              /\ source p = js "GFS+ERA5")).
Proof.
  intros rt up body lat lon y m d Htext Hlat Hlon Hdate Hy Hday.
  unfold POST, POST_with, handle.
  rewrite (@prepare_dated rt (services rt up) body lat lon y m d Htext Hlat Hlon Hdate Hy Hday), bind_ret.
  cbv zeta. cbn [r_target r_lat r_lon r_dateISO r_activity].
  set (near := nearFuture rt _).
  destruct (dispatch_never_fails rt up near lat lon (iso_date y m d)) as (f & h & ->).
  rewrite bind_ok. cbn [fst snd ret app]. rewrite app_nil_r.
  eexists. eexists. split; [reflexivity |]. split; [reflexivity |].
  destruct near; [right | left]; split; reflexivity.
Qed.

Lemma dated_request_is_answered_witness :
  exists calls p,
    POST rt_sample up_nowhere (at_paris "2024-02-29") = (calls, respond 200 (PredictionBody p))
    /\ date p = js "2024-02-29"
    /\ ((calls = [CallHistorical (c_lat paris) (c_lon paris) (js "2024-02-29")]
         /\ source p = js "ERA5")
        \/ (calls = [CallForecast (c_lat paris) (c_lon paris) (js "2024-02-29");
                     CallHistorical (c_lat paris) (c_lon paris) (js "2024-02-29")]
            /\ source p = js "GFS+ERA5")).
Proof.
  assert (Hy : (0 <= 2024 <= 9999)%Z) by lia.
  assert (Hday : exists_day 2024 2 29) by (repeat split; vm_compute; discriminate).
  assert (Hdate : body_date (at_paris "2024-02-29") = Some (iso_date 2024 2 29))
    by (vm_compute; reflexivity).
  pose proof (@dated_request_is_answered rt_sample up_nowhere (at_paris "2024-02-29")
                (c_lat paris) (c_lon paris) 2024 2 29 eq_refl eq_refl eq_refl Hdate Hy Hday)
    as H.
  assert (E : iso_date 2024 2 29 = js "2024-02-29") by (vm_compute; reflexivity).
  rewrite E in H. exact H.
Defined.

(** A week from now lies in the near future. *)
Lemma a_week_ahead_is_near : forall rt,
    nearFuture rt (Some ((Day (clock rt) + 7) * msPerDay)%Z) = true.
Proof.
  intros rt. unfold nearFuture, isFuture, within16d, daysAhead, Day, msPerDay.
  apply andb_true_iff. split; [apply Z.ltb_lt | apply Z.leb_le];
    Z.div_mod_to_equations; lia.
Qed.

(** X19.  A request without a query and without a date that carries its
    coordinates is served by both sources, for the day a week from now, and
    answered 200 whatever the upstream services do. *)
Theorem undated_request_uses_both_sources : forall rt up body lat lon y m d,
    has_text (body_query body) = false ->
    body_lat body = Some lat ->
    body_lon body = Some lon ->
    falsy (body_date body) = true ->
    civil_from_days (Day (clock rt) + 7) = (y, m, d) ->
    (0 <= y <= 9999)%Z ->
    exists p,
      POST rt up body
      = ([CallForecast lat lon (iso_date y m d); CallHistorical lat lon (iso_date y m d)],
         respond 200 (PredictionBody p))
      /\ date p = iso_date y m d
      /\ source p = js "GFS+ERA5".
Proof.
  intros rt up body lat lon y m d Htext Hlat Hlon Hdate Hciv Hy.
  pose proof (days_from_civil_from_days (Day (clock rt) + 7)%Z) as Hback.
  pose proof (civil_from_days_exists (Day (clock rt) + 7)%Z) as Hday.
  rewrite Hciv in Hback, Hday. destruct Hback as (Hz & _).
  unfold POST, POST_with, handle, prepare.
  rewrite (resolveIntent_no_text rt (services rt up) body Htext), bind_ret.
  cbn [f_date f_location f_activity].
  rewrite (@defaultDate_absent rt (body_date body) y m d Hdate Hciv Hy), bind_lift_ok.
  rewrite (@resolveCoordinates_supplied (services rt up) body None lat lon Hlat Hlon), bind_ret.
  rewrite (@new_Date_iso (Date_parse rt) y m d Hy Hday), (@toISODate_day y m d Hy Hday).
  rewrite bind_lift_ok, bind_ret. cbv zeta. cbn [r_target r_lat r_lon r_dateISO r_activity].
  rewrite Hz, a_week_ahead_is_near.
  destruct (dispatch_never_fails rt up true lat lon (iso_date y m d)) as (f & h & ->).
  rewrite bind_ok. cbn [fst snd ret app weather_calls].
  eexists. split; [reflexivity |]. split; reflexivity.
Qed.

Lemma undated_request_uses_both_sources_witness :
  exists p,
    POST rt_sample up_nowhere
         {| body_query := None; body_lat := Some (c_lat paris); body_lon := Some (c_lon paris);
            body_date := None; body_activity := None |}
    = ([CallForecast (c_lat paris) (c_lon paris) (js "2025-10-08");
        CallHistorical (c_lat paris) (c_lon paris) (js "2025-10-08")],
       respond 200 (PredictionBody p))
    /\ date p = js "2025-10-08"
    /\ source p = js "GFS+ERA5".
Proof.
  assert (Hciv : civil_from_days (Day (clock rt_sample) + 7) = (2025, 10, 8)%Z)
    by (vm_compute; reflexivity).
  assert (Hy : (0 <= 2025 <= 9999)%Z) by lia.
  pose proof (@undated_request_uses_both_sources rt_sample up_nowhere
                {| body_query := None; body_lat := Some (c_lat paris);
                   body_lon := Some (c_lon paris);
                   body_date := None; body_activity := None |}
                (c_lat paris) (c_lon paris) 2025 10 8 eq_refl eq_refl eq_refl eq_refl Hciv Hy)
    as H.
  assert (E : iso_date 2025 10 8 = js "2025-10-08") by (vm_compute; reflexivity).
  rewrite E in H. exact H.
Defined.

(** ** The years the historical fetchers ask for *)

Lemma fields_of_a_day : forall y m d,
    exists_day y m d ->
    let target := Some (days_from_civil y m d * msPerDay)%Z in
    getUTCFullYear target = Some y
    /\ getUTCMonth target = Some (m - 1)%Z
    /\ getUTCDate target = Some d.
Proof.
  intros y m d Hday. cbv zeta.
  unfold getUTCFullYear, getUTCMonth, getUTCDate, YearFromTime, MonthFromTime, DateFromTime.
  cbn [option_map]. rewrite Day_of_days, (civil_of_existing_day Hday). cbn [fst snd].
  repeat split.
Qed.

Lemma two_digits_pad : forall n, (0 <= n)%Z -> two_digits (Some n) = pad 2 n.
Proof.
  intros n Hn. unfold two_digits, pad, String_int.
  replace (n <? 0)%Z with false by (symmetry; apply Z.ltb_ge; lia). reflexivity.
Qed.

(** X20.  For the ISO date of a day of the calendar, each historical fetcher
    asks for the same month and day, written with two digits, of the [n]
    years that precede the year of the date, the latest first, and returns
    the aggregate of these requests. *)
Theorem historical_years_requested : forall parse_impl power era5 lat lon y m d n,
    (0 <= y <= 9999)%Z -> exists_day y m d ->
    let years := map (fun i => Some (y - 1 - Z.of_nat i)%Z) (seq 0 n) in
    fetchHistoricalPOWERForDay parse_impl power lat lon (iso_date y m d) n
    = ok (aggregateYears (map (fetchOnePOWER power lat lon (pad 2 m) (pad 2 d)) years))
    /\ fetchHistoricalERA5ForDay parse_impl era5 lat lon (iso_date y m d) n
       = ok (aggregateYears (map (fetchOneERA5 era5 lat lon (pad 2 m) (pad 2 d)) years)).
Proof.
  intros parse_impl power era5 lat lon y m d n Hy Hday years.
  pose proof (exists_day_31 Hday) as Hd.
  destruct (fields_of_a_day Hday) as (HY & HM & HD).
  unfold fetchHistoricalPOWERForDay, fetchHistoricalERA5ForDay. cbv zeta.
  rewrite (@new_Date_iso parse_impl y m d Hy Hday).
  unfold monthOf, dayOf, yearsOf, yearsBefore. rewrite HY, HM, HD. cbn [option_map].
  replace (1 + (m - 1))%Z with m by lia.
  rewrite !two_digits_pad by (destruct Hday; lia).
  split; reflexivity.
Qed.

Lemma historical_years_requested_witness :
  fetchHistoricalPOWERForDay (fun _ => None) (power up_sample) (c_lat paris) (c_lon paris)
                             (js "2025-10-10") 3
  = ok (aggregateYears
          (map (fetchOnePOWER (power up_sample) (c_lat paris) (c_lon paris) (js "10") (js "10"))
               [Some 2024; Some 2023; Some 2022]%Z)).
Proof.
  assert (Hy : (0 <= 2025 <= 9999)%Z) by lia.
  assert (Hday : exists_day 2025 10 10) by (repeat split; vm_compute; discriminate).
  destruct (@historical_years_requested (fun _ => None) (power up_sample)
              (fun _ _ _ => Unreachable) (c_lat paris) (c_lon paris) 2025 10 10 3 Hy Hday)
    as [H _].
  assert (E : iso_date 2025 10 10 = js "2025-10-10") by (vm_compute; reflexivity).
  rewrite E in H. rewrite H. reflexivity.
Defined.

(* ------------------------------------------------------------------ *)
(** * The protocol of the handler *)

(** ** The statuses of the handler *)

Lemma resolveIntent_return_strict : forall rt svc body l r,
    resolveIntent rt svc body = (l, inl (Return r)) ->
    status r = 422%Z /\ strict_mode rt = true /\ has_text (body_query body) = true.
Proof.
  intros rt svc body l r H.
  destruct (has_text (body_query body)) eqn:Htext.
  - rewrite (resolveIntent_text rt svc body Htext) in H. cbv zeta in H.
    destruct (strict_mode rt); cbn [andb] in H.
    + destruct (incomplete _).
      * injection H as _ <-. repeat split.
      * discriminate.
    + destruct (incomplete _); [| discriminate].
      destruct (parseFrenchFallback _ _); discriminate.
  - rewrite (resolveIntent_no_text rt svc body Htext) in H. discriminate.
Qed.

(** X21.  Whatever the collaborators do, the handler answers 200, 400, 422
    or 500; 422 only in strict mode, to a query that is not blank. *)
Theorem handler_statuses : forall rt svc body,
    let r := snd (POST_with rt svc body) in
    (status r = 200 \/ status r = 400 \/ status r = 422 \/ status r = 500)%Z
    /\ (status r = 422%Z -> strict_mode rt = true /\ has_text (body_query body) = true).
Proof.
  intros rt svc body. cbv zeta. unfold POST_with, handle.
  destruct (prepare rt svc body) as [l0 [[r0 | r0] | e0]] eqn:Ep.
  - rewrite bind_ok. cbn [fst snd ret].
    unfold prepare in Ep.
    destruct (resolveIntent rt svc body) as [l1 [[r1 | fields] | e1]] eqn:Ei.
    + rewrite bind_ok in Ep. cbn [fst snd ret] in Ep. injection Ep as _ <-.
      destruct (resolveIntent_return_strict rt svc body Ei) as (H422 & Hs & Ht).
      split; [right; right; left; exact H422 | intros _; split; assumption].
    + rewrite bind_ok in Ep.
      destruct (defaultDate rt (f_date fields)) as [dat | e]; [| discriminate].
      rewrite bind_lift_ok in Ep.
      destruct (resolveCoordinates svc body (f_location fields))
        as [l2 [[[lat |] [lon |]] | e]];
        rewrite ?bind_ok, ?bind_throw in Ep; cbn [fst snd ret] in Ep; try discriminate;
          try (injection Ep as _ <-; cbn [status respond];
               split; [right; left; reflexivity | discriminate]).
      destruct (toISODate _); discriminate.
    + discriminate.
  - rewrite bind_ok. cbv zeta.
    destruct (dispatch svc _ _ _ _) as [l1 [fh | e1]]; cbn [fst snd bind ret respond status].
    + split; [left; reflexivity | discriminate].
    + split; [right; right; right; reflexivity | discriminate].
  - cbn [bind fst snd respond status].
    split; [right; right; right; reflexivity | discriminate].
Qed.

(** ** The calls of the handler *)

Definition is_geocoding (c : call) : Prop :=
  match c with CallGeocoder _ => True | _ => False end.

Lemma tryGeocode_shape : forall svc place c,
    exists c', tryGeocode svc place c = ([CallGeocoder place], inl c').
Proof.
  intros svc place c. unfold tryGeocode, geocode, invoke, catch.
  destruct (svc_geocode svc place) as [pt | e]; cbn; eexists; reflexivity.
Qed.

(** The two attempts on the query, lines 458 to 483. *)
Definition lastResort (svc : Services) (body : Body) (c : coords) : io coords :=
  if missing c && negb (falsy (body_query body)) then
    let query := nullish_or (body_query body) [] in
    let candidate := extractCandidateLocation query in
    c <- (if negb (falsy candidate)
          then tryGeocode svc (nullish_or candidate []) c
          else ret c) ;;
    let cleaned := cleanedQuery query in
    if truthy cleaned then tryGeocode svc cleaned c else ret c
  else ret c.

(** The attempt on the location, lines 450 to 455. *)
Definition firstResort (svc : Services) (body : Body) (loc : option jsstring) : io coords :=
  let c : coords := (body_lat body, body_lon body) in
  if missing c && negb (falsy loc)
  then pt <- geocode svc (nullish_or loc []) ;; ret (set_coords pt)
  else ret c.

Lemma resolveCoordinates_parts : forall svc body loc,
    resolveCoordinates svc body loc = bind (firstResort svc body loc) (lastResort svc body).
Proof. reflexivity. Qed.

Lemma firstResort_shape : forall svc body loc,
    Forall is_geocoding (fst (firstResort svc body loc))
    /\ (List.length (fst (firstResort svc body loc)) <= 1)%nat.
Proof.
  intros svc body loc. unfold firstResort. cbv zeta.
  destruct (_ && _); [| split; [constructor | cbn; lia]].
  unfold geocode, invoke. destruct (svc_geocode svc _) as [pt | e].
  - rewrite bind_ok. unfold ret. cbn [fst snd app List.length].
    split; [repeat constructor; exact I | lia].
  - rewrite bind_throw. cbn [fst snd List.length].
    split; [repeat constructor; exact I | lia].
Qed.

Lemma lastResort_shape : forall svc body c,
    Forall is_geocoding (fst (lastResort svc body c))
    /\ (List.length (fst (lastResort svc body c)) <= 2)%nat.
Proof.
  intros svc body c. unfold lastResort. cbv zeta.
  destruct (_ && _); [| split; [constructor | cbn [fst ret List.length]; lia]].
  generalize (nullish_or (body_query body) []). intros q.
  generalize (extractCandidateLocation q) (cleanedQuery q). intros candidate cleaned.
  destruct (negb (falsy candidate)).
  - destruct (tryGeocode_shape svc (nullish_or candidate []) c) as [c2 ->].
    rewrite bind_ok. destruct (truthy cleaned).
    + destruct (tryGeocode_shape svc cleaned c2) as [c3 ->].
      cbn [fst snd app List.length]. split; [repeat constructor | lia].
    + unfold ret. cbn [fst snd app List.length]. split; [repeat constructor | lia].
  - rewrite bind_ret. destruct (truthy cleaned).
    + destruct (tryGeocode_shape svc cleaned c) as [c3 ->].
      cbn [fst snd app List.length]. split; [repeat constructor | lia].
    + unfold ret. cbn [fst snd app List.length]. split; [repeat constructor | lia].
Qed.

Lemma resolveCoordinates_shape : forall svc body loc,
    Forall is_geocoding (fst (resolveCoordinates svc body loc))
    /\ (List.length (fst (resolveCoordinates svc body loc)) <= 3)%nat.
Proof.
  intros svc body loc. rewrite resolveCoordinates_parts.
  destruct (firstResort_shape svc body loc) as [Hg1 Hn1].
  destruct (firstResort svc body loc) as [l1 [c1 | e]]; cbn [fst] in *.
  - rewrite bind_ok. cbn [fst].
    destruct (lastResort_shape svc body c1) as [Hg2 Hn2].
    split; [apply Forall_app; split; assumption | rewrite length_app; lia].
  - rewrite bind_throw. cbn [fst]. split; [exact Hg1 | lia].
Qed.

Definition parser_calls (body : Body) : list call :=
  if has_text (body_query body) then [CallParser (nullish_or (body_query body) [])] else [].

Lemma resolveIntent_calls : forall rt svc body,
    fst (resolveIntent rt svc body) = parser_calls body.
Proof.
  intros rt svc body. unfold parser_calls.
  destruct (has_text (body_query body)) eqn:Htext.
  - rewrite (resolveIntent_text rt svc body Htext). cbv zeta.
    destruct (strict_mode rt && _); [reflexivity |].
    destruct (incomplete _); [| reflexivity].
    destruct (parseFrenchFallback _ _); reflexivity.
  - rewrite (resolveIntent_no_text rt svc body Htext). reflexivity.
Qed.

Lemma dispatch_calls : forall svc near lat lon d,
    fst (dispatch svc near lat lon d) = weather_calls near lat lon d.
Proof.
  intros svc near lat lon d. destruct near.
  - rewrite dispatch_near. reflexivity.
  - rewrite dispatch_far. destruct (svc_historical _ _ _ _ _); reflexivity.
Qed.

Lemma dispatch_status : forall svc near lat lon d (k : option Forecast * option Climatology -> Prediction),
    let m := bind (dispatch svc near lat lon d)
                  (fun fh => ret (respond 200 (PredictionBody (k fh)))) in
    fst m = weather_calls near lat lon d
    /\ forall r, snd m = inl r -> status r = 200%Z.
Proof.
  intros svc near lat lon d k. cbv zeta.
  pose proof (dispatch_calls svc near lat lon d) as Hc.
  destruct (dispatch svc near lat lon d) as [l [fh | e]]; cbn [fst] in Hc; subst l.
  - rewrite bind_ok. cbn [fst snd ret]. rewrite app_nil_r.
    split; [reflexivity |]. intros r H. injection H as <-. reflexivity.
  - rewrite bind_throw. cbn [fst snd]. split; [reflexivity | discriminate].
Qed.

Definition supplied (body : Body) (lat lon : Q) : Prop :=
  body_lat body = Some lat /\ body_lon body = Some lon.

Lemma bind_calls : forall A B (m : io A) (f : A -> io B),
    fst (bind m f) = fst m ++ match snd m with inl a => fst (f a) | inr _ => [] end.
Proof.
  intros A B [l [a | e]] f; cbn [fst snd].
  - rewrite bind_ok. reflexivity.
  - rewrite bind_throw, app_nil_r. reflexivity.
Qed.

Lemma bind_value : forall A B (m : io A) (f : A -> io B),
    snd (bind m f) = match snd m with inl a => snd (f a) | inr e => inr e end.
Proof.
  intros A B [l [a | e]] f; cbn [fst snd].
  - rewrite bind_ok. reflexivity.
  - rewrite bind_throw. reflexivity.
Qed.

(** What is known of the steps up to the dispatch. *)
Lemma prepare_trace : forall rt svc body,
    exists g,
      fst (prepare rt svc body) = parser_calls body ++ g
      /\ Forall is_geocoding g /\ (List.length g <= 3)%nat
      /\ (forall lat lon, supplied body lat lon -> g = [])
      /\ (forall r lat lon, snd (prepare rt svc body) = inl (Continue r) ->
                            supplied body lat lon -> r_lat r = lat /\ r_lon r = lon).
Proof.
  intros rt svc body. unfold prepare.
  rewrite bind_calls, bind_value, resolveIntent_calls.
  destruct (snd (resolveIntent rt svc body)) as [[r1 | fields] | e1].
  - exists []. cbn [fst snd ret]. split; [reflexivity |]. split; [constructor |].
    split; [cbn; lia |]. split; [reflexivity | discriminate].
  - rewrite bind_calls, bind_value. cbn [lift fst snd app].
    destruct (defaultDate rt (f_date fields)) as [dat | e].
    + rewrite bind_calls, bind_value.
      destruct (resolveCoordinates_shape svc body (f_location fields)) as [Hg Hn].
      assert (Hsup : forall lat lon, supplied body lat lon ->
                 resolveCoordinates svc body (f_location fields) = ret (Some lat, Some lon)).
      { intros lat lon [Hlat Hlon].
        exact (@resolveCoordinates_supplied svc body (f_location fields) lat lon Hlat Hlon). }
      destruct (resolveCoordinates svc body (f_location fields)) as [g [c | e]];
        cbn [fst snd] in *.
      * exists g.
        assert (Hg0 : forall lat lon, supplied body lat lon -> g = []).
        { intros lat lon Hs. specialize (Hsup lat lon Hs). injection Hsup as -> _. reflexivity. }
        destruct c as [[lat |] [lon |]].
        2-4: cbn [fst snd ret]; rewrite app_nil_r;
          (split; [reflexivity |]); (split; [exact Hg |]); (split; [exact Hn |]);
          (split; [exact Hg0 | discriminate]).
        rewrite bind_calls, bind_value. cbn [lift fst snd app].
        destruct (toISODate (new_Date (Date_parse rt) dat)) as [dateISO | e];
          cbn [fst snd ret]; rewrite app_nil_r;
            (split; [reflexivity |]); (split; [exact Hg |]); (split; [exact Hn |]);
            (split; [exact Hg0 |]); [| discriminate].
        intros r lat' lon' H Hs. injection H as <-. cbn [r_lat r_lon].
        specialize (Hsup lat' lon' Hs). injection Hsup as _ <- <-. split; reflexivity.
      * exists g. rewrite app_nil_r.
        split; [reflexivity |]. split; [exact Hg |]. split; [exact Hn |]. split.
        -- intros lat lon Hs. specialize (Hsup lat lon Hs). discriminate.
        -- discriminate.
    + exists []. split; [reflexivity |]. split; [constructor |].
      split; [cbn; lia |]. split; [reflexivity | discriminate].
  - exists []. split; [reflexivity |]. split; [constructor |].
    split; [cbn; lia |]. split; [reflexivity | discriminate].
Qed.

Lemma handle_parts : forall rt svc body,
    fst (handle rt svc body)
    = fst (prepare rt svc body)
      ++ match snd (prepare rt svc body) with
         | inl (Continue r) =>
           weather_calls (nearFuture rt (r_target r)) (r_lat r) (r_lon r) (r_dateISO r)
         | _ => []
         end
    /\ match snd (prepare rt svc body) with
       | inl (Continue r) => forall resp, snd (handle rt svc body) = inl resp -> status resp = 200%Z
       | inl (Return r) => snd (handle rt svc body) = inl r
       | inr e => snd (handle rt svc body) = inr e
       end.
Proof.
  intros rt svc body. unfold handle. rewrite bind_calls, bind_value.
  destruct (snd (prepare rt svc body)) as [[r | r] | e]; cbv zeta.
  - split; reflexivity.
  - destruct (@dispatch_status svc (nearFuture rt (r_target r)) (r_lat r) (r_lon r) (r_dateISO r)
                (fun fh => combine (Math_exp rt) (fst fh) (snd fh) (r_activity r)
                                   (nearFuture rt (r_target r)) (r_dateISO r)))
      as [Hc Hs].
    split; [rewrite Hc; reflexivity | exact Hs].
  - split; reflexivity.
Qed.

Lemma POST_with_parts : forall rt svc body,
    fst (POST_with rt svc body) = fst (handle rt svc body)
    /\ snd (POST_with rt svc body)
       = match snd (handle rt svc body) with
         | inl r => r
         | inr e => respond 500 (ErrorBody e)
         end.
Proof.
  intros rt svc body. unfold POST_with.
  destruct (handle rt svc body) as [l [r | e]]; split; reflexivity.
Qed.

(** X22.  The order of the calls, whatever the collaborators do: the AI
    parser once, when the query is not blank; then at most three calls to
    the geocoder; then the weather sources, the forecast before the
    history.  Without a call to a weather source the answer is not 200; with
    one it is 200 or 500. *)
Theorem handler_protocol : forall rt svc body,
    exists g w,
      fst (POST_with rt svc body) = parser_calls body ++ g ++ w
      /\ Forall is_geocoding g /\ (List.length g <= 3)%nat
      /\ ((w = [] /\ status (snd (POST_with rt svc body)) <> 200%Z)
          \/ (exists near lat lon d,
                 w = weather_calls near lat lon d
                 /\ (status (snd (POST_with rt svc body)) = 200
                     \/ status (snd (POST_with rt svc body)) = 500)%Z)).
Proof.
  intros rt svc body.
  destruct (POST_with_parts rt svc body) as [-> ->].
  destruct (prepare_trace rt svc body) as (g & Hp & Hg & Hn & _).
  destruct (handle_parts rt svc body) as [Hc Hs]. rewrite Hc, Hp.
  destruct (snd (prepare rt svc body)) as [[r | r] | e] eqn:Ep.
  - exists g, []. rewrite <- app_assoc. split; [reflexivity |].
    split; [exact Hg |]. split; [exact Hn |]. left. split; [reflexivity |].
    rewrite Hs.
    assert (H : status r = 422%Z \/ status r = 400%Z).
    { apply (@prepare_return rt svc body (fst (prepare rt svc body)) r).
      rewrite <- Ep. destruct (prepare rt svc body); reflexivity. }
    destruct H as [-> | ->]; discriminate.
  - exists g, (weather_calls (nearFuture rt (r_target r)) (r_lat r) (r_lon r) (r_dateISO r)).
    rewrite <- app_assoc. split; [reflexivity |].
    split; [exact Hg |]. split; [exact Hn |]. right.
    eexists. eexists. eexists. eexists. split; [reflexivity |].
    destruct (snd (handle rt svc body)) as [resp | e].
    + left. apply Hs. reflexivity.
    + right. reflexivity.
  - exists g, []. rewrite <- app_assoc. split; [reflexivity |].
    split; [exact Hg |]. split; [exact Hn |]. left. split; [reflexivity |].
    rewrite Hs. discriminate.
Qed.

(** X23.  A request that carries both coordinates never calls the geocoder,
    and the weather sources are asked about these coordinates. *)
Theorem supplied_coordinates_are_used : forall rt svc body lat lon,
    body_lat body = Some lat ->
    body_lon body = Some lon ->
    exists w,
      fst (POST_with rt svc body) = parser_calls body ++ w
      /\ (w = [] \/ exists near d, w = weather_calls near lat lon d).
Proof.
  intros rt svc body lat lon Hlat Hlon.
  assert (Hsup : supplied body lat lon) by (split; assumption).
  destruct (POST_with_parts rt svc body) as [-> _].
  destruct (prepare_trace rt svc body) as (g & Hp & _ & _ & Hg0 & Hr).
  destruct (handle_parts rt svc body) as [Hc _]. rewrite Hc, Hp.
  rewrite (Hg0 lat lon Hsup), app_nil_r.
  destruct (snd (prepare rt svc body)) as [[r | r] | e] eqn:Ep.
  - exists []. split; [reflexivity | left; reflexivity].
  - destruct (Hr r lat lon eq_refl Hsup) as [-> ->].
    eexists. split; [reflexivity |]. right. eexists. eexists. reflexivity.
  - exists []. split; [reflexivity | left; reflexivity].
Qed.

Lemma supplied_coordinates_are_used_witness :
  exists w,
    fst (POST_with rt_sample svc_down (at_paris "2025-10-10"))
    = parser_calls (at_paris "2025-10-10") ++ w
    /\ (w = [] \/ exists near d, w = weather_calls near (c_lat paris) (c_lon paris) d).
Proof.
  destruct (@supplied_coordinates_are_used rt_sample svc_down (at_paris "2025-10-10")
              (c_lat paris) (c_lon paris) eq_refl eq_refl) as (w & Hw & Hcases).
  exists w. split; [exact Hw | exact Hcases].
Defined.

(* ------------------------------------------------------------------ *)
(** * Trimming *)

(** ** Trimmed strings *)

(** A string without white space at either end. *)
Definition starts_clean (s : jsstring) : Prop :=
  match s with c :: _ => is_space c = false | [] => True end.

Definition trimmed (s : jsstring) : Prop := starts_clean s /\ starts_clean (rev s).

Lemma trimStart_clean : forall s, starts_clean (trimStart s).
Proof.
  induction s as [| c s IH]; cbn [trimStart]; [exact I |].
  destruct (is_space c) eqn:E; [exact IH | exact E].
Qed.

Lemma trimStart_of_clean : forall s, starts_clean s -> trimStart s = s.
Proof.
  intros [| c s] H; [reflexivity |]. cbn in *. rewrite H. reflexivity.
Qed.

(** [trimStart] drops a prefix: what is left is a suffix of the string. *)
Lemma trimStart_suffix : forall s, exists pre, s = pre ++ trimStart s /\ Forall (fun c => is_space c = true) pre.
Proof.
  induction s as [| c s IH]; cbn [trimStart].
  - exists []. split; [reflexivity | constructor].
  - destruct (is_space c) eqn:E.
    + destruct IH as (pre & Hs & Hpre). exists (c :: pre). split.
      * cbn. rewrite <- Hs. reflexivity.
      * constructor; assumption.
    + exists []. split; [reflexivity | constructor].
Qed.

Lemma starts_clean_rev_suffix : forall pre s,
    starts_clean (rev (pre ++ s)) -> s <> [] -> starts_clean (rev s).
Proof.
  intros pre s H Hs. rewrite rev_app_distr in H.
  destruct (rev s) as [| c r] eqn:E.
  - exfalso. apply Hs. apply (f_equal (@rev N)) in E. rewrite rev_involutive in E. exact E.
  - exact H.
Qed.

Lemma trim_trimmed : forall s, trimmed (trim s).
Proof.
  intros s. unfold trim, trimmed. rewrite rev_involutive.
  split; [| apply trimStart_clean].
  set (t := trimStart s).
  assert (Ht : starts_clean t) by apply trimStart_clean.
  destruct (trimStart_suffix (rev t)) as (pre & Hrev & Hpre).
  set (u := trimStart (rev t)) in *.
  (* t = rev u ++ rev pre *)
  assert (Hteq : t = rev u ++ rev pre).
  { apply (f_equal (@rev N)) in Hrev. rewrite rev_involutive, rev_app_distr in Hrev. exact Hrev. }
  destruct (rev u) as [| c r] eqn:Eu; [exact I |].
  rewrite Hteq in Ht. exact Ht.
Qed.

Lemma trim_of_trimmed : forall s, trimmed s -> trim s = s.
Proof.
  intros s [Hs Hr]. unfold trim.
  rewrite (trimStart_of_clean s Hs), (trimStart_of_clean (rev s) Hr). apply rev_involutive.
Qed.

(** [trim] is idempotent. *)
Lemma trim_idempotent : forall s, trim (trim s) = trim s.
Proof. intros s. apply trim_of_trimmed, trim_trimmed. Qed.

(** X24.  The place [sanitizeLocationString] returns is never empty and has
    no white space at either end. *)
Theorem sanitized_place_is_trimmed : forall input s,
    sanitizeLocationString input = Some s -> s <> [] /\ trimmed s.
Proof.
  intros input s H. unfold sanitizeLocationString in H.
  destruct input as [i |]; [| discriminate].
  destruct (negb (truthy i)); [discriminate |]. cbv zeta in H.
  match type of H with
  | (if truthy (trim ?x) then _ else _) = _ => set (last := x) in H
  end.
  destruct (trim last) as [| c t] eqn:E; [discriminate |].
  cbn [truthy] in H. injection H as <-.
  split; [discriminate |]. rewrite <- E. apply trim_trimmed.
Qed.

Lemma sanitized_place_is_trimmed_witness :
  sanitizeLocationString (Some (js "  Rando a  Paris , le 10 octobre 2025 ")) = Some (js "Paris")
  /\ trimmed (js "Paris").
Proof.
  assert (H : sanitizeLocationString (Some (js "  Rando a  Paris , le 10 octobre 2025 "))
              = Some (js "Paris")) by (vm_compute; reflexivity).
  split; [exact H |].
  exact (proj2 (@sanitized_place_is_trimmed _ _ H)).
Defined.

(** ** Blank queries *)

(** An absent query, or one made of white space only. *)
Definition blank_query (q : option jsstring) : bool :=
  match q with Some q => forallb is_space q | None => true end.

Lemma trimStart_blank : forall q, forallb is_space q = true -> trimStart q = [].
Proof.
  induction q as [| c q IH]; intros H; [reflexivity |].
  cbn in H. apply andb_true_iff in H. destruct H as [Hc Hq].
  cbn [trimStart]. rewrite Hc. exact (IH Hq).
Qed.

Lemma trim_blank : forall q, forallb is_space q = true -> trim q = [].
Proof. intros q H. unfold trim. rewrite (trimStart_blank q H). reflexivity. Qed.

Lemma space_is_not_word : forall c, is_space c = true -> is_word c = false.
Proof.
  intros c H. unfold is_space in H. unfold is_word, is_digit.
  repeat rewrite orb_true_iff in H. repeat rewrite andb_true_iff in H.
  repeat rewrite N.leb_le in H. repeat rewrite N.eqb_eq in H.
  repeat (apply orb_false_iff; split); try apply andb_false_iff;
    try apply N.eqb_neq; rewrite ?N.leb_gt; lia.
Qed.

Lemma wordless_of_blank : forall q,
    forallb is_space q = true -> forallb (fun c => negb (is_word c)) q = true.
Proof.
  induction q as [| c q IH]; intros H; [reflexivity |].
  cbn in *. apply andb_true_iff in H. destruct H as [Hc Hq].
  rewrite (space_is_not_word c Hc), (IH Hq). reflexivity.
Qed.

(** A pattern that starts with [\b] finds nothing in a text without word
    characters, and a replacement with it changes nothing. *)
Lemma replace_wordless : forall ic r by_ fuel pos prev rest,
    word_at prev = false ->
    forallb (fun c => negb (is_word c)) rest = true ->
    replace_loop fuel ic (Cat WordBoundary r) by_ pos prev rest = rest.
Proof.
  intros ic r by_. induction fuel as [| fuel IH]; intros pos prev rest Hprev Hrest;
    [reflexivity |].
  cbn [replace_loop]. unfold match_at. cbn [run m_prev m_rest].
  destruct rest as [| c t].
  - cbn [hd_error word_at]. rewrite Hprev. reflexivity.
  - cbn in Hrest. apply andb_true_iff in Hrest. destruct Hrest as [Hc Ht].
    apply negb_true_iff in Hc.
    cbn [hd_error word_at]. rewrite Hprev, Hc. cbn [xorb].
    rewrite (IH (S pos) (Some c) t Hc Ht). reflexivity.
Qed.

Lemma replace_all_wordless : forall ic r by_ s,
    forallb (fun c => negb (is_word c)) s = true ->
    replace_all ic (Cat WordBoundary r) by_ s = s.
Proof.
  intros ic r by_ s H. unfold replace_all. apply replace_wordless; [reflexivity | exact H].
Qed.

Lemma cleanedQuery_blank : forall q, forallb is_space q = true -> cleanedQuery q = [].
Proof.
  intros q H. pose proof (wordless_of_blank q H) as Hw. unfold cleanedQuery.
  unfold re_number_word, re_year_word, re_a_grave, re_activity_word, re_date_fragment.
  cbn [cat].
  do 5 match goal with
       | |- context [replace_all ?ic (Cat WordBoundary ?r) ?b q] =>
         rewrite (@replace_all_wordless ic r b q Hw)
       end.
  apply trim_blank. exact H.
Qed.

Lemma blank_has_no_text : forall q, blank_query q = true -> has_text q = false.
Proof.
  intros [q |] H; [| reflexivity]. cbn in H. unfold has_text.
  rewrite (trim_blank q H). cbn. apply andb_false_r.
Qed.

(** X25.  A request without a query, or with one made of white space, and
    without both coordinates is answered 400 without a single call,
    whatever else it carries, as long as the clock is a week away from the
    end of time values. *)
Theorem blank_query_is_refused : forall rt svc body,
    blank_query (body_query body) = true ->
    missing (body_lat body, body_lon body) = true ->
    (Z.abs (clock rt + 7 * 24 * 60 * 60 * 1000) <= 8640000000000000)%Z ->
    POST_with rt svc body = ([], respond 400 (ErrorBody msg_missing_coordinates)).
Proof.
  intros rt svc body Hblank Hmiss Hclock.
  unfold POST_with, handle, prepare.
  rewrite (resolveIntent_no_text rt svc body (blank_has_no_text _ Hblank)), bind_ret.
  cbn [f_date f_location f_activity].
  assert (Hdate : exists dat, defaultDate rt (body_date body) = ok dat).
  { unfold defaultDate. destruct (falsy (body_date body)); [| eexists; reflexivity].
    unfold TimeClip. replace (_ <=? _)%Z with true by (symmetry; apply Z.leb_le; exact Hclock).
    eexists. reflexivity. }
  destruct Hdate as [dat ->]. rewrite bind_lift_ok.
  assert (Hcoords : resolveCoordinates svc body None = ret (body_lat body, body_lon body)).
  { unfold resolveCoordinates. cbv zeta. rewrite Hmiss. cbn [falsy negb andb].
    rewrite bind_ret, Hmiss. cbn [andb].
    destruct (body_query body) as [q |]; [| reflexivity]. cbn in Hblank.
    destruct q as [| c q]; [reflexivity |].
    cbn [falsy truthy negb nullish_or].
    unfold extractCandidateLocation. rewrite (trim_blank (c :: q) Hblank).
    cbn [truthy negb falsy]. rewrite bind_ret.
    rewrite (cleanedQuery_blank (c :: q) Hblank). reflexivity. }
  rewrite Hcoords, bind_ret.
  unfold msg_missing_coordinates.
  destruct (body_lat body) as [lat |], (body_lon body) as [lon |];
    cbn [missing] in Hmiss; try discriminate Hmiss;
    cbv beta iota; rewrite bind_ret; unfold ret; reflexivity.
Qed.

Lemma blank_query_is_refused_witness :
  POST_with rt_sample svc_down (ask "   ") = ([], respond 400 (ErrorBody msg_missing_coordinates)).
Proof.
  apply blank_query_is_refused; [reflexivity | reflexivity | vm_compute; discriminate].
Defined.

(* ------------------------------------------------------------------ *)
(** * Percentages *)

(** X27.  The rain probability of the historical aggregate, when there is
    one, is an integer between 0 and 100, whatever the number of years and
    whatever they report: in double arithmetic the share of the rainy years
    does not exceed 1, nor its product by 100 the double 100. *)
Theorem historical_probability_is_a_percentage : forall results v,
    histProb (aggregateYears results) = Some v ->
    exists n : Z, (0 <= n <= 100)%Z /\ v = inject_Z n.
Proof.
  intros results v H. exact (@aggregateYears_percent results v H).
Qed.

Lemma historical_probability_is_a_percentage_witness :
  histProb (aggregateYears [ok {| p := Some 2; t := None; w := None |};
                            ok {| p := Some (1 # 2); t := None; w := None |};
                            ok {| p := Some 1; t := None; w := None |}]) = Some 67
  /\ exists n : Z, (0 <= n <= 100)%Z /\ 67 = inject_Z n.
Proof.
  assert (H : histProb (aggregateYears [ok {| p := Some 2; t := None; w := None |};
                                        ok {| p := Some (1 # 2); t := None; w := None |};
                                        ok {| p := Some 1; t := None; w := None |}]) = Some 67)
    by (vm_compute; reflexivity).
  split; [exact H |].
  exact (@historical_probability_is_a_percentage _ _ H).
Defined.

(** X28.  The precipitation probability of a forecast sample, the day mean
    of a series of fewer than [2^32] hourly values between 0 and 100, is an
    integer between 0 and 100: the rounding of the sum and of the quotient
    never takes the mean above 100. *)
Theorem forecast_probability_is_a_percentage : forall hourly v,
    probabilities_in_range hourly ->
    precipProb (forecastOfHourly hourly) = Some v ->
    exists n : Z, (0 <= n <= 100)%Z /\ v = inject_Z n.
Proof.
  intros hourly v Hr Hv. unfold forecastOfHourly in Hv. cbn [precipProb] in Hv.
  destruct hourly as [h |]; [| discriminate].
  destruct (precipitation_probability h) as [[| x prp] |] eqn:E; try discriminate.
  cbv iota beta in Hv. injection Hv as <-.
  apply round_percent, mean_in_range; [discriminate |].
  exact (Hr h _ eq_refl E).
Qed.

Lemma forecast_probability_is_a_percentage_witness :
  precipProb (forecastOfHourly (Some hourly_sample)) = Some 70
  /\ exists n : Z, (0 <= n <= 100)%Z /\ 70 = inject_Z n.
Proof.
  assert (Hr : probabilities_in_range (Some hourly_sample)).
  { intros h prp Hh Hprp. injection Hh as <-. cbn in Hprp. injection Hprp as <-.
    split; [reflexivity |].
    intros v Hv. cbn in Hv. destruct Hv as [Hv | [Hv | []]]; injection Hv as <-; lra. }
  assert (H : precipProb (forecastOfHourly (Some hourly_sample)) = Some 70)
    by (vm_compute; reflexivity).
  split; [exact H |].
  exact (@forecast_probability_is_a_percentage _ _ Hr H).
Defined.
